(** * Outline numbering classifier of SpecRebuilder: a shallow embedding

    The repository is a set of Python scripts that find outline numbering
    ("1.01", "A.", "(a)") in the paragraphs of a Word document.  This file
    embeds the functions that decide the behaviour of the classifier, one
    module for each script:

    - [ComprehensiveNumberingAnalyzer]: [determine_level_from_numbering];
    - [DirectTextMatcher]: [extract_numbering_from_line],
      [looks_like_numbering] and [determine_level];
    - [HybridDetector]: [deduce_numbering_from_text],
      [clean_content_from_numbering], the loop of
      [extract_numbered_paragraphs], [consolidate_content_blocks] and the
      paragraph entries written to the report;
    - [EnhancedListAnalyzer]: [_clean_content], [_detect_numbering_format],
      [_infer_level_from_numbering] and [_enhance_blocks];
    - [SimpleEnhancedAnalyzer]: [analyze_enhanced_structure] with
      [clean_content], [detect_numbering_format] and [assign_levels];
    - [FlexibleListAnalyzer]: [_create_flexible_blocks], the numbering
      relationships, [_assign_levels_contextually] and the groups of
      [_group_lists_contextually];
    - [EnhancedPipeline]: [_group_lists], [_assign_levels],
      [_analyze_group_levels] and [_finalize_analysis] of
      enhanced_list_analyzer.py, and their composition in
      [analyze_document];
    - [Reports]: the counts of [analyze_document_structure] and
      [get_level_distribution].

    The classification pass of the specification is
    [analyze_enhanced_structure], run on the paragraph entries that the
    detector wrote: [text] is the raw text, [list_number] the explicit
    numbering, [level] the explicit level and [inferred_number] the token
    that [deduce_numbering_from_text] found in the text.

    Python [str] values are modelled as lists of 8-bit characters, read as the
    code points 0..255; the character classes of [re] and [str.strip] are
    those of Python 3 on that range.  A statement over every [str] is
    therefore a statement over the texts of that range.  Beyond it Python
    accepts more: [\d] other decimal digits, [\s] and [str.strip] other
    spaces, [\w] other letters and digits, and with [re.IGNORECASE] the
    sets [A-Z], [a-z] and [ivxlcdm] also take U+0130, U+0131, U+017F and
    U+212A.  The regular expressions of the source
    are kept as syntax trees and run by a backtracking matcher with the
    priorities of Python's [re] module (greedy repetition, leftmost
    alternative first).  A Python exception is the result [None] of a
    function that returns an option. *)

From Stdlib Require Import Ascii String NArith ZArith Lia Bool.
From stdpp Require Import base tactics option list gmap.

Open Scope bool_scope.
Open Scope list_scope.

(** ** Python strings *)

Definition str := list ascii.

Definition py (s : string) : str := list_ascii_of_string s.

Arguments py s%_string.

Module PyStr.

Definition code (c : ascii) : N := N_of_ascii c.

Definition in_range (lo hi : N) (c : ascii) : bool :=
  (lo <=? code c)%N && (code c <=? hi)%N.

(** [str.isspace] on one character, which is also [\s]:
    TAB LF VT FF CR, FS GS RS US, SPACE, NEL and NBSP. *)
Definition is_space (c : ascii) : bool :=
  in_range 9 13 c || in_range 28 32 c
  || (code c =? 133)%N || (code c =? 160)%N.

(** [\d]: the decimal digits; below 256 these are 0-9 only. *)
Definition is_digit (c : ascii) : bool := in_range 48 57 c.

Definition is_upper (c : ascii) : bool := in_range 65 90 c.
Definition is_lower (c : ascii) : bool := in_range 97 122 c.
Definition is_letter (c : ascii) : bool := is_upper c || is_lower c.

(** [\w]: alphanumeric characters and the underscore.  Above 127 the
    alphanumeric code points are the Latin-1 letters, the superscript
    digits and the vulgar fractions. *)
Definition is_word (c : ascii) : bool :=
  is_digit c || is_letter c || (code c =? 95)%N
  || (code c =? 170)%N || in_range 178 179 c || (code c =? 181)%N
  || in_range 185 186 c || in_range 188 190 c
  || in_range 192 214 c || in_range 216 246 c || in_range 248 255 c.

Definition newline : ascii := ascii_of_N 10.
Definition tab : ascii := ascii_of_N 9.

(** ASCII case mapping; no other character below 256 has a case variant
    that is an ASCII letter. *)
Definition lower (c : ascii) : ascii :=
  if is_upper c then ascii_of_N (code c + 32) else c.
Definition upper (c : ascii) : ascii :=
  if is_lower c then ascii_of_N (code c - 32) else c.

(** [bool(s)] of a string. *)
Definition truthy (s : str) : bool :=
  match s with [] => false | _ :: _ => true end.

Fixpoint drop_while (f : ascii -> bool) (s : str) : str :=
  match s with
  | [] => []
  | c :: t => if f c then drop_while f t else s
  end.

(** [s.rstrip(...)] for the characters accepted by [f]: the longest
    suffix of such characters is removed. *)
Fixpoint rstrip_with (f : ascii -> bool) (s : str) : str :=
  match s with
  | [] => []
  | c :: t =>
      match rstrip_with f t with
      | [] => if f c then [] else [c]
      | r => c :: r
      end
  end.

Definition lstrip (s : str) : str := drop_while is_space s.
Definition rstrip (s : str) : str := rstrip_with is_space s.
Definition strip (s : str) : str := lstrip (rstrip s).

(** [s.startswith(t)] *)
Fixpoint startswith (s t : str) {struct t} : bool :=
  match t, s with
  | [], _ => true
  | _ :: _, [] => false
  | b :: t', a :: s' => Ascii.eqb a b && startswith s' t'
  end.

(** First occurrence of [sep] in [s]: the text before it and the text
    after it.  [sep] is never empty in the source. *)
Fixpoint partition (sep s : str) : option (str * str) :=
  if startswith s sep then Some ([], drop (length sep) s)
  else match s with
       | [] => None
       | c :: t =>
           match partition sep t with
           | Some (a, b) => Some (c :: a, b)
           | None => None
           end
       end.

(** [sep in s] *)
Definition contains (sep s : str) : bool :=
  match partition sep s with Some _ => true | None => false end.

(** [s.split(sep, 1)] *)
Definition split1 (sep s : str) : list str :=
  match partition sep s with
  | Some (a, b) => [a; b]
  | None => [s]
  end.

(** [s == t] on strings. *)
Fixpoint streq (s t : str) : bool :=
  match s, t with
  | [], [] => true
  | a :: s', b :: t' => Ascii.eqb a b && streq s' t'
  | _, _ => false
  end.

End PyStr.

Import PyStr.

(** ** Regular expressions of the source *)

Module Re.

(** One-character items. *)
Inductive cclass :=
| Lit (c : ascii)          (* an escaped or plain literal: \. 0 \( *)
| Digit                    (* \d *)
| Space                    (* \s *)
| Any                      (* .  (no DOTALL: anything but a newline) *)
| Range (lo hi : ascii)    (* [A-Z] *)
| OneOf (cs : str)         (* [ivxlcdm] *)
| NotWord.                 (* [^\w] *)

Inductive regex :=
| Bol                      (* ^ *)
| Eol                      (* $ *)
| One (k : cclass)
| Opt (k : cclass)         (* k? *)
| Star (k : cclass)        (* k* *)
| Plus (k : cclass)        (* k+ *)
| Rep (n : nat) (k : cclass)   (* k{n} *)
| Seq (r1 r2 : regex)
| Alt (r1 r2 : regex)      (* r1|r2 *)
| Grp (r : regex).         (* ( r ), capturing *)

Declare Scope re_scope.
Delimit Scope re_scope with re.
Bind Scope re_scope with regex.
Infix ">>" := Seq (at level 60, right associativity) : re_scope.

(** The literal word [w] as a sequence of literals. *)
Fixpoint Word (w : str) : regex :=
  match w with
  | [] => Star (OneOf [])
  | [c] => One (Lit c)
  | c :: t => Seq (One (Lit c)) (Word t)
  end.

Definition mem (c : ascii) (cs : str) : bool :=
  existsb (Ascii.eqb c) cs.

Definition class_plain (k : cclass) (c : ascii) : bool :=
  match k with
  | Lit x => Ascii.eqb c x
  | Digit => is_digit c
  | Space => is_space c
  | Any => negb (Ascii.eqb c newline)
  | Range lo hi => in_range (code lo) (code hi) c
  | OneOf cs => mem c cs
  | NotWord => negb (is_word c)
  end.

(** With [re.IGNORECASE] a character is accepted when one of its case
    variants is. *)
Definition class_has (ic : bool) (k : cclass) (c : ascii) : bool :=
  if ic
  then class_plain k c || class_plain k (lower c) || class_plain k (upper c)
  else class_plain k c.

Section Matcher.
Context {R : Type}.
Variable ic : bool.          (* re.IGNORECASE *)
Variable input : str.        (* the whole subject string *)

(** Greedy repetition of a one-character item: the longest run first,
    then shorter ones. *)
Fixpoint star_greedy (f : ascii -> bool) (s : str)
         (k : str -> option R) : option R :=
  match s with
  | c :: t =>
      if f c
      then match star_greedy f t k with
           | Some r => Some r
           | None => k s
           end
      else k s
  | [] => k s
  end.

Fixpoint rep (n : nat) (f : ascii -> bool) (s : str)
         (k : str -> option R) : option R :=
  match n with
  | O => k s
  | S n' =>
      match s with
      | c :: t => if f c then rep n' f t k else None
      | [] => None
      end
  end.

(** [rmatch r s caps k]: match [r] at the suffix [s] of [input], then
    continue with [k] on what is left and on the groups closed so far. *)
Fixpoint rmatch (r : regex) (s : str) (caps : list str)
         (k : str -> list str -> option R) : option R :=
  match r with
  | Bol => if Nat.eqb (length s) (length input) then k s caps else None
  | Eol =>
      match s with
      | [] => k s caps
      | [c] => if Ascii.eqb c newline then k s caps else None
      | _ => None
      end
  | One c =>
      match s with
      | x :: t => if class_has ic c x then k t caps else None
      | [] => None
      end
  | Opt c =>
      match s with
      | x :: t =>
          if class_has ic c x
          then match k t caps with
               | Some v => Some v
               | None => k s caps
               end
          else k s caps
      | [] => k s caps
      end
  | Star c => star_greedy (class_has ic c) s (fun t => k t caps)
  | Plus c =>
      match s with
      | x :: t =>
          if class_has ic c x
          then star_greedy (class_has ic c) t (fun t' => k t' caps)
          else None
      | [] => None
      end
  | Rep n c => rep n (class_has ic c) s (fun t => k t caps)
  | Seq r1 r2 =>
      rmatch r1 s caps (fun t caps' => rmatch r2 t caps' k)
  | Alt r1 r2 =>
      match rmatch r1 s caps k with
      | Some v => Some v
      | None => rmatch r2 s caps k
      end
  | Grp r1 =>
      rmatch r1 s caps
        (fun t caps' => k t (caps' ++ [take (length s - length t) s]))
  end.
End Matcher.

(** A match object: the captured groups 1, 2, ... and the unmatched rest
    of the subject. *)
Record Match := { groups : list str; rest : str }.

Definition group (m : Match) (n : nat) : option str := groups m !! (n - 1).

(** The end of the pattern: the match is made. *)
Definition accept (t : str) (caps : list str) : option Match :=
  Some {| groups := caps; rest := t |}.

(** [re.match(pattern, string, flags)] *)
Definition re_match (ic : bool) (r : regex) (s : str) : option Match :=
  rmatch ic s r s [] accept.

(** [if m:] for a match object or [None]. *)
Definition found (m : option Match) : bool :=
  match m with Some _ => true | None => false end.

Definition matches (ic : bool) (r : regex) (s : str) : bool :=
  found (re_match ic r s).

(** [re.sub(pattern, '', text)]: every leftmost non-overlapping match is
    removed.  [skip] counts the characters of the current match that are
    still to be dropped; an empty match removes nothing. *)
Fixpoint sub_scan (ic : bool) (r : regex) (input s : str) (skip : nat)
  : str :=
  match s with
  | [] => []
  | c :: t =>
      match skip with
      | S n => sub_scan ic r input t n
      | O =>
          match rmatch ic input r s []
                  (fun t' _ => Some (length s - length t')) with
          | Some (S n) => sub_scan ic r input t n
          | _ => c :: sub_scan ic r input t 0
          end
      end
  end.

Definition re_sub_empty (r : regex) (text : str) : str :=
  sub_scan false r text text 0.

(** [re.escape(s)] followed by compilation: the literal word [s]. *)
Definition escape (s : str) : regex := Word s.

End Re.

Import Re.

Example re_match_group :
  option_map groups
    (re_match false (Bol >> Grp (Plus Digit >> One (Lit ".")) >> Star Space)%re
       (py "12. x")) = Some [py "12."].
Proof. reflexivity. Qed.

(** The first pattern of an ordered table that matches decides. *)
Fixpoint first_level {A : Type} (ic : bool) (table : list (regex * A))
         (s : str) : option A :=
  match table with
  | [] => None
  | (r, v) :: rest => if matches ic r s then Some v else first_level ic rest s
  end.

(** ** comprehensive_numbering_analyzer.py *)

Module ComprehensiveNumberingAnalyzer.

Definition roman := py "ivxlcdm".

(** The [if]/[elif] chain of [determine_level_from_numbering]; the last
    test alone is made with [re.IGNORECASE]. *)
Definition determine_level_from_numbering (numbering : str) : option Z :=
  if matches false
       (Bol >> Plus Digit >> One (Lit ".") >> One (Lit "0") >> Eol)
       numbering then Some 0%Z                       (* ^\d+\.0$ *)
  else if matches false
       (Bol >> Plus Digit >> One (Lit ".") >> Plus Digit >> Eol)
       numbering then Some 1%Z                       (* ^\d+\.\d+$ *)
  else if matches false
       (Bol >> One (Range "A" "Z") >> One (Lit ".") >> Eol)
       numbering then Some 2%Z                       (* ^[A-Z]\.$ *)
  else if matches false
       (Bol >> Plus Digit >> One (Lit ".") >> Eol)
       numbering then Some 3%Z                       (* ^\d+\.$ *)
  else if matches false
       (Bol >> One (Range "a" "z") >> One (Lit ".") >> Eol)
       numbering then Some 4%Z                       (* ^[a-z]\.$ *)
  else if matches true
       (Bol >> Plus (OneOf roman) >> One (Lit ".") >> Eol)
       numbering then Some 5%Z                       (* ^[ivxlcdm]+\.$ *)
  else None.

End ComprehensiveNumberingAnalyzer.

(** ** direct_text_matcher.py (and numbering_pattern_matcher.py, whose
    [looks_like_numbering] and [determine_level_manual] are the same text) *)

Module DirectTextMatcher.

Definition roman := py "ivxlcdm".

(** [looks_like_numbering]: every pattern is tried with [re.IGNORECASE]
    on the text without its non-word characters. *)
Definition looks_like_patterns : list regex :=
  [ Bol >> Plus Digit >> Eol                           (* ^\d+$ *)
  ; Bol >> Plus (Range "A" "Z") >> Eol                 (* ^[A-Z]+$ *)
  ; Bol >> Plus (Range "a" "z") >> Eol                 (* ^[a-z]+$ *)
  ; Bol >> Plus (OneOf roman) >> Eol                   (* ^[ivxlcdm]+$ *)
  ; Bol >> Plus Digit >> Plus (Range "A" "Z") >> Eol   (* ^\d+[A-Z]+$ *)
  ; Bol >> Plus (Range "A" "Z") >> Plus Digit >> Eol   (* ^[A-Z]+\d+$ *)
  ]%re.

Definition looks_like_numbering (text : str) : bool :=
  let clean_text := re_sub_empty (One NotWord) text in
  existsb (fun r => matches true r clean_text) looks_like_patterns.

Definition determine_level (numbering : str) : option Z :=
  let clean_num := re_sub_empty (One NotWord) numbering in
  if matches false (Bol >> Plus Digit >> One (Lit "0") >> Eol) clean_num
  then Some 0%Z                                        (* ^\d+0$ *)
  else if matches false (Bol >> Plus Digit >> Plus Digit >> Eol) clean_num
  then Some 1%Z                                        (* ^\d+\d+$ *)
  else if matches false (Bol >> Plus (Range "A" "Z") >> Eol) clean_num
  then Some 2%Z                                        (* ^[A-Z]+$ *)
  else if matches false (Bol >> Plus Digit >> Eol) clean_num
  then Some 3%Z                                        (* ^\d+$ *)
  else if matches false (Bol >> Plus (Range "a" "z") >> Eol) clean_num
  then Some 4%Z                                        (* ^[a-z]+$ *)
  else if matches true (Bol >> Plus (OneOf roman) >> Eol) clean_num
  then Some 5%Z                                        (* ^[ivxlcdm]+$ *)
  else None.

Definition separators : list str :=
  [ [tab]; py "  "; py " - "; py " -"; py "- "; py " )"; py ") ";
    py " ]"; py "] " ].

(** The six fallback patterns, each [^(token)\s+(.+)]. *)
Definition with_content (token : regex) : regex :=
  (Bol >> Grp token >> Plus Space >> Grp (Plus Any))%re.

Definition patterns : list regex :=
  [ with_content (Plus Digit >> One (Lit ".") >> One (Lit "0"))
  ; with_content (Plus Digit >> One (Lit ".") >> Plus Digit)
  ; with_content (One (Range "A" "Z") >> One (Lit "."))
  ; with_content (Plus Digit >> One (Lit "."))
  ; with_content (One (Range "a" "z") >> One (Lit "."))
  ; with_content (Plus (OneOf roman) >> One (Lit "."))
  ]%re.

(** The loop over the separators: the first separator that occurs in the
    line and leaves a numbering-like left part decides. *)
Fixpoint split_on (seps : list str) (line : str) : option (str * str) :=
  match seps with
  | [] => None
  | sep :: seps' =>
      if contains sep line then
        match split1 sep line with
        | part0 :: part1 :: _ =>
            let potential_numbering := strip part0 in
            let potential_content := strip part1 in
            if looks_like_numbering potential_numbering
            then Some (potential_numbering, potential_content)
            else split_on seps' line
        | _ => split_on seps' line
        end
      else split_on seps' line
  end.

(** The loop over the fallback patterns, all with [re.IGNORECASE]. *)
Fixpoint match_patterns (rs : list regex) (line : str)
  : option (option str * option str) :=
  match rs with
  | [] => None
  | r :: rs' =>
      match re_match true r line with
      | Some m => Some (group m 1, group m 2)
      | None => match_patterns rs' line
      end
  end.

(** [extract_numbering_from_line]: the pair (numbering, content), each
    [None] when nothing was found. *)
Definition extract_numbering_from_line (line : str)
  : option str * option str :=
  match split_on separators line with
  | Some (numbering, content) => (Some numbering, Some content)
  | None =>
      match match_patterns patterns line with
      | Some res => res
      | None => (None, None)
      end
  end.

End DirectTextMatcher.

(** [a or b] where [a] is a string and [b] a string or [None]. *)
Definition py_or (a : str) (b : option str) : option str :=
  if truthy a then Some a else b.

(** [bool(x)] where [x] is a string or [None]. *)
Definition truthy_opt (x : option str) : bool :=
  match x with Some s => truthy s | None => false end.

(** ** enhanced_hybrid_detector.py (hybrid_numbering_detector.py has the same
    pattern list and the same [deduce_numbering_from_text]) *)

Module HybridDetector.

(** [^(token)\s*]; in the last three patterns the opening parenthesis is
    outside the group and the closing one inside it. *)
Definition numbering_patterns : list regex :=
  [ Bol >> Grp (Plus Digit >> One (Lit ".") >> Plus Digit) >> Star Space
  ; Bol >> Grp (Plus Digit >> One (Lit ".")) >> Star Space
  ; Bol >> Grp (One (Range "A" "Z") >> One (Lit ".")) >> Star Space
  ; Bol >> Grp (One (Range "a" "z") >> One (Lit ".")) >> Star Space
  ; Bol >> One (Lit "(") >> Grp (Plus Digit >> One (Lit ")"))
        >> Star Space                               (* ^\((\d+\))\s* *)
  ; Bol >> One (Lit "(") >> Grp (One (Range "A" "Z") >> One (Lit ")"))
        >> Star Space                               (* ^\(([A-Z]\))\s* *)
  ; Bol >> One (Lit "(") >> Grp (One (Range "a" "z") >> One (Lit ")"))
        >> Star Space                               (* ^\(([a-z]\))\s* *)
  ]%re.

Fixpoint first_group (rs : list regex) (s : str) : option str :=
  match rs with
  | [] => None
  | r :: rs' =>
      match re_match false r s with
      | Some m => group m 1
      | None => first_group rs' s
      end
  end.

Definition deduce_numbering_from_text (text : str) : option str :=
  if negb (truthy text) || negb (truthy (strip text)) then None
  else first_group numbering_patterns (strip text).

Definition clean_content_from_numbering (text numbering : str) : str :=
  if negb (truthy text) || negb (truthy numbering) then text
  else
    let cleaned := strip text in
    if startswith cleaned numbering
    then lstrip (drop (length numbering) cleaned)
    else cleaned.

(** What the reader hands over for one paragraph: the range text, and
    the list string and list level when the paragraph is numbered (the
    empty string and [None] otherwise). *)
Record WordParagraph := {
  Range_Text : str;
  ListString : str;
  ListLevelNumber : option Z
}.

Record NumberedParagraph := {
  index : nat;
  list_number : str;
  text : str;
  combined : str;
  level : option Z;
  inferred_number : option str;
  deduction_method : option str;
  cleaned_content : option str
}.

Definition CR : ascii := ascii_of_N 13.
Definition BEL : ascii := ascii_of_N 7.

(** [raw.rstrip("\r\x07")] *)
Definition rstrip_marks (raw : str) : str :=
  rstrip_with (fun c => Ascii.eqb c CR || Ascii.eqb c BEL) raw.

(** The body of the loop of [extract_numbered_paragraphs]. *)
Definition numbered_paragraph (idx : nat) (para : WordParagraph)
  : NumberedParagraph :=
  let text := rstrip_marks (Range_Text para) in
  let list_number := ListString para in
  let combined :=
    if truthy list_number then list_number ++ [tab] ++ text else text in
  let paragraph :=
    {| index := idx; list_number := list_number; text := text;
       combined := combined; level := ListLevelNumber para;
       inferred_number := None; deduction_method := None;
       cleaned_content := None |} in
  if negb (truthy list_number) && truthy (strip text) then
    match deduce_numbering_from_text text with
    | Some inferred =>
        if truthy inferred then
          {| index := idx; list_number := list_number; text := text;
             combined := combined; level := ListLevelNumber para;
             inferred_number := Some inferred;
             deduction_method := Some (py "text_pattern");
             cleaned_content :=
               Some (clean_content_from_numbering text inferred) |}
        else paragraph
    | None => paragraph
    end
  else paragraph.

Definition extract_numbered_paragraphs (doc : list WordParagraph)
  : list NumberedParagraph :=
  imap numbered_paragraph doc.

Record ContentBlock := {
  cb_index : nat;
  numbering : option str;
  numbering_type : str;
  content : str;
  cb_level : option Z;
  continuation_blocks : list str
}.

(** The state of the loop of [consolidate_content_blocks]. *)
Record Consolidation := {
  content_blocks : list ContentBlock;
  current_block : option ContentBlock;
  continuation_texts : list str
}.

Definition with_continuations (b : ContentBlock) (texts : list str)
  : ContentBlock :=
  match texts with
  | [] => b
  | _ :: _ =>
      {| cb_index := cb_index b; numbering := numbering b;
         numbering_type := numbering_type b; content := content b;
         cb_level := cb_level b; continuation_blocks := texts |}
  end.

(** Saving the current block, if there is one. *)
Definition flush (st : Consolidation) : list ContentBlock :=
  match current_block st with
  | Some b =>
      content_blocks st ++ [with_continuations b (continuation_texts st)]
  | None => content_blocks st
  end.

Definition consolidate_step (st : Consolidation) (para : NumberedParagraph)
  : Consolidation :=
  if negb (truthy (strip (text para))) then st
  else
    let has_numbering :=
      truthy_opt (py_or (list_number para) (inferred_number para)) in
    if has_numbering then
      let blocks := flush st in
      {| content_blocks := blocks;
         current_block := Some
           {| cb_index := length blocks;
              numbering :=
                if truthy (list_number para) then Some (list_number para)
                else inferred_number para;
              numbering_type :=
                if truthy (list_number para) then py "true"
                else py "inferred";
              content := text para;
              cb_level := level para;
              continuation_blocks := [] |};
         continuation_texts := [] |}
    else
      match current_block st with
      | Some _ =>
          {| content_blocks := content_blocks st;
             current_block := current_block st;
             continuation_texts := continuation_texts st ++ [text para] |}
      | None =>
          {| content_blocks := content_blocks st;
             current_block := Some
               {| cb_index := length (content_blocks st);
                  numbering := Some [];
                  numbering_type := py "none";
                  content := text para;
                  cb_level := None;
                  continuation_blocks := [] |};
             continuation_texts := [] |}
      end.

Definition consolidate_content_blocks (paragraphs : list NumberedParagraph)
  : list ContentBlock :=
  flush (fold_left consolidate_step paragraphs
           {| content_blocks := []; current_block := None;
              continuation_texts := [] |}).

(** An entry of the report's paragraph lists, as the analyzers read it
    back from the JSON file. *)
Record Paragraph := {
  p_index : nat;
  p_list_number : str;
  p_inferred_number : option str;
  p_text : str;
  p_combined : str;
  p_level : option Z;
  p_deduction_method : option str
}.

(** [s[:100] + "..." if len(s) > 100 else s] *)
Definition preview (s : str) : str :=
  if (100 <? length s)%nat then take 100 s ++ py "..." else s.

Definition sample_entry (para : NumberedParagraph) : Paragraph :=
  {| p_index := index para;
     p_list_number := list_number para;
     p_inferred_number := inferred_number para;
     p_text := preview (text para);
     p_combined := preview (combined para);
     p_level := level para;
     p_deduction_method := deduction_method para |}.

(** The entries of ['sample_paragraphs']: the first 20 paragraphs. *)
Definition sample_paragraphs (paragraphs : list NumberedParagraph)
  : list Paragraph :=
  map sample_entry (take 20 paragraphs).

End HybridDetector.

Import HybridDetector.

(** [^token\s*\t?\s*] for the escaped numbering string. *)
Definition prefix_pattern (numbering : str) : regex :=
  (Bol >> escape numbering >> Star Space >> Opt (Lit tab) >> Star Space)%re.

(** The table of level patterns, the same text in enhanced_list_analyzer.py
    ([self.level_patterns]) and in simple_enhanced_analyzer.py (local to
    [assign_levels]); every pattern ends in [\s]. *)
Definition level_patterns : list (regex * Z) :=
  [ (Bol >> Plus Digit >> One (Lit ".") >> One (Lit "0") >> One Space, 0%Z)
  ; (Bol >> Plus Digit >> One (Lit ".") >> Rep 2 Digit >> One Space, 1%Z)
  ; (Bol >> One (Range "A" "Z") >> One (Lit ".") >> One Space, 2%Z)
  ; (Bol >> Plus Digit >> One (Lit ".") >> One Space, 3%Z)
  ; (Bol >> One (Range "a" "z") >> One (Lit ".") >> One Space, 4%Z)
  ; (Bol >> Plus (OneOf (py "ivx")) >> One (Lit ".") >> One Space, 5%Z)
  ]%re.

(** The alternation [(w1|w2|...)] of literal words. *)
Fixpoint alternatives (ws : list str) : regex :=
  match ws with
  | [] => Word []
  | [w] => Word w
  | w :: rest => Alt (Word w) (alternatives rest)
  end.

Definition one_of_words (ws : list string) : regex :=
  Grp (alternatives (map py ws)).

(** The format patterns of flexible_list_analyzer.py and
    simple_enhanced_analyzer.py, in the order of the dictionary;
    enhanced_list_analyzer.py has the same patterns with groups around the
    digits and the letters, which nothing reads.  The format is kept by its
    OpenXML name. *)
Definition format_patterns : list (regex * str) :=
  [ (Bol >> Plus Digit >> One (Lit "."), py "decimal")
  ; (Bol >> Plus Digit >> One (Lit ".") >> Plus Digit, py "decimal")
  ; (Bol >> Plus Digit >> One (Lit ".") >> Plus Digit >> One (Lit ".")
         >> Plus Digit, py "decimal")
  ; (Bol >> One (Range "A" "Z") >> One (Lit "."), py "upperLetter")
  ; (Bol >> One (Range "A" "Z") >> One (Lit ".") >> Plus Digit,
     py "upperLetter")
  ; (Bol >> One (Range "a" "z") >> One (Lit "."), py "lowerLetter")
  ; (Bol >> One (Range "a" "z") >> One (Lit ".") >> Plus Digit,
     py "lowerLetter")
  ; (Bol >> one_of_words ["I"; "II"; "III"; "IV"; "V"; "VI"; "VII"; "VIII";
                          "IX"; "X"]%string >> One (Lit "."),
     py "upperRoman")
  ; (Bol >> one_of_words ["i"; "ii"; "iii"; "iv"; "v"; "vi"; "vii"; "viii";
                          "ix"; "x"]%string >> One (Lit "."),
     py "lowerRoman")
  ]%re.

(** ** enhanced_list_analyzer.py (flexible_list_analyzer.py has the same
    [_clean_content]) *)

Module EnhancedListAnalyzer.

Definition _clean_content (text numbering_pattern : str)
           (inferred_number : option str) : str :=
  if truthy numbering_pattern then
    strip (re_sub_empty (prefix_pattern numbering_pattern) text)
  else
    match inferred_number with
    | Some inferred =>
        if truthy inferred
        then strip (re_sub_empty (prefix_pattern inferred) text)
        else strip text
    | None => strip text
    end.

Definition _detect_numbering_format (numbering : str) : option str :=
  if negb (truthy numbering) then None
  else first_level false format_patterns numbering.

Definition _infer_level_from_numbering (numbering : str) : option Z :=
  first_level false level_patterns numbering.

Record EnhancedBlock := {
  index : nat;
  text : str;
  cleaned_content : str;
  level : option Z;
  num_fmt : option str;
  list_id : option nat;
  parent_list_id : option nat;
  numbering_pattern : option str;
  inferred_number : option str;
  is_list_item : bool;
  is_continuation : bool;
  continuation_of : option nat;
  indentation_level : option nat;
  context_hints : list str
  (* confidence_score is a float that nothing below reads *)
}.

Definition or_empty (x : option str) : str :=
  match x with Some s => s | None => [] end.

(** The body of the loop of [_enhance_blocks]. *)
Definition enhance_block (para : Paragraph) : EnhancedBlock :=
  let text := p_text para in
  let numbering_pattern := p_list_number para in
  let inferred_number := p_inferred_number para in
  {| index := p_index para;
     text := text;
     cleaned_content := _clean_content text numbering_pattern inferred_number;
     level := p_level para;
     num_fmt :=
       _detect_numbering_format
         (or_empty (py_or numbering_pattern inferred_number));
     list_id := None;
     parent_list_id := None;
     numbering_pattern := py_or numbering_pattern inferred_number;
     inferred_number := inferred_number;
     is_list_item := truthy_opt (py_or numbering_pattern inferred_number);
     is_continuation := false;
     continuation_of := None;
     indentation_level := None;
     context_hints := [] |}.

Definition _enhance_blocks (paragraphs : list Paragraph)
  : list EnhancedBlock :=
  map enhance_block paragraphs.

End EnhancedListAnalyzer.

(** ** simple_enhanced_analyzer.py *)

Module SimpleEnhancedAnalyzer.

Definition clean_content (text : str) (numbering : option str) : str :=
  match numbering with
  | Some n =>
      if truthy n
      then strip (re_sub_empty (prefix_pattern n) text)
      else strip text
  | None => strip text
  end.

Definition detect_numbering_format (numbering : option str) : option str :=
  match numbering with
  | Some n =>
      if negb (truthy n) then None
      else first_level false format_patterns n
  | None => None
  end.

Record EnhancedBlock := {
  index : nat;
  text : str;
  cleaned_content : str;
  level : option Z;
  num_fmt : option str;
  list_id : option nat;
  numbering_pattern : option str;
  is_list_item : bool;
  is_continuation : bool
  (* confidence_score is a float that nothing below reads *)
}.

Definition set_list_id (group_id : nat) (b : EnhancedBlock) : EnhancedBlock :=
  {| index := index b; text := text b;
     cleaned_content := cleaned_content b; level := level b;
     num_fmt := num_fmt b; list_id := Some group_id;
     numbering_pattern := numbering_pattern b;
     is_list_item := is_list_item b;
     is_continuation := is_continuation b |}.

Definition set_level (lv : Z) (b : EnhancedBlock) : EnhancedBlock :=
  {| index := index b; text := text b;
     cleaned_content := cleaned_content b; level := Some lv;
     num_fmt := num_fmt b; list_id := list_id b;
     numbering_pattern := numbering_pattern b;
     is_list_item := is_list_item b;
     is_continuation := is_continuation b |}.

(** The block built for paragraph [i] in the loop of
    [analyze_enhanced_structure]. *)
Definition enhanced_block (i : nat) (para : Paragraph) : EnhancedBlock :=
  let numbering := py_or (p_list_number para) (p_inferred_number para) in
  {| index := i;
     text := p_text para;
     cleaned_content := clean_content (p_text para) numbering;
     level := p_level para;
     num_fmt := detect_numbering_format numbering;
     list_id := None;
     numbering_pattern := numbering;
     is_list_item := truthy_opt numbering;
     is_continuation := false |}.

(** The state of that loop. *)
Record Scan := {
  enhanced_blocks : list EnhancedBlock;
  list_groups : list (list nat);
  current_group : list nat
}.

Definition scan_step (st : Scan) (para : Paragraph) : Scan :=
  let i := length (enhanced_blocks st) in
  let b := enhanced_block i para in
  if is_list_item b then
    {| enhanced_blocks := enhanced_blocks st ++ [b];
       list_groups := list_groups st;
       current_group := current_group st ++ [i] |}
  else
    match current_group st with
    | _ :: _ =>
        {| enhanced_blocks := enhanced_blocks st ++ [b];
           list_groups := list_groups st ++ [current_group st];
           current_group := [] |}
    | [] =>
        {| enhanced_blocks := enhanced_blocks st ++ [b];
           list_groups := list_groups st;
           current_group := [] |}
    end.

Definition scan (paragraphs : list Paragraph) : Scan :=
  fold_left scan_step paragraphs
    {| enhanced_blocks := []; list_groups := []; current_group := [] |}.

Definition close_groups (st : Scan) : list (list nat) :=
  match current_group st with
  | _ :: _ => list_groups st ++ [current_group st]
  | [] => list_groups st
  end.

(** [block = blocks[i]] followed by the in-place update [f] of the block;
    [None] stands for a Python exception: the IndexError of [blocks[i]], or
    the exception of [f]. *)
Definition update_block (f : EnhancedBlock -> option EnhancedBlock)
           (blocks : list EnhancedBlock) (i : nat)
  : option (list EnhancedBlock) :=
  match blocks !! i with
  | Some b =>
      match f b with
      | Some b' => Some (<[i := b']> blocks)
      | None => None
      end
  | None => None
  end.

Fixpoint for_each (f : EnhancedBlock -> option EnhancedBlock)
         (group : list nat) (blocks : list EnhancedBlock)
  : option (list EnhancedBlock) :=
  match group with
  | [] => Some blocks
  | i :: rest =>
      match update_block f blocks i with
      | Some blocks' => for_each f rest blocks'
      | None => None
      end
  end.

(** [for group_id, group in enumerate(list_groups, 1)] *)
Fixpoint assign_list_ids (group_id : nat) (groups : list (list nat))
         (blocks : list EnhancedBlock) : option (list EnhancedBlock) :=
  match groups with
  | [] => Some blocks
  | group :: rest =>
      match for_each (fun b => Some (set_list_id group_id b)) group blocks
      with
      | Some blocks' => assign_list_ids (S group_id) rest blocks'
      | None => None
      end
  end.

(** The level given to one block of a group by [assign_levels];
    [re.match] raises a TypeError on [None]. *)
Definition assign_level (block : EnhancedBlock) : option EnhancedBlock :=
  match numbering_pattern block with
  | None => None
  | Some numbering =>
      match first_level false level_patterns numbering with
      | Some lv => Some (set_level lv block)
      | None =>
          match level block with
          | None => Some (set_level 0 block)
          | Some _ => Some block
          end
      end
  end.

Fixpoint assign_levels (groups : list (list nat))
         (blocks : list EnhancedBlock) : option (list EnhancedBlock) :=
  match groups with
  | [] => Some blocks
  | group :: rest =>
      match for_each assign_level group blocks with
      | Some blocks' => assign_levels rest blocks'
      | None => None
      end
  end.

(** [analyze_enhanced_structure], from the paragraphs read from the JSON
    file to the ['enhanced_blocks'] of the report. *)
Definition analyze_enhanced_structure (paragraphs : list Paragraph)
  : option (list EnhancedBlock) :=
  let st := scan paragraphs in
  let groups := close_groups st in
  match assign_list_ids 1 groups (enhanced_blocks st) with
  | Some blocks => assign_levels groups blocks
  | None => None
  end.

End SimpleEnhancedAnalyzer.

(** ** flexible_list_analyzer.py *)

Module FlexibleListAnalyzer.

Record FlexibleBlock := {
  index : nat;
  text : str;
  cleaned_content : str;
  level : option Z;
  num_fmt : option str;
  list_id : option nat;
  numbering_pattern : option str;
  inferred_number : option str;
  is_list_item : bool
  (* indentation_level, context_hints and parent_context stay None, [] and
     None; confidence_score is a float that nothing below reads *)
}.

(** [ListContext]; the indent stack is never touched and the format stack
    is written only. *)
Record ListContext := {
  current_level : Z;
  numbering_stack : list (str * Z);
  format_stack : list str
}.

(** The body of the loop of [_create_flexible_blocks]. *)
Definition flexible_block (para : Paragraph) : FlexibleBlock :=
  let text := p_text para in
  let numbering_pattern := p_list_number para in
  let inferred_number := p_inferred_number para in
  {| index := p_index para;
     text := text;
     cleaned_content :=
       EnhancedListAnalyzer._clean_content text numbering_pattern
         inferred_number;
     level := None;
     num_fmt :=
       EnhancedListAnalyzer._detect_numbering_format
         (EnhancedListAnalyzer.or_empty
            (py_or numbering_pattern inferred_number));
     list_id := None;
     numbering_pattern := py_or numbering_pattern inferred_number;
     inferred_number := inferred_number;
     is_list_item := truthy_opt (py_or numbering_pattern inferred_number) |}.

Definition _create_flexible_blocks (paragraphs : list Paragraph)
  : list FlexibleBlock :=
  map flexible_block paragraphs.

Definition roman_upper : regex :=
  (Bol >> one_of_words ["I"; "II"; "III"; "IV"; "V"; "VI"; "VII"; "VIII";
                        "IX"; "X"]%string >> One (Lit "."))%re.

Definition roman_lower : regex :=
  (Bol >> one_of_words ["i"; "ii"; "iii"; "iv"; "v"; "vi"; "vii"; "viii";
                        "ix"; "x"]%string >> One (Lit "."))%re.

Definition _extract_base_pattern (numbering : str) : str :=
  if matches false (Bol >> Plus Digit >> One (Lit ".")) numbering
  then py "decimal"
  else if matches false (Bol >> One (Range "A" "Z") >> One (Lit "."))
            numbering
  then py "upper_letter"
  else if matches false (Bol >> One (Range "a" "z") >> One (Lit "."))
            numbering
  then py "lower_letter"
  else if matches false roman_upper numbering then py "upper_roman"
  else if matches false roman_lower numbering then py "lower_roman"
  else py "unknown".

Definition decimal_pattern : regex := (Bol >> Plus Digit >> One (Lit "."))%re.
Definition upper_letter_pattern : regex :=
  (Bol >> One (Range "A" "Z") >> One (Lit "."))%re.
Definition lower_letter_pattern : regex :=
  (Bol >> One (Range "a" "z") >> One (Lit "."))%re.
Definition one_to_three_pattern : regex :=
  (Bol >> one_of_words ["i"; "ii"; "iii"]%string >> One (Lit "."))%re.

(** The pairs (pattern of the previous numbering, pattern of the current
    one) of [_is_sublevel_pattern]. *)
Definition sublevel_patterns : list (regex * regex) :=
  [ (decimal_pattern, Bol >> Plus Digit >> One (Lit ".") >> Plus Digit)
  ; (Bol >> Plus Digit >> One (Lit ".") >> Plus Digit,
     Bol >> Plus Digit >> One (Lit ".") >> Plus Digit >> One (Lit ".")
         >> Plus Digit)
  ; (decimal_pattern, upper_letter_pattern)
  ; (upper_letter_pattern, decimal_pattern)
  ; (decimal_pattern, lower_letter_pattern)
  ; (upper_letter_pattern, lower_letter_pattern)
  ; (upper_letter_pattern, one_to_three_pattern)
  ; (decimal_pattern, one_to_three_pattern)
  ]%re.

Definition _is_sublevel_pattern (current previous : str) : bool :=
  existsb (fun pair =>
             matches false (fst pair) previous
             && matches false (snd pair) current)
    sublevel_patterns.

Definition _is_sibling_pattern (current previous : str) : bool :=
  streq (_extract_base_pattern current) (_extract_base_pattern previous).

Definition _is_parent_pattern (current previous : str) : bool :=
  negb (streq (_extract_base_pattern current)
          (_extract_base_pattern previous)).

Definition _analyze_numbering_relationship (current previous : str) : str :=
  if negb (truthy current) || negb (truthy previous) then py "new_list"
  else if _is_sublevel_pattern current previous then py "sublevel"
  else if _is_sibling_pattern current previous then py "sibling"
  else if _is_parent_pattern current previous then py "parent"
  else py "new_list".

(** The loop of [_infer_level_from_context] over the reversed stack; it
    falls through to [current_level] when no entry decides. *)
Fixpoint infer_from_stack (numbering : str) (reversed : list (str * Z))
         (current_level : Z) : Z :=
  match reversed with
  | [] => current_level
  | (prev_numbering, prev_level) :: rest =>
      let relationship :=
        _analyze_numbering_relationship numbering prev_numbering in
      if streq relationship (py "sublevel") then (prev_level + 1)%Z
      else if streq relationship (py "sibling") then prev_level
      else if streq relationship (py "parent")
      then Z.max 0 (prev_level - 1)
      else if streq relationship (py "new_list") then 0%Z
      else infer_from_stack numbering rest current_level
  end.

Definition _infer_level_from_context (block : FlexibleBlock)
           (context : ListContext) : Z :=
  let numbering := EnhancedListAnalyzer.or_empty (numbering_pattern block) in
  match numbering_stack context with
  | [] => 0%Z
  | _ :: _ =>
      infer_from_stack numbering (rev (numbering_stack context))
        (current_level context)
  end.

Definition set_level (lv : Z) (b : FlexibleBlock) : FlexibleBlock :=
  {| index := index b; text := text b;
     cleaned_content := cleaned_content b; level := Some lv;
     num_fmt := num_fmt b; list_id := list_id b;
     numbering_pattern := numbering_pattern b;
     inferred_number := inferred_number b;
     is_list_item := is_list_item b |}.

Definition empty_context : ListContext :=
  {| current_level := 0; numbering_stack := []; format_stack := [] |}.

(** One turn of the loop of [_assign_levels_contextually]: the context
    after the block, and the block as the loop leaves it. *)
Definition assign_step (context : ListContext) (block : FlexibleBlock)
  : ListContext * FlexibleBlock :=
  if negb (is_list_item block) then (empty_context, block)
  else
    let level := _infer_level_from_context block context in
    let block' := set_level level block in
    match numbering_pattern block with
    | Some numbering =>
        if truthy numbering then
          ({| current_level := level;
              numbering_stack :=
                numbering_stack context ++ [(numbering, level)];
              format_stack :=
                match num_fmt block with
                | Some fmt => format_stack context ++ [fmt]
                | None => format_stack context
                end |}, block')
        else (context, block')
    | None => (context, block')
    end.

Fixpoint assign_from (context : ListContext) (blocks : list FlexibleBlock)
  : list FlexibleBlock :=
  match blocks with
  | [] => []
  | block :: rest =>
      let (context', block') := assign_step context block in
      block' :: assign_from context' rest
  end.

Definition _assign_levels_contextually (blocks : list FlexibleBlock)
  : list FlexibleBlock :=
  assign_from empty_context blocks.

(** The state of the loop of [_group_lists_contextually]. *)
Record ContextGrouping := {
  list_groups : list (list nat);
  current_group : list nat;
  group_level : option Z          (* the local [current_level] *)
}.

Definition contextual_step (st : ContextGrouping) (i : nat)
           (block : FlexibleBlock) : ContextGrouping :=
  let close st :=
    match current_group st with
    | _ :: _ => list_groups st ++ [current_group st]
    | [] => list_groups st
    end in
  match is_list_item block, level block with
  | true, Some lv =>
      if match group_level st with
         | None => true
         | Some current => (Z.abs (lv - current) <=? 1)%Z
         end
      then {| list_groups := list_groups st;
              current_group := current_group st ++ [i];
              group_level := Some lv |}
      else {| list_groups := close st;
              current_group := [i];
              group_level := Some lv |}
  | _, _ =>
      match current_group st with
      | _ :: _ =>
          {| list_groups := list_groups st ++ [current_group st];
             current_group := [];
             group_level := None |}
      | [] => st
      end
  end.

Fixpoint contextual_loop (i : nat) (blocks : list FlexibleBlock)
         (st : ContextGrouping) : ContextGrouping :=
  match blocks with
  | [] => st
  | block :: rest => contextual_loop (S i) rest (contextual_step st i block)
  end.

(** The list groups that [_group_lists_contextually] returns. *)
Definition _group_lists_contextually (blocks : list FlexibleBlock)
  : list (list nat) :=
  let st := contextual_loop 0 blocks
              {| list_groups := []; current_group := [];
                 group_level := None |} in
  match current_group st with
  | _ :: _ => list_groups st ++ [current_group st]
  | [] => list_groups st
  end.

End FlexibleListAnalyzer.

(** ** enhanced_list_analyzer.py: grouping, levels, list identifiers *)

Module EnhancedPipeline.
Import EnhancedListAnalyzer.

(** The state of the loop of [_group_lists]. *)
Record Grouping := {
  list_groups : list (list nat);
  current_group : list nat
}.

Definition group_step (st : Grouping) (i : nat) (block : EnhancedBlock)
  : Grouping :=
  if is_list_item block then
    {| list_groups := list_groups st;
       current_group := current_group st ++ [i] |}
  else
    match current_group st with
    | _ :: _ =>
        {| list_groups := list_groups st ++ [current_group st];
           current_group := [] |}
    | [] => st
    end.

(** [for i, block in enumerate(blocks)], from index [i] on. *)
Fixpoint group_loop (i : nat) (blocks : list EnhancedBlock) (st : Grouping)
  : Grouping :=
  match blocks with
  | [] => st
  | block :: rest => group_loop (S i) rest (group_step st i block)
  end.

Definition _group_lists (blocks : list EnhancedBlock) : list (list nat) :=
  let st := group_loop 0 blocks {| list_groups := []; current_group := [] |} in
  match current_group st with
  | _ :: _ => list_groups st ++ [current_group st]
  | [] => list_groups st
  end.

(** [x or 0] for an optional integer. *)
Definition or_zero (x : option Z) : Z :=
  match x with
  | Some v => if (v =? 0)%Z then 0%Z else v
  | None => 0%Z
  end.

Definition _analyze_group_levels (group_blocks : list EnhancedBlock)
  : list Z :=
  map (fun block =>
         match _infer_level_from_numbering
                 (or_empty (numbering_pattern block)) with
         | Some level => level
         | None => or_zero (level block)
         end)
    group_blocks.

(** [[blocks[i] for i in group]]; an index out of range raises. *)
Definition blocks_of (blocks : list EnhancedBlock) (group : list nat)
  : option (list EnhancedBlock) :=
  mapM (fun i => blocks !! i) group.

(** [for i, level in zip(group, group_levels): level_assignments[i] = level] *)
Definition assign_group (level_assignments : gmap nat Z)
           (group : list nat) (group_levels : list Z) : gmap nat Z :=
  fold_left (fun m p => <[fst p := snd p]> m) (zip group group_levels)
    level_assignments.

Fixpoint assign_groups (blocks : list EnhancedBlock)
         (list_groups : list (list nat)) (level_assignments : gmap nat Z)
  : option (gmap nat Z) :=
  match list_groups with
  | [] => Some level_assignments
  | group :: rest =>
      match blocks_of blocks group with
      | Some group_blocks =>
          assign_groups blocks rest
            (assign_group level_assignments group
               (_analyze_group_levels group_blocks))
      | None => None
      end
  end.

Definition _assign_levels (blocks : list EnhancedBlock)
           (list_groups : list (list nat)) : option (gmap nat Z) :=
  assign_groups blocks list_groups ∅.

Definition set_list_id (list_id : nat) (b : EnhancedBlock) : EnhancedBlock :=
  {| index := index b; text := text b;
     cleaned_content := cleaned_content b; level := level b;
     num_fmt := num_fmt b; list_id := Some list_id;
     parent_list_id := parent_list_id b;
     numbering_pattern := numbering_pattern b;
     inferred_number := inferred_number b;
     is_list_item := is_list_item b;
     is_continuation := is_continuation b;
     continuation_of := continuation_of b;
     indentation_level := indentation_level b;
     context_hints := context_hints b |}.

Definition set_level (lv : Z) (b : EnhancedBlock) : EnhancedBlock :=
  {| index := index b; text := text b;
     cleaned_content := cleaned_content b; level := Some lv;
     num_fmt := num_fmt b; list_id := list_id b;
     parent_list_id := parent_list_id b;
     numbering_pattern := numbering_pattern b;
     inferred_number := inferred_number b;
     is_list_item := is_list_item b;
     is_continuation := is_continuation b;
     continuation_of := continuation_of b;
     indentation_level := indentation_level b;
     context_hints := context_hints b |}.

(** The state of the loop of [_finalize_analysis]. *)
Record Finalizing := {
  list_id_counter : nat;
  current_list_blocks : list nat
}.

Definition finalize_step (level_assignments : gmap nat Z) (st : Finalizing)
           (i : nat) (block : EnhancedBlock) : Finalizing * EnhancedBlock :=
  if is_list_item block then
    let list_id :=
      match current_list_blocks st with
      | [] => S (list_id_counter st)
      | _ :: _ => list_id_counter st
      end in
    let block1 := set_list_id list_id block in
    ({| list_id_counter := list_id;
        current_list_blocks := current_list_blocks st ++ [i] |},
     match level_assignments !! i with
     | Some lv => set_level lv block1
     | None => block1
     end)
  else
    ({| list_id_counter := list_id_counter st; current_list_blocks := [] |},
     block).

Fixpoint finalize_loop (level_assignments : gmap nat Z) (i : nat)
         (st : Finalizing) (blocks : list EnhancedBlock)
  : list EnhancedBlock :=
  match blocks with
  | [] => []
  | block :: rest =>
      let (st', block') := finalize_step level_assignments st i block in
      block' :: finalize_loop level_assignments (S i) st' rest
  end.

(** [_finalize_analysis]; [_assign_parent_list_ids] does nothing. *)
Definition _finalize_analysis (blocks : list EnhancedBlock)
           (level_assignments : gmap nat Z) : list EnhancedBlock :=
  finalize_loop level_assignments 0
    {| list_id_counter := 0; current_list_blocks := [] |} blocks.

(** [analyze_document], from the paragraphs read from the JSON file to the
    final blocks. *)
Definition analyze (paragraphs : list Paragraph)
  : option (list EnhancedBlock) :=
  let enhanced_blocks := _enhance_blocks paragraphs in
  let list_groups := _group_lists enhanced_blocks in
  match _assign_levels enhanced_blocks list_groups with
  | Some level_assignments =>
      Some (_finalize_analysis enhanced_blocks level_assignments)
  | None => None
  end.

End EnhancedPipeline.

(** ** The counts of the two reports *)

Module Reports.
Import HybridDetector.

(** [sum(1 for p in paragraphs if f(p))] *)
Definition count (f : NumberedParagraph -> bool)
           (paragraphs : list NumberedParagraph) : Z :=
  Z.of_nat (length (List.filter f paragraphs)).

(** The four counts of [analyze_document_structure]. *)
Definition numbered_count (paragraphs : list NumberedParagraph) : Z :=
  count (fun p => truthy (list_number p)) paragraphs.

Definition inferred_count (paragraphs : list NumberedParagraph) : Z :=
  count (fun p => truthy_opt (inferred_number p)) paragraphs.

Definition continuation_count (paragraphs : list NumberedParagraph) : Z :=
  count (fun p => negb (truthy (list_number p))
                  && negb (truthy_opt (inferred_number p))
                  && truthy (strip (text p))) paragraphs.

Definition unnumbered_count (paragraphs : list NumberedParagraph) : Z :=
  (Z.of_nat (length paragraphs) - numbered_count paragraphs
   - inferred_count paragraphs - continuation_count paragraphs)%Z.

(** [get_level_distribution] of simple_enhanced_analyzer.py. *)
Definition get_level_distribution
           (blocks : list SimpleEnhancedAnalyzer.EnhancedBlock)
  : gmap Z nat :=
  fold_left
    (fun distribution block =>
       if SimpleEnhancedAnalyzer.is_list_item block then
         match SimpleEnhancedAnalyzer.level block with
         | Some level =>
             <[level := default 0 (distribution !! level) + 1]> distribution
         | None => distribution
         end
       else distribution)
    blocks ∅.

End Reports.

(** * Properties *)

(** ** Characters *)

Ltac ascii_cases c := destruct c as [[|] [|] [|] [|] [|] [|] [|] [|]].

Lemma digit_not_letter c : is_digit c = true -> is_letter c = false.
Proof. ascii_cases c; vm_compute; congruence. Qed.

(** Under [re.IGNORECASE] the classes of the source come down to these. *)
Lemma ic_digit c : class_has true Digit c = is_digit c.
Proof. ascii_cases c; reflexivity. Qed.

Lemma ic_space c : class_has true Space c = is_space c.
Proof. ascii_cases c; reflexivity. Qed.

Lemma ic_upper_range c : class_has true (Range "A" "Z") c = is_letter c.
Proof. ascii_cases c; reflexivity. Qed.

Lemma ic_lower_range c : class_has true (Range "a" "z") c = is_letter c.
Proof. ascii_cases c; reflexivity. Qed.

Lemma ic_roman_letter c :
  class_has true (OneOf (py "ivxlcdm")) c = true -> is_letter c = true.
Proof. ascii_cases c; vm_compute; congruence. Qed.

Lemma ic_period c : class_has true (Lit ".") c = Ascii.eqb c ".".
Proof. ascii_cases c; reflexivity. Qed.

(** ** Strings *)

Lemma drop_while_idem f s : drop_while f (drop_while f s) = drop_while f s.
Proof.
  induction s as [|c t IH]; simpl; [reflexivity|].
  destruct (f c) eqn:E; [exact IH|]. simpl. now rewrite E.
Qed.

Lemma drop_while_all f s : forallb f s = true -> drop_while f s = [].
Proof.
  induction s as [|c t IH]; simpl; [reflexivity|].
  destruct (f c); simpl; [exact IH | discriminate].
Qed.

Lemma drop_while_app_all f a b :
  forallb f a = true -> drop_while f (a ++ b) = drop_while f b.
Proof.
  induction a as [|c t IH]; simpl; [reflexivity|].
  destruct (f c); simpl; [exact IH | discriminate].
Qed.

Lemma drop_while_suffix f s : exists a, s = a ++ drop_while f s.
Proof.
  induction s as [|c t [a IH]]; simpl.
  - now exists [].
  - destruct (f c).
    + exists (c :: a). simpl. now f_equal.
    + now exists [].
Qed.

Lemma lstrip_idem s : lstrip (lstrip s) = lstrip s.
Proof. apply drop_while_idem. Qed.

(** Trimming on the right and on the left commute. *)
Lemma rstrip_lstrip s : rstrip (lstrip s) = lstrip (rstrip s).
Proof.
  unfold rstrip, lstrip. induction s as [|c t IH]; [reflexivity|].
  cbn [drop_while rstrip_with]. destruct (is_space c) eqn:E.
  - rewrite IH. destruct (rstrip_with is_space t); simpl; now rewrite ?E.
  - cbn [rstrip_with]. destruct (rstrip_with is_space t); simpl; now rewrite E.
Qed.

Lemma rstrip_idem s : rstrip (rstrip s) = rstrip s.
Proof.
  unfold rstrip. induction s as [|c t IH]; [reflexivity|].
  cbn [rstrip_with]. destruct (rstrip_with is_space t) as [|x r] eqn:E.
  - destruct (is_space c) eqn:Ec; simpl; now rewrite ?Ec.
  - change (rstrip_with is_space (c :: x :: r))
      with (match rstrip_with is_space (x :: r) with
            | [] => if is_space c then [] else [c]
            | r' => c :: r'
            end).
    now rewrite IH.
Qed.

Lemma strip_idem s : strip (strip s) = strip s.
Proof.
  unfold strip. rewrite rstrip_lstrip, rstrip_idem. apply lstrip_idem.
Qed.

Lemma strip_lstrip s : strip (lstrip s) = strip s.
Proof. unfold strip. now rewrite rstrip_lstrip, lstrip_idem. Qed.

Lemma strip_app_spaces ws s :
  forallb is_space ws = true -> strip (ws ++ s) = strip s.
Proof.
  intros H. rewrite <- (strip_lstrip (ws ++ s)). unfold lstrip.
  rewrite drop_while_app_all by exact H. apply strip_lstrip.
Qed.

(** ** The matcher *)

Section MatcherFacts.
Context {R : Type}.
Implicit Types (f : ascii -> bool) (s : str) (k : str -> option R).

(** When what follows cannot start with a repeated character, the greedy
    repetition never backtracks. *)
Lemma star_greedy_det f s k :
  (forall c t, f c = true -> k (c :: t) = None) ->
  star_greedy f s k = k (drop_while f s).
Proof.
  intros H. induction s as [|c t IH]; simpl; [reflexivity|].
  destruct (f c) eqn:E; [|reflexivity].
  rewrite IH. destruct (k (drop_while f t)); [reflexivity|]. now apply H.
Qed.

(** The longest run is tried first. *)
Lemma star_greedy_last f s k v :
  k (drop_while f s) = Some v -> star_greedy f s k = Some v.
Proof.
  induction s as [|c t IH]; simpl; [easy|].
  destruct (f c); [|easy]. intros H. now rewrite (IH H).
Qed.

(** A continuation that fails on every suffix makes the repetition fail. *)
Lemma star_greedy_none (P : str -> Prop) f s k :
  (forall t, P t -> k t = None) ->
  (forall c t, P (c :: t) -> P t) ->
  P s -> star_greedy f s k = None.
Proof.
  intros Hk Htail. induction s as [|c t IH]; simpl; intros HP.
  - now apply Hk.
  - destruct (f c); [|now apply Hk].
    rewrite IH by (eapply Htail; eassumption). now apply Hk.
Qed.

Lemma drop_while_head f s x t : drop_while f s = x :: t -> f x = false.
Proof.
  induction s as [|c u IH]; simpl; [discriminate|].
  destruct (f c) eqn:E; [exact IH|]. intros [= <- _]. exact E.
Qed.

(** A literal word matches exactly a prefix. *)
Lemma rmatch_word input w s caps (k : str -> list str -> option R) :
  rmatch false input (Word w) s caps k
  = if startswith s w then k (drop (length w) s) caps else None.
Proof.
  revert s. induction w as [|c w IH]; intros s.
  - destruct s; reflexivity.
  - destruct w as [|c' w'].
    + destruct s as [|x s']; [reflexivity|]. cbn.
      destruct (Ascii.eqb x c); reflexivity.
    + destruct s as [|x s']; [reflexivity|].
      change (Word (c :: c' :: w')) with (Seq (One (Lit c)) (Word (c' :: w'))).
      cbn [rmatch class_has class_plain startswith].
      destruct (Ascii.eqb x c); [|reflexivity].
      rewrite IH. reflexivity.
Qed.
End MatcherFacts.

(** ** Substitution by the empty string *)

Lemma sub_scan_skip ic r input s n :
  sub_scan ic r input s n = sub_scan ic r input (drop n s) 0.
Proof.
  revert n. induction s as [|c t IH]; intros [|n]; try reflexivity.
  simpl. apply IH.
Qed.

(** A pattern that starts with [^] matches nowhere but at the start. *)
Lemma sub_scan_anchored r input s :
  length s < length input -> sub_scan false (Seq Bol r) input s 0 = s.
Proof.
  induction s as [|c t IH]; intros Hlt; [reflexivity|].
  cbn [sub_scan rmatch].
  destruct (Nat.eqb_spec (length (c :: t)) (length input)) as [E|_]; [lia|].
  f_equal. apply IH. simpl in Hlt. lia.
Qed.

Lemma re_sub_anchored r text :
  re_sub_empty (Seq Bol r) text
  = match rmatch false text r text []
            (fun t' _ => Some (length text - length t')) with
    | Some (S n) => drop (S n) text
    | _ => text
    end.
Proof.
  unfold re_sub_empty. destruct text as [|c t].
  - simpl. now destruct (rmatch _ _ _ _ _ _) as [[|n]|].
  - cbn [sub_scan rmatch]. rewrite Nat.eqb_refl.
    destruct (rmatch _ _ _ _ _ _) as [[|n]|].
    + f_equal. apply sub_scan_anchored. simpl. lia.
    + rewrite sub_scan_skip. simpl. apply sub_scan_anchored.
      rewrite length_drop. simpl. lia.
    + f_equal. apply sub_scan_anchored. simpl. lia.
Qed.

(** Removing the non-word characters is a filter. *)
Lemma re_sub_not_word s :
  re_sub_empty (One NotWord) s = List.filter is_word s.
Proof.
  unfold re_sub_empty. generalize s at 1 as input.
  induction s as [|c t IH]; intros input; [reflexivity|].
  cbn [sub_scan rmatch class_has class_plain List.filter].
  destruct (is_word c) eqn:E; cbn [negb].
  - f_equal. apply IH.
  - replace (length (c :: t) - length t) with 1 by (simpl; lia). apply IH.
Qed.

(** ** Content cleaning *)

Lemma suffix_drop (a b : str) : drop (length (a ++ b) - length b) (a ++ b) = b.
Proof.
  rewrite length_app. replace (length a + length b - length b) with (length a)
    by lia.
  now rewrite drop_app_length.
Qed.

(** The prefix pattern removes the numbering and the whitespace after it
    when the text starts with the numbering, and nothing otherwise. *)
Lemma re_sub_prefix numbering text :
  re_sub_empty (prefix_pattern numbering) text
  = if startswith text numbering
    then lstrip (drop (length numbering) text)
    else text.
Proof.
  unfold prefix_pattern. rewrite re_sub_anchored.
  cbn [rmatch]. unfold escape. rewrite rmatch_word.
  destruct (startswith text numbering) eqn:Hs; [|reflexivity].
  set (u := drop (length numbering) text).
  set (k := fun t' : str => _).
  assert (Hk : star_greedy (class_has false Space) u k
               = Some (length text - length (lstrip u))).
  { apply star_greedy_last. subst k. cbv beta.
    change (class_has false Space) with is_space.
    fold (lstrip u). destruct (lstrip u) as [|x t0] eqn:E; [reflexivity|].
    assert (Hx : is_space x = false)
      by (eapply drop_while_head; exact E).
    assert (Ht : class_has false (Lit tab) x = false).
    { change (class_has false (Lit tab) x) with (Ascii.eqb x tab).
      destruct (Ascii.eqb x tab) eqn:Et; [|reflexivity].
      apply Ascii.eqb_eq in Et. subst x. vm_compute in Hx. discriminate. }
    rewrite Ht. cbn [star_greedy]. now rewrite Hx. }
  rewrite Hk.
  assert (Hsuf : exists a, text = a ++ lstrip u).
  { destruct (drop_while_suffix is_space u) as [a Ha].
    exists (take (length numbering) text ++ a).
    rewrite <- app_assoc. fold (lstrip u) in Ha. rewrite <- Ha.
    subst u. now rewrite take_drop. }
  destruct Hsuf as [a Ha]. clear Hk Hs. subst k.
  generalize dependent (lstrip u). intros v ->. clear u.
  destruct (length (a ++ v) - length v) as [|n] eqn:En.
  - rewrite length_app in En.
    assert (a = []) by (destruct a; [reflexivity|simpl in En; lia]).
    now subst a.
  - rewrite <- En. apply suffix_drop.
Qed.

Import SimpleEnhancedAnalyzer.

Lemma clean_content_spec text numbering :
  truthy numbering = true ->
  clean_content text (Some numbering)
  = if startswith text numbering
    then strip (drop (length numbering) text)
    else strip text.
Proof.
  intros H. unfold clean_content. rewrite H, re_sub_prefix.
  destruct (startswith text numbering); [apply strip_lstrip|reflexivity].
Qed.

Lemma clean_content_stripped text numbering :
  strip (clean_content text numbering) = clean_content text numbering.
Proof.
  unfold clean_content. destruct numbering as [n|]; [|apply strip_idem].
  destruct (truthy n); apply strip_idem.
Qed.

(** ** The loop of [analyze_enhanced_structure] *)

Definition in_groups (i : nat) (groups : list (list nat)) : Prop :=
  exists g, g ∈ groups /\ i ∈ g.

Definition list_item_at (blocks : list EnhancedBlock) (i : nat) : Prop :=
  exists b, blocks !! i = Some b /\ is_list_item b = true.

Lemma scan_step_blocks st para :
  enhanced_blocks (scan_step st para)
  = enhanced_blocks st
      ++ [enhanced_block (length (enhanced_blocks st)) para].
Proof.
  unfold scan_step.
  destruct (is_list_item _); [reflexivity|].
  destruct (current_group st); reflexivity.
Qed.

Lemma fold_scan_blocks paragraphs st :
  enhanced_blocks (fold_left scan_step paragraphs st)
  = enhanced_blocks st
      ++ imap (fun j => enhanced_block (length (enhanced_blocks st) + j))
           paragraphs.
Proof.
  revert st. induction paragraphs as [|para ps IH]; intros st; simpl.
  - now rewrite app_nil_r.
  - rewrite IH, scan_step_blocks, <- app_assoc. simpl. do 2 f_equal.
    + now rewrite Nat.add_0_r.
    + apply imap_ext. intros j x _. simpl. rewrite length_app. simpl.
      f_equal. lia.
Qed.

(** Block [i] of the scan is the block built for paragraph [i]. *)
Lemma scan_blocks paragraphs :
  enhanced_blocks (scan paragraphs) = imap enhanced_block paragraphs.
Proof. unfold scan. now rewrite fold_scan_blocks. Qed.

(** The groups hold exactly the positions of the list items. *)
Definition groups_ok (st : Scan) : Prop :=
  forall i,
    in_groups i (list_groups st) \/ i ∈ current_group st
    <-> list_item_at (enhanced_blocks st) i.

Lemma in_groups_snoc i groups g :
  in_groups i (groups ++ [g]) <-> in_groups i groups \/ i ∈ g.
Proof.
  unfold in_groups. split.
  - intros (g' & Hg & Hi). apply elem_of_app in Hg as [Hg|Hg].
    + left. eauto.
    + apply list_elem_of_singleton in Hg. subst. now right.
  - intros [(g' & Hg & Hi)|Hi].
    + exists g'. split; [|assumption]. apply elem_of_app. now left.
    + exists g. split; [|assumption]. apply elem_of_app. right.
      now apply list_elem_of_singleton.
Qed.

Lemma list_item_at_snoc blocks b i :
  list_item_at (blocks ++ [b]) i
  <-> list_item_at blocks i \/ (i = length blocks /\ is_list_item b = true).
Proof.
  unfold list_item_at. split.
  - intros (b' & Hl & Hb). apply lookup_app_Some in Hl as [Hl|[Hge Hl]].
    + left. eauto.
    + right. apply list_lookup_singleton_Some in Hl as [Hi ->].
      split; [lia|assumption].
  - intros [(b' & Hl & Hb)|[-> Hb]].
    + exists b'. split; [|assumption]. apply lookup_app_Some. now left.
    + exists b. split; [|assumption]. apply lookup_app_Some. right.
      split; [lia|]. now rewrite Nat.sub_diag.
Qed.

Lemma scan_step_groups st para : groups_ok st -> groups_ok (scan_step st para).
Proof.
  intros Hok i. unfold scan_step.
  destruct (is_list_item (enhanced_block _ para)) eqn:Eb.
  - cbn [enhanced_blocks list_groups current_group].
    rewrite list_item_at_snoc, elem_of_app, list_elem_of_singleton.
    rewrite <- (Hok i). intuition.
  - destruct (current_group st) as [|x g] eqn:Eg;
      cbn [enhanced_blocks list_groups current_group];
      rewrite list_item_at_snoc, <- (Hok i), ?in_groups_snoc, ?Eg;
      rewrite ?elem_of_nil; intuition congruence.
Qed.

Lemma fold_scan_groups paragraphs st :
  groups_ok st -> groups_ok (fold_left scan_step paragraphs st).
Proof.
  revert st. induction paragraphs as [|para ps IH]; intros st H; simpl.
  - exact H.
  - apply IH. now apply scan_step_groups.
Qed.

Lemma scan_groups paragraphs i :
  in_groups i (close_groups (scan paragraphs))
  <-> list_item_at (enhanced_blocks (scan paragraphs)) i.
Proof.
  assert (Hok : groups_ok (scan paragraphs)).
  { apply fold_scan_groups. intros j. unfold in_groups, list_item_at. simpl.
    split.
    - intros [(g & Hg & _)|H]; [now apply elem_of_nil in Hg
                               |now apply elem_of_nil in H].
    - intros (b & Hb & _). now rewrite lookup_nil in Hb. }
  rewrite <- (Hok i). unfold close_groups.
  destruct (current_group (scan paragraphs)) as [|x g] eqn:Eg.
  - rewrite elem_of_nil. intuition.
  - rewrite in_groups_snoc. reflexivity.
Qed.

(** ** In-place updates over the groups *)

(** [same_fields b b']: [b'] is [b] up to its [list_id] and its [level],
    and a level once set stays set. *)
Definition same_fields (b b' : EnhancedBlock) : Prop :=
  index b' = index b /\ text b' = text b
  /\ cleaned_content b' = cleaned_content b /\ num_fmt b' = num_fmt b
  /\ numbering_pattern b' = numbering_pattern b
  /\ is_list_item b' = is_list_item b
  /\ is_continuation b' = is_continuation b
  /\ (level b <> None -> level b' <> None).

Lemma same_fields_refl b : same_fields b b.
Proof. unfold same_fields. intuition. Qed.

Lemma same_fields_trans b1 b2 b3 :
  same_fields b1 b2 -> same_fields b2 b3 -> same_fields b1 b3.
Proof. unfold same_fields. intuition congruence. Qed.

Definition pointwise (Rel : EnhancedBlock -> EnhancedBlock -> Prop)
           (blocks blocks' : list EnhancedBlock) : Prop :=
  length blocks' = length blocks
  /\ forall j b, blocks !! j = Some b ->
                 exists b', blocks' !! j = Some b' /\ Rel b b'.

Section ForEach.
Variable f : EnhancedBlock -> option EnhancedBlock.
Variable D T : EnhancedBlock -> Prop.
Variable Rel : EnhancedBlock -> EnhancedBlock -> Prop.
Hypothesis f_total : forall b, D b -> exists b', f b = Some b'.
Hypothesis f_rel : forall b b', f b = Some b' -> Rel b b'.
Hypothesis f_T : forall b b', f b = Some b' -> T b'.
Hypothesis Rel_refl : forall b, Rel b b.
Hypothesis Rel_trans : forall b1 b2 b3, Rel b1 b2 -> Rel b2 b3 -> Rel b1 b3.
Hypothesis D_rel : forall b b', Rel b b' -> D b -> D b'.

Lemma pointwise_refl blocks : pointwise Rel blocks blocks.
Proof. split; [reflexivity|]. intros j b Hb. eauto. Qed.

Lemma pointwise_trans l1 l2 l3 :
  pointwise Rel l1 l2 -> pointwise Rel l2 l3 -> pointwise Rel l1 l3.
Proof.
  intros [Hl1 H1] [Hl2 H2]. split; [congruence|].
  intros j b Hb. destruct (H1 j b Hb) as (b2 & Hb2 & R12).
  destruct (H2 j b2 Hb2) as (b3 & Hb3 & R23). eauto.
Qed.

Lemma pointwise_insert blocks i b b' :
  blocks !! i = Some b -> Rel b b' ->
  pointwise Rel blocks (<[i := b']> blocks).
Proof.
  intros Hi HR. split; [apply length_insert|].
  intros j bj Hj. destruct (decide (i = j)) as [->|Hne].
  - rewrite list_lookup_insert_eq by (eapply lookup_lt_Some; eassumption).
    exists b'. split; [reflexivity|congruence].
  - rewrite list_lookup_insert_ne by assumption. eauto.
Qed.

(** One group: the loop never raises, touches the blocks of the group
    only, and leaves every block related to what it was. *)
Lemma for_each_ok group blocks :
  (forall i, i ∈ group -> exists b, blocks !! i = Some b /\ D b) ->
  exists blocks',
    for_each f group blocks = Some blocks'
    /\ pointwise Rel blocks blocks'
    /\ (forall i, i ∈ group -> exists b', blocks' !! i = Some b' /\ T b')
    /\ (forall i, i ∉ group -> blocks' !! i = blocks !! i).
Proof.
  revert blocks. induction group as [|i rest IH]; intros blocks Hin.
  - exists blocks. split; [reflexivity|]. split; [apply pointwise_refl|].
    split; [|reflexivity]. intros i Hi. now apply elem_of_nil in Hi.
  - destruct (Hin i) as (b & Hb & HD); [left|].
    destruct (f_total b HD) as (b1 & Hf).
    cbn [for_each]. unfold update_block. rewrite Hb, Hf.
    assert (Hp : pointwise Rel blocks (<[i := b1]> blocks))
      by (eapply pointwise_insert; eauto).
    destruct (IH (<[i := b1]> blocks)) as (blocks' & Hfe & Hp' & HT & Hout).
    { intros j Hj. destruct (Hin j) as (bj & Hbj & HDj); [now right|].
      destruct Hp as [_ Hp]. destruct (Hp j bj Hbj) as (bj' & Hbj' & HR).
      eauto. }
    exists blocks'. split; [exact Hfe|].
    split; [eapply pointwise_trans; eassumption|]. split.
    + intros j Hj. destruct (decide (j ∈ rest)) as [Hr|Hr]; [now apply HT|].
      apply elem_of_cons in Hj as [->|Hj]; [|contradiction].
      rewrite (Hout i Hr).
      rewrite list_lookup_insert_eq by (eapply lookup_lt_Some; eassumption).
      eauto.
    + intros j Hj. apply not_elem_of_cons in Hj as [Hne Hr].
      rewrite (Hout j Hr). now apply list_lookup_insert_ne.
Qed.
End ForEach.

Lemma set_list_id_same gid b : same_fields b (set_list_id gid b).
Proof. unfold same_fields. simpl. intuition. Qed.

Lemma assign_level_same b b' : assign_level b = Some b' -> same_fields b b'.
Proof.
  unfold assign_level. destruct (numbering_pattern b); [|discriminate].
  destruct (first_level _ _ _).
  - intros [= <-]. unfold same_fields. simpl. intuition discriminate.
  - destruct (level b) eqn:E; intros [= <-].
    + apply same_fields_refl.
    + unfold same_fields. simpl. intuition.
Qed.

Lemma assign_level_sets b b' : assign_level b = Some b' -> level b' <> None.
Proof.
  unfold assign_level. destruct (numbering_pattern b); [|discriminate].
  destruct (first_level _ _ _).
  - now intros [= <-].
  - destruct (level b) eqn:E; intros [= <-]; [congruence|easy].
Qed.

Lemma assign_level_total b :
  numbering_pattern b <> None -> exists b', assign_level b = Some b'.
Proof.
  unfold assign_level. destruct (numbering_pattern b); [|easy]. intros _.
  destruct (first_level _ _ _); [eauto|]. destruct (level b); eauto.
Qed.

(** The list identifiers: never an exception, and only [list_id] changes. *)
Lemma assign_list_ids_ok groups : forall gid blocks,
  (forall i, in_groups i groups -> exists b, blocks !! i = Some b) ->
  exists blocks',
    assign_list_ids gid groups blocks = Some blocks'
    /\ pointwise (fun b b' => same_fields b b' /\ level b' = level b)
         blocks blocks'.
Proof.
  set (Rel := fun b b' => same_fields b b' /\ level b' = level b).
  assert (Rrefl : forall b, Rel b b)
    by (intros b; split; [apply same_fields_refl|reflexivity]).
  assert (Rtrans : forall b1 b2 b3, Rel b1 b2 -> Rel b2 b3 -> Rel b1 b3).
  { intros b1 b2 b3 [S1 L1] [S2 L2].
    split; [eapply same_fields_trans; eassumption|congruence]. }
  induction groups as [|g rest IH]; intros gid blocks Hin.
  - exists blocks. split; [reflexivity|]. now apply pointwise_refl.
  - cbn [assign_list_ids].
    destruct (for_each_ok (fun b => Some (set_list_id gid b))
                (fun _ => True) (fun _ => True) Rel)
      with (group := g) (blocks := blocks)
      as (blocks1 & Hfe & Hp & _ & _); eauto.
    { intros b b' [= <-]. split; [apply set_list_id_same|reflexivity]. }
    { intros i Hi. destruct (Hin i) as (b & Hb).
      - exists g. split; [left|assumption].
      - eauto. }
    rewrite Hfe.
    destruct (IH (S gid) blocks1) as (blocks' & Ha & Hp').
    { intros i (g' & Hg' & Hi). destruct (Hin i) as (b & Hb).
      - exists g'. split; [now right|assumption].
      - destruct Hp as [_ Hp]. destruct (Hp i b Hb) as (b' & Hb' & _). eauto. }
    exists blocks'. split; [exact Ha|].
    eapply pointwise_trans; eauto.
Qed.

(** The levels: never an exception when the grouped blocks have a numbering
    string; the grouped blocks end with a level, the others are untouched. *)
Lemma assign_levels_ok groups : forall blocks,
  (forall i, in_groups i groups ->
             exists b, blocks !! i = Some b /\ numbering_pattern b <> None) ->
  exists blocks',
    assign_levels groups blocks = Some blocks'
    /\ pointwise same_fields blocks blocks'
    /\ (forall i, in_groups i groups ->
                  exists b', blocks' !! i = Some b' /\ level b' <> None)
    /\ (forall i, ~ in_groups i groups -> blocks' !! i = blocks !! i).
Proof.
  induction groups as [|g rest IH]; intros blocks Hin.
  - exists blocks. split; [reflexivity|].
    split; [apply pointwise_refl, same_fields_refl|].
    split; [|reflexivity].
    intros i (g & Hg & _). now apply elem_of_nil in Hg.
  - cbn [assign_levels].
    assert (HD : forall b b', same_fields b b' ->
                   numbering_pattern b <> None -> numbering_pattern b' <> None).
    { intros b b' HS Hn. destruct HS as (_ & _ & _ & _ & -> & _). exact Hn. }
    assert (Hg : forall i, i ∈ g ->
                   exists b, blocks !! i = Some b
                             /\ numbering_pattern b <> None).
    { intros i Hi. apply Hin. exists g. split; [left|assumption]. }
    destruct (for_each_ok assign_level _ _ same_fields
                assign_level_total assign_level_same assign_level_sets
                same_fields_refl same_fields_trans HD g blocks Hg)
      as (blocks1 & Hfe & Hp & HT & Hout).
    rewrite Hfe.
    destruct (IH blocks1) as (blocks' & Ha & Hp' & HT' & Hout').
    { intros i (g' & Hg' & Hi). destruct (Hin i) as (b & Hb & Hn).
      - exists g'. split; [now right|assumption].
      - destruct Hp as [_ Hp]. destruct (Hp i b Hb) as (b' & Hb' & HS).
        exists b'. split; [assumption|].
        destruct HS as (_ & _ & _ & _ & -> & _). exact Hn. }
    exists blocks'. split; [exact Ha|].
    split; [eapply pointwise_trans; eauto using same_fields_trans|]. split.
    + intros i (g' & Hg' & Hi).
      apply elem_of_cons in Hg' as [->|Hg'].
      * destruct (HT i Hi) as (b1 & Hb1 & HL).
        destruct Hp' as [_ Hp']. destruct (Hp' i b1 Hb1) as (b' & Hb' & HS).
        exists b'. split; [assumption|]. now apply HS.
      * apply HT'. exists g'. split; assumption.
    + intros i Hni. rewrite Hout'.
      * apply Hout. intros Hi. apply Hni. exists g. split; [left|assumption].
      * intros (g' & Hg' & Hi). apply Hni. exists g'.
        split; [now right|assumption].
Qed.

(** ** The analysis as a whole *)

Lemma list_item_numbered i para :
  is_list_item (enhanced_block i para) = true ->
  numbering_pattern (enhanced_block i para) <> None.
Proof.
  cbn [enhanced_block is_list_item numbering_pattern].
  destruct (py_or _ _); [easy|discriminate].
Qed.

(** [analyze_enhanced_structure] raises nothing and gives one block for each
    paragraph, in order: the block built from the paragraph, with a level
    set when it is a list item and with the level of the paragraph when it
    is not. *)
Lemma analyze_blocks paragraphs :
  exists blocks,
    analyze_enhanced_structure paragraphs = Some blocks
    /\ length blocks = length paragraphs
    /\ forall i para, paragraphs !! i = Some para ->
         exists b, blocks !! i = Some b
           /\ same_fields (enhanced_block i para) b
           /\ (is_list_item b = true -> level b <> None)
           /\ (is_list_item b = false -> level b = p_level para).
Proof.
  unfold analyze_enhanced_structure.
  pose proof (scan_blocks paragraphs) as Hbs.
  pose proof (scan_groups paragraphs) as Hgr.
  set (groups := close_groups (scan paragraphs)) in *.
  set (bs0 := enhanced_blocks (scan paragraphs)) in *.
  assert (H0 : forall i para, paragraphs !! i = Some para ->
                 bs0 !! i = Some (enhanced_block i para)).
  { intros i para Hp. rewrite Hbs, list_lookup_imap, Hp. reflexivity. }
  destruct (assign_list_ids_ok groups 1 bs0) as (bs1 & Hids & [Hlen1 Hp1]).
  { intros i Hi. apply Hgr in Hi as (b & Hb & _). eauto. }
  rewrite Hids.
  destruct (assign_levels_ok groups bs1) as (bs2 & Hlv & [Hlen2 Hp2] & HT & Hout).
  { intros i Hi. apply Hgr in Hi as (b & Hb & Hli).
    destruct (Hp1 i b Hb) as (b1 & Hb1 & HS & _).
    exists b1. split; [assumption|].
    destruct HS as (_ & _ & _ & _ & -> & _).
    rewrite Hbs, list_lookup_imap in Hb.
    destruct (paragraphs !! i) as [para|]; [|discriminate].
    injection Hb as <-. now apply list_item_numbered. }
  exists bs2. split; [exact Hlv|]. split.
  { rewrite Hlen2, Hlen1, Hbs. apply length_imap. }
  intros i para Hpara. pose proof (H0 i para Hpara) as Hb0.
  destruct (Hp1 i _ Hb0) as (b1 & Hb1 & HS1 & HL1).
  destruct (Hp2 i _ Hb1) as (b2 & Hb2 & HS2).
  pose proof (same_fields_trans _ _ _ HS1 HS2) as HS.
  exists b2. split; [assumption|]. split; [assumption|].
  assert (Hli : is_list_item b2 = is_list_item (enhanced_block i para))
    by apply HS.
  split.
  - intros Ht. destruct (HT i) as (b' & Hb' & Hl).
    + apply Hgr. exists (enhanced_block i para). split; congruence.
    + congruence.
  - intros Hf. rewrite Hout in Hb2.
    + assert (b2 = b1) by congruence. subst b2. rewrite HL1. reflexivity.
    + intros Hi. apply Hgr in Hi as (b & Hb & Hbt). congruence.
Qed.

Lemma rstrip_tail c t : rstrip (c :: t) = c :: t -> rstrip t = t.
Proof.
  unfold rstrip. cbn [rstrip_with].
  destruct (rstrip_with is_space t) as [|x r].
  - destruct (is_space c); [discriminate|]. now intros [= <-].
  - now intros [= <-].
Qed.

(** What is left of a right-trimmed string after dropping a prefix is
    right-trimmed. *)
Lemma rstrip_drop n s : rstrip s = s -> rstrip (drop n s) = drop n s.
Proof.
  revert s. induction n as [|n IH]; intros s H; [exact H|].
  destruct s as [|c t]; [reflexivity|]. simpl. apply IH.
  eapply rstrip_tail. exact H.
Qed.

Lemma rstrip_strip s : rstrip (strip s) = strip s.
Proof. unfold strip. now rewrite rstrip_lstrip, rstrip_idem. Qed.

Lemma clean_content_from_numbering_stripped text numbering :
  truthy numbering = true ->
  strip (clean_content_from_numbering text numbering)
  = clean_content_from_numbering text numbering.
Proof.
  intros Hn. unfold clean_content_from_numbering. rewrite Hn.
  destruct text as [|c t]; [reflexivity|]. cbn [truthy negb orb].
  destruct (startswith _ _); [|apply strip_idem].
  set (u := drop (length numbering) (strip (c :: t))).
  assert (Hu : rstrip u = u) by apply rstrip_drop, rstrip_strip.
  unfold strip. rewrite <- rstrip_lstrip, lstrip_idem, rstrip_lstrip, Hu.
  reflexivity.
Qed.

Lemma _clean_content_stripped text numbering_pattern inferred_number :
  strip (EnhancedListAnalyzer._clean_content text numbering_pattern
           inferred_number)
  = EnhancedListAnalyzer._clean_content text numbering_pattern inferred_number.
Proof.
  unfold EnhancedListAnalyzer._clean_content.
  destruct (truthy numbering_pattern); [apply strip_idem|].
  destruct inferred_number as [n|]; [|apply strip_idem].
  destruct (truthy n); apply strip_idem.
Qed.

Lemma deduce_blank text :
  strip text = [] -> deduce_numbering_from_text text = None.
Proof.
  intros H. unfold deduce_numbering_from_text. rewrite H.
  now rewrite orb_true_r.
Qed.

(** ** The model on the inputs of the specification *)

Definition word (t l : string) (lv : option Z) : WordParagraph :=
  {| Range_Text := py t; ListString := py l; ListLevelNumber := lv |}.

Definition analysis (doc : list WordParagraph) : option (list EnhancedBlock) :=
  analyze_enhanced_structure (sample_paragraphs (extract_numbered_paragraphs doc)).

Definition summary (b : EnhancedBlock) :=
  (numbering_pattern b, level b, cleaned_content b, is_list_item b).

Example analysis_letter :
  option_map (map summary) (analysis [word "A. Site preparation" "" None])
  = Some [(Some (py "A."), Some 0%Z, py "Site preparation", true)].
Proof. reflexivity. Qed.

Example analysis_no_prefix :
  option_map (map summary) (analysis [word "No prefix here" "" None])
  = Some [(None, None, py "No prefix here", false)].
Proof. reflexivity. Qed.

Example analysis_explicit :
  option_map (map summary) (analysis [word "Some text" "1.02" None])
  = Some [(Some (py "1.02"), Some 0%Z, py "Some text", true)].
Proof. reflexivity. Qed.

(** The level patterns end in [\s]: they match a token that is followed by
    whitespace and no bare token. *)
Example level_pattern_bare_token :
  EnhancedListAnalyzer._infer_level_from_numbering (py "1.01") = None
  /\ EnhancedListAnalyzer._infer_level_from_numbering (py "1.01 ")
     = Some 1%Z.
Proof. split; reflexivity. Qed.

Example enhance_blocks_level :
  map (fun b => (EnhancedListAnalyzer.numbering_pattern b,
                 EnhancedListAnalyzer.level b))
    (EnhancedListAnalyzer._enhance_blocks
       (sample_paragraphs
          (extract_numbered_paragraphs [word "Intro" "" (Some 2%Z)])))
  = [(None, Some 2%Z)].
Proof. reflexivity. Qed.

Example consolidate_explicit :
  map (fun cb => (numbering cb, numbering_type cb))
    (consolidate_content_blocks
       (extract_numbered_paragraphs
          [word "Some text" "1.02" None; word "more" "" None;
           word "1. Next" "" None]))
  = [(Some (py "1.02"), py "true"); (Some (py "1."), py "inferred")].
Proof. reflexivity. Qed.

(** * The claims *)

(** A block keeps the fields of the block built from its paragraph. *)
Lemma analyzed_block paragraphs blocks i para b :
  analyze_enhanced_structure paragraphs = Some blocks ->
  paragraphs !! i = Some para -> blocks !! i = Some b ->
  same_fields (enhanced_block i para) b
  /\ (is_list_item b = true -> level b <> None)
  /\ (is_list_item b = false -> level b = p_level para).
Proof.
  intros Ha Hp Hb. destruct (analyze_blocks paragraphs) as (bs & Ha' & _ & H).
  assert (bs = blocks) by congruence. subst bs.
  destruct (H i para Hp) as (b' & Hb' & HS & HT & HF).
  assert (b' = b) by congruence. subst b'. auto.
Qed.

Definition intro_paragraph : Paragraph :=
  {| p_index := 0; p_list_number := []; p_inferred_number := None;
     p_text := py "Intro"; p_combined := py "Intro";
     p_level := Some 2%Z; p_deduction_method := None |}.

Definition intro_block : EnhancedBlock :=
  {| index := 0; text := py "Intro"; cleaned_content := py "Intro";
     level := Some 2%Z; num_fmt := None; list_id := None;
     numbering_pattern := None; is_list_item := false;
     is_continuation := false |}.

(** C1, as stated, fails: a paragraph that carries a level and no numbering
    string comes out with its level and without a numbering token. *)
Lemma C1_level_without_token :
  analyze_enhanced_structure [intro_paragraph] = Some [intro_block]
  /\ level intro_block = Some 2%Z
  /\ numbering_pattern intro_block = None.
Proof. repeat split. Qed.

(** C1, amended: in every block of the analysis a numbering token comes with
    a level (the list items always get one), and a block without a
    numbering token has the level of its paragraph, unchanged. *)
Theorem C1_token_gives_level paragraphs blocks i para b :
  analyze_enhanced_structure paragraphs = Some blocks ->
  paragraphs !! i = Some para -> blocks !! i = Some b ->
  (truthy_opt (numbering_pattern b) = true -> level b <> None)
  /\ (truthy_opt (numbering_pattern b) = false -> level b = p_level para).
Proof.
  intros Ha Hp Hb.
  destruct (analyzed_block _ _ _ _ _ Ha Hp Hb) as (HS & HT & HF).
  destruct HS as (_ & _ & _ & _ & Hn & Hli & _).
  cbn [enhanced_block numbering_pattern is_list_item] in Hn, Hli.
  rewrite Hn, <- Hli. auto.
Qed.

Lemma C1_token_gives_level_witness :
  (truthy_opt (numbering_pattern intro_block) = true ->
   level intro_block <> None)
  /\ (truthy_opt (numbering_pattern intro_block) = false ->
      level intro_block = p_level intro_paragraph).
Proof.
  exact (C1_token_gives_level [intro_paragraph] [intro_block] 0
           intro_paragraph intro_block eq_refl eq_refl eq_refl).
Defined.

(** C3: when the list number of a paragraph is present, the analysis takes
    it as the numbering token whatever the inferred number is; the detector
    infers nothing for such a paragraph; and the content block started by it
    is labelled "true", the explicit source. *)
Theorem C3_explicit_precedence paragraphs blocks i para b idx word st :
  analyze_enhanced_structure paragraphs = Some blocks ->
  paragraphs !! i = Some para -> blocks !! i = Some b ->
  truthy (p_list_number para) = true ->
  truthy (ListString word) = true ->
  numbering_pattern b = Some (p_list_number para)
  /\ list_number (numbered_paragraph idx word) = ListString word
  /\ inferred_number (numbered_paragraph idx word) = None
  /\ (truthy (strip (HybridDetector.text (numbered_paragraph idx word))) = true ->
      exists cb,
        current_block (consolidate_step st (numbered_paragraph idx word))
        = Some cb
        /\ numbering cb = Some (ListString word)
        /\ numbering_type cb = py "true").
Proof.
  intros Ha Hp Hb Hl Hw.
  destruct (analyzed_block _ _ _ _ _ Ha Hp Hb) as (HS & _).
  destruct HS as (_ & _ & _ & _ & Hn & _).
  cbn [enhanced_block numbering_pattern] in Hn.
  unfold py_or in Hn. rewrite Hl in Hn. split; [exact Hn|].
  assert (E : numbered_paragraph idx word
              = {| HybridDetector.index := idx;
                   list_number := ListString word;
                   HybridDetector.text := rstrip_marks (Range_Text word);
                   combined := ListString word ++ [tab]
                                 ++ rstrip_marks (Range_Text word);
                   HybridDetector.level := ListLevelNumber word;
                   inferred_number := None; deduction_method := None;
                   HybridDetector.cleaned_content := None |}).
  { unfold numbered_paragraph. rewrite Hw. reflexivity. }
  rewrite E. cbn [list_number inferred_number HybridDetector.text].
  repeat split. intros Ht. unfold consolidate_step.
  cbn [list_number inferred_number HybridDetector.text HybridDetector.level].
  rewrite Ht. unfold py_or. rewrite Hw. cbn [negb truthy_opt]. rewrite Hw.
  eexists. repeat split.
Qed.

Definition explicit_paragraph : Paragraph :=
  {| p_index := 0; p_list_number := py "1.01";
     p_inferred_number := Some (py "2.");
     p_text := py "2. Foo"; p_combined := py "1.01 2. Foo";
     p_level := Some 2%Z; p_deduction_method := None |}.

Definition explicit_block : EnhancedBlock :=
  {| index := 0; text := py "2. Foo"; cleaned_content := py "2. Foo";
     level := Some 2%Z; num_fmt := Some (py "decimal"); list_id := Some 1;
     numbering_pattern := Some (py "1.01"); is_list_item := true;
     is_continuation := false |}.

Definition explicit_word : WordParagraph :=
  {| Range_Text := py "2. Foo"; ListString := py "1.01";
     ListLevelNumber := Some 2%Z |}.

Lemma C3_explicit_precedence_witness :
  numbering_pattern explicit_block = Some (py "1.01")
  /\ deduce_numbering_from_text (py "2. Foo") = Some (py "2.")
  /\ inferred_number (numbered_paragraph 0 explicit_word) = None.
Proof.
  pose proof (C3_explicit_precedence [explicit_paragraph] [explicit_block] 0
                explicit_paragraph explicit_block 0 explicit_word
                {| content_blocks := []; current_block := None;
                   continuation_texts := [] |}
                eq_refl eq_refl eq_refl eq_refl eq_refl) as (H1 & _ & H3 & _).
  split; [exact H1|]. split; [reflexivity|exact H3].
Defined.






(** A level found in one of the six-entry tables. *)
Definition table_level (l : option Z) : Prop :=
  l = None \/ exists n, l = Some n /\ (0 <= n <= 5)%Z.

Lemma first_level_in_table numbering :
  table_level (first_level false level_patterns numbering).
Proof.
  unfold level_patterns, first_level, table_level.
  repeat match goal with
         | |- context [if ?c then _ else _] => destruct c
         end; eauto; right; eexists; (split; [reflexivity|lia]).
Qed.

(** C9: each function that infers a level from the form of a token gives a
    level from 0 to 5 or none; the level that [assign_levels] gives to a
    block is such a level, or the level the block had. *)
Theorem C9_levels_in_range numbering :
  table_level
    (ComprehensiveNumberingAnalyzer.determine_level_from_numbering numbering)
  /\ table_level (DirectTextMatcher.determine_level numbering)
  /\ table_level (EnhancedListAnalyzer._infer_level_from_numbering numbering)
  /\ forall b b', assign_level b = Some b' ->
                  level b' = level b \/ table_level (level b').
Proof.
  split; [|split; [|split]].
  - unfold ComprehensiveNumberingAnalyzer.determine_level_from_numbering,
      table_level.
    repeat match goal with
           | |- context [if ?c then _ else _] => destruct c
           end; eauto; right; eexists; (split; [reflexivity|lia]).
  - unfold DirectTextMatcher.determine_level, table_level.
    repeat match goal with
           | |- context [if ?c then _ else _] => destruct c
           end; eauto; right; eexists; (split; [reflexivity|lia]).
  - apply first_level_in_table.
  - intros b b'. unfold assign_level.
    destruct (numbering_pattern b) as [n|]; [|discriminate].
    pose proof (first_level_in_table n) as Hn.
    destruct (first_level false level_patterns n) as [lv|].
    + intros [= <-]. now right.
    + destruct (level b) eqn:E; intros [= <-].
      * now left.
      * right. right. exists 0%Z. split; [reflexivity|lia].
Qed.

(** C10: the cleaned content has no whitespace at either end, whichever the
    branch of the cleaning function, in every block of the analysis. *)
Theorem C10_cleaned_content_trimmed :
  (forall text numbering,
     strip (clean_content text numbering) = clean_content text numbering)
  /\ (forall text numbering_pattern inferred_number,
        strip (EnhancedListAnalyzer._clean_content text numbering_pattern
                 inferred_number)
        = EnhancedListAnalyzer._clean_content text numbering_pattern
            inferred_number)
  /\ (forall text numbering, truthy numbering = true ->
        strip (clean_content_from_numbering text numbering)
        = clean_content_from_numbering text numbering)
  /\ (forall paragraphs blocks i b,
        analyze_enhanced_structure paragraphs = Some blocks ->
        blocks !! i = Some b ->
        strip (cleaned_content b) = cleaned_content b).
Proof.
  split; [exact clean_content_stripped|].
  split; [exact _clean_content_stripped|].
  split; [exact clean_content_from_numbering_stripped|].
  intros paragraphs blocks i b Ha Hb.
  destruct (analyze_blocks paragraphs) as (bs & Ha' & Hlen & H).
  assert (bs = blocks) by congruence. subst bs.
  destruct (paragraphs !! i) as [para|] eqn:Hp.
  - destruct (H i para Hp) as (b' & Hb' & HS & _).
    assert (b' = b) by congruence. subst b'.
    destruct HS as (_ & _ & -> & _). apply clean_content_stripped.
  - apply lookup_ge_None in Hp. apply lookup_lt_Some in Hb. lia.
Qed.

(** ** Level tables on tokens *)

Definition all_of (f : ascii -> bool) (s : str) : bool :=
  truthy s && forallb f s.

Lemma digit_not_period c : is_digit c = true -> Ascii.eqb c "." = false.
Proof. ascii_cases c; vm_compute; congruence. Qed.

Lemma digit_not_newline c : is_digit c = true -> Ascii.eqb c newline = false.
Proof. ascii_cases c; vm_compute; congruence. Qed.

Lemma upper_not_digit c : is_upper c = true -> is_digit c = false.
Proof. ascii_cases c; vm_compute; congruence. Qed.

Lemma lower_not_digit c : is_lower c = true -> is_digit c = false.
Proof. ascii_cases c; vm_compute; congruence. Qed.

Lemma lower_not_upper c : is_lower c = true -> is_upper c = false.
Proof. ascii_cases c; vm_compute; congruence. Qed.

Definition is_roman (c : ascii) : bool :=
  class_has true (OneOf (py "ivxlcdm")) c.

Lemma roman_not_digit c : is_roman c = true -> is_digit c = false.
Proof. ascii_cases c; vm_compute; congruence. Qed.

Lemma roman_not_period c : is_roman c = true -> Ascii.eqb c "." = false.
Proof. ascii_cases c; vm_compute; congruence. Qed.

Lemma roman_not_ic_period c :
  is_roman c = true -> class_has true (Lit ".") c = false.
Proof. ascii_cases c; vm_compute; congruence. Qed.

Lemma all_of_cons f s :
  all_of f s = true -> exists c t, s = c :: t /\ f c = true /\ forallb f t = true.
Proof.
  unfold all_of. destruct s as [|c t]; [discriminate|]. simpl.
  intros H. apply andb_true_iff in H as [? ?]. eauto.
Qed.

(** A run of repeated characters followed by something else is consumed
    whole when what follows the repetition cannot start with one of them. *)
Lemma rmatch_plus_run {R} ic input K N rest caps
      (k : str -> list str -> option R) :
  all_of (class_has ic K) N = true ->
  (forall c t, class_has ic K c = true -> k (c :: t) caps = None) ->
  drop_while (class_has ic K) rest = rest ->
  rmatch ic input (Plus K) (N ++ rest) caps k = k rest caps.
Proof.
  intros HN Hk Hrest. apply all_of_cons in HN as (c & t & -> & Hc & Ht).
  cbn [rmatch app]. rewrite Hc.
  rewrite star_greedy_det by (intros; now apply Hk).
  now rewrite drop_while_app_all, Hrest.
Qed.

Lemma rmatch_plus_fail {R} ic input K c t caps
      (k : str -> list str -> option R) :
  class_has ic K c = false -> rmatch ic input (Plus K) (c :: t) caps k = None.
Proof. intros H. cbn [rmatch]. now rewrite H. Qed.

Import ComprehensiveNumberingAnalyzer.

Lemma rmatch_seq {R} ic input r1 r2 s caps (k : str -> list str -> option R) :
  rmatch ic input (Seq r1 r2) s caps k
  = rmatch ic input r1 s caps (fun t caps' => rmatch ic input r2 t caps' k).
Proof. reflexivity. Qed.

Lemma rmatch_bol {R} ic s caps (k : str -> list str -> option R) :
  rmatch ic s Bol s caps k = k s caps.
Proof. cbn [rmatch]. now rewrite Nat.eqb_refl. Qed.

Lemma matches_anchored ic r s :
  matches ic (Bol >> r) s = found (rmatch ic s r s [] accept).
Proof. unfold matches, re_match. now rewrite rmatch_seq, rmatch_bol. Qed.

(** A pattern [^\d+ r] on digits followed by something else. *)
Lemma matches_digits N rest r :
  all_of is_digit N = true ->
  drop_while is_digit rest = rest ->
  (forall c t, is_digit c = true ->
               rmatch false (N ++ rest) r (c :: t) [] accept = None) ->
  matches false (Bol >> Plus Digit >> r) (N ++ rest)
  = found (rmatch false (N ++ rest) r rest [] accept).
Proof.
  intros HN Hrest Hk. rewrite matches_anchored, rmatch_seq.
  now rewrite rmatch_plus_run.
Qed.

Lemma matches_not_digit c t r :
  is_digit c = false -> matches false (Bol >> Plus Digit >> r) (c :: t) = false.
Proof.
  intros H. rewrite matches_anchored, rmatch_seq.
  now rewrite rmatch_plus_fail.
Qed.

Lemma level_major N :
  all_of is_digit N = true ->
  determine_level_from_numbering (N ++ py ".0") = Some 0%Z.
Proof.
  intros HN. unfold determine_level_from_numbering.
  rewrite matches_digits; [reflexivity|exact HN|reflexivity|].
  intros c t Hc. cbn. now rewrite (digit_not_period c Hc).
Qed.

Lemma eol_after_digit input c t caps :
  is_digit c = true -> rmatch false input Eol (c :: t) caps accept = None.
Proof.
  intros Hc. cbn [rmatch]. destruct t; [|reflexivity].
  now rewrite (digit_not_newline c Hc).
Qed.

(** [\d+$] on a run of digits. *)
Lemma digits_to_end input M caps :
  all_of is_digit M = true ->
  rmatch false input (Plus Digit >> Eol) M caps accept = accept [] caps.
Proof.
  intros HM. rewrite rmatch_seq.
  rewrite <- (app_nil_r M) at 1.
  rewrite rmatch_plus_run; [reflexivity|exact HM| |reflexivity].
  intros c t Hc. now apply eol_after_digit.
Qed.

Lemma rmatch_one {R} ic input K c t caps (k : str -> list str -> option R) :
  rmatch ic input (One K) (c :: t) caps k
  = if class_has ic K c then k t caps else None.
Proof. reflexivity. Qed.

Lemma after_period {R} input r M caps (k : str -> list str -> option R) :
  rmatch false input (One (Lit ".") >> r) (py "." ++ M) caps k
  = rmatch false input r M caps k.
Proof. reflexivity. Qed.

Lemma level_minor N M :
  all_of is_digit N = true -> all_of is_digit M = true -> M <> py "0" ->
  determine_level_from_numbering (N ++ py "." ++ M) = Some 1%Z.
Proof.
  intros HN HM Hne. unfold determine_level_from_numbering.
  assert (Hp : forall r c t,
             is_digit c = true ->
             rmatch false (N ++ py "." ++ M) (One (Lit ".") >> r) (c :: t) []
               accept = None).
  { intros r c t Hc. cbn. now rewrite (digit_not_period c Hc). }
  rewrite matches_digits; [|exact HN|reflexivity|apply Hp].
  rewrite matches_digits; [|exact HN|reflexivity|apply Hp].
  rewrite !after_period, digits_to_end by exact HM.
  apply all_of_cons in HM as (m & M' & -> & Hm & HM').
  rewrite rmatch_seq, rmatch_one.
  change (class_has false (Lit "0") m) with (Ascii.eqb m "0").
  destruct (Ascii.eqb m "0") eqn:E0; [|reflexivity].
  apply Ascii.eqb_eq in E0. subst m.
  destruct M' as [|m' M'']; [now elim Hne|].
  simpl in HM'. apply andb_true_iff in HM' as [Hm' _].
  now rewrite (eol_after_digit _ m' M'' _ Hm').
Qed.

Lemma matches_upper_on_digits N rest r :
  all_of is_digit N = true ->
  matches false (Bol >> One (Range "A" "Z") >> r) (N ++ rest) = false.
Proof.
  intros HN. apply all_of_cons in HN as (c & t & -> & Hc & _).
  rewrite matches_anchored, rmatch_seq. cbn [app]. rewrite rmatch_one.
  change (class_has false (Range "A" "Z") c) with (is_upper c).
  destruct (is_upper c) eqn:Eu; [|reflexivity].
  apply upper_not_digit in Eu. congruence.
Qed.

Lemma level_plain N :
  all_of is_digit N = true ->
  determine_level_from_numbering (N ++ py ".") = Some 3%Z.
Proof.
  intros HN. unfold determine_level_from_numbering.
  assert (Hp : forall r c t,
             is_digit c = true ->
             rmatch false (N ++ py ".") (One (Lit ".") >> r) (c :: t) []
               accept = None).
  { intros r c t Hc. cbn. now rewrite (digit_not_period c Hc). }
  rewrite matches_digits; [|exact HN|reflexivity|apply Hp].
  rewrite matches_digits; [|exact HN|reflexivity|apply Hp].
  rewrite (matches_digits N (py ".") (One (Lit ".") >> Eol));
    [|exact HN|reflexivity|apply Hp].
  rewrite matches_upper_on_digits by exact HN.
  reflexivity.
Qed.

Lemma level_upper c :
  is_upper c = true -> determine_level_from_numbering [c; "."%char] = Some 2%Z.
Proof.
  intros Hc. unfold determine_level_from_numbering.
  rewrite !matches_not_digit by now apply upper_not_digit.
  rewrite matches_anchored. cbn [rmatch class_has class_plain].
  change (in_range (code "A") (code "Z") c) with (is_upper c).
  now rewrite Hc.
Qed.

Lemma level_lower c :
  is_lower c = true -> determine_level_from_numbering [c; "."%char] = Some 4%Z.
Proof.
  intros Hc. unfold determine_level_from_numbering.
  rewrite !matches_not_digit by now apply lower_not_digit.
  rewrite !matches_anchored. cbn [rmatch class_has class_plain].
  change (in_range (code "A") (code "Z") c) with (is_upper c).
  change (in_range (code "a") (code "z") c) with (is_lower c).
  now rewrite (lower_not_upper c Hc), Hc.
Qed.

Lemma matches_one_period_fail K c1 c2 t r :
  Ascii.eqb c2 "." = false ->
  matches false (Bol >> One K >> One (Lit ".") >> r) (c1 :: c2 :: t) = false.
Proof.
  intros H. rewrite matches_anchored, rmatch_seq, rmatch_one.
  destruct (class_has false K c1); [|reflexivity].
  rewrite rmatch_seq, rmatch_one.
  change (class_has false (Lit ".") c2) with (Ascii.eqb c2 ".").
  now rewrite H.
Qed.

Lemma matches_roman R :
  all_of is_roman R = true ->
  matches true (Bol >> Plus (OneOf roman) >> One (Lit ".") >> Eol)
    (R ++ py ".") = true.
Proof.
  intros HR. rewrite matches_anchored, rmatch_seq.
  rewrite rmatch_plus_run; [reflexivity|exact HR| |reflexivity].
  intros c t Hc. rewrite rmatch_seq, rmatch_one.
  now rewrite (roman_not_ic_period c Hc).
Qed.

Lemma level_roman r1 r2 R :
  forallb is_roman (r1 :: r2 :: R) = true ->
  determine_level_from_numbering ((r1 :: r2 :: R) ++ py ".") = Some 5%Z.
Proof.
  intros HR. pose proof HR as HR'. simpl in HR'.
  apply andb_true_iff in HR' as [H1 HR']. apply andb_true_iff in HR' as [H2 _].
  unfold determine_level_from_numbering.
  rewrite matches_roman by exact HR.
  cbn [app].
  rewrite !matches_not_digit by now apply roman_not_digit.
  rewrite !matches_one_period_fail by now apply roman_not_period.
  reflexivity.
Qed.

Import DirectTextMatcher.

(** ** Numbering-like strings *)

Definition no_newline (w : str) : bool :=
  forallb (fun c => negb (Ascii.eqb c newline)) w.

(** A run of characters of [f] followed by a non-empty run of characters of
    [g] that ends the string. *)
Definition two_runs (f g : ascii -> bool) (w : str) : bool :=
  match w with
  | c :: t => f c && all_of g (drop_while f t)
  | [] => false
  end.

(** What [looks_like_numbering] accepts, on the text without its non-word
    characters. *)
Definition numbering_shape (w : str) : bool :=
  all_of is_digit w || all_of is_letter w
  || two_runs is_digit is_letter w || two_runs is_letter is_digit w.

Lemma word_not_newline c : is_word c = true -> negb (Ascii.eqb c newline) = true.
Proof. ascii_cases c; vm_compute; congruence. Qed.

Lemma filter_word_no_newline s : no_newline (List.filter is_word s) = true.
Proof.
  unfold no_newline. apply forallb_forall. intros c Hc.
  apply filter_In in Hc as [_ Hc]. now apply word_not_newline.
Qed.

Lemma no_newline_drop_while f w :
  no_newline w = true -> no_newline (drop_while f w) = true.
Proof.
  unfold no_newline. induction w as [|c t IH]; simpl; [easy|].
  intros H. apply andb_true_iff in H as [Hc Ht].
  destruct (f c); [now apply IH|]. simpl. now rewrite Hc, Ht.
Qed.

Lemma rmatch_plus_cons {R} ic input K c t caps
      (k : str -> list str -> option R) :
  rmatch ic input (Plus K) (c :: t) caps k
  = if class_has ic K c
    then star_greedy (class_has ic K) t (fun t' => k t' caps)
    else None.
Proof. reflexivity. Qed.

Lemma eol_none ic input c t caps :
  negb (Ascii.eqb c newline) = true ->
  rmatch ic input Eol (c :: t) caps accept = None.
Proof.
  intros H. cbn [rmatch]. destruct t; [|reflexivity].
  apply negb_true_iff in H. now rewrite H.
Qed.

(** [k*$] on a string without newline: the whole string is made of [k]. *)
Lemma run_to_end ic input K f w caps :
  (forall c, class_has ic K c = f c) ->
  no_newline w = true ->
  found (star_greedy (class_has ic K) w
           (fun t => rmatch ic input Eol t caps accept))
  = forallb f w.
Proof.
  intros Hf. unfold no_newline.
  induction w as [|c t IH]; intros Hw; [reflexivity|].
  simpl in Hw. apply andb_true_iff in Hw as [Hc Ht].
  cbn [star_greedy forallb]. rewrite Hf.
  destruct (f c); cbn [andb].
  - rewrite <- (IH Ht).
    destruct (star_greedy _ t _); [reflexivity|].
    now rewrite eol_none.
  - now rewrite eol_none.
Qed.

Lemma matches_run ic K f w :
  (forall c, class_has ic K c = f c) ->
  no_newline w = true ->
  matches ic (Bol >> Plus K >> Eol) w = all_of f w.
Proof.
  intros Hf Hw. rewrite matches_anchored, rmatch_seq.
  destruct w as [|c t]; [reflexivity|].
  rewrite rmatch_plus_cons, Hf. unfold all_of. cbn [truthy forallb andb].
  destruct (f c); [|reflexivity]. cbn [andb].
  apply run_to_end; [exact Hf|].
  unfold no_newline in *. simpl in Hw. now apply andb_true_iff in Hw as [_ ?].
Qed.

Lemma matches_two_runs ic K1 K2 f g w :
  (forall c, class_has ic K1 c = f c) ->
  (forall c, class_has ic K2 c = g c) ->
  (forall c, f c = true -> g c = false) ->
  no_newline w = true ->
  matches ic (Bol >> Plus K1 >> Plus K2 >> Eol) w = two_runs f g w.
Proof.
  intros Hf Hg Hfg Hw. rewrite matches_anchored, rmatch_seq.
  destruct w as [|c t]; [reflexivity|].
  rewrite rmatch_plus_cons, Hf. cbn [two_runs].
  destruct (f c); [|reflexivity]. cbn [andb].
  rewrite star_greedy_det.
  2:{ intros x u Hx. rewrite rmatch_seq, rmatch_plus_cons, Hg.
      rewrite Hf in Hx. now rewrite (Hfg x Hx). }
  assert (Hd : drop_while (class_has ic K1) t = drop_while f t).
  { clear -Hf. induction t as [|x u IH]; [reflexivity|]. simpl.
    rewrite Hf, IH. reflexivity. }
  rewrite Hd.
  assert (Hn : no_newline (drop_while f t) = true).
  { apply no_newline_drop_while. unfold no_newline in *. simpl in Hw.
    now apply andb_true_iff in Hw as [_ ?]. }
  destruct (drop_while f t) as [|x r]; [reflexivity|].
  rewrite rmatch_seq, rmatch_plus_cons, Hg. unfold all_of.
  cbn [truthy forallb andb]. destruct (g x); [|reflexivity]. cbn [andb].
  apply run_to_end; [exact Hg|].
  unfold no_newline in *. simpl in Hn. now apply andb_true_iff in Hn as [_ ?].
Qed.

Lemma letter_not_digit c : is_letter c = true -> is_digit c = false.
Proof. ascii_cases c; vm_compute; congruence. Qed.

Lemma all_of_weaken (f g : ascii -> bool) w :
  (forall c, f c = true -> g c = true) -> all_of f w = true -> all_of g w = true.
Proof.
  intros H. unfold all_of. destruct w as [|c t]; [easy|]. cbn [truthy andb].
  intros Hw. apply forallb_forall. intros x Hx.
  apply H. revert x Hx. now apply forallb_forall.
Qed.

(** ** Extraction from a cleaned content *)

Definition has_separator (s : str) : bool :=
  existsb (fun sep => contains sep s) separators.

Definition space_head (s : str) : bool :=
  match s with c :: _ => is_space c | [] => false end.

(** A period followed by a whitespace character, somewhere in [s]. *)
Fixpoint period_space (s : str) : bool :=
  match s with
  | c :: t => (Ascii.eqb c "." && space_head t) || period_space t
  | [] => false
  end.

(** The text starts neither with a digit nor with whitespace. *)
Definition plain_start (s : str) : bool :=
  match s with
  | c :: _ => negb (is_digit c) && negb (is_space c)
  | [] => true
  end.

Lemma startswith_app s t : startswith (s ++ t) s = true.
Proof.
  induction s as [|c s IH]; [reflexivity|]. simpl.
  now rewrite Ascii.eqb_refl, IH.
Qed.

Lemma startswith_app_l a b sep :
  startswith a sep = true -> startswith (a ++ b) sep = true.
Proof.
  revert a. induction sep as [|x sep IH]; intros a; [reflexivity|].
  destruct a as [|c a]; [discriminate|]. simpl.
  intros H. apply andb_true_iff in H as [-> H]. now apply IH.
Qed.

Lemma contains_app_l sep a b :
  contains sep a = true -> contains sep (a ++ b) = true.
Proof.
  unfold contains. induction a as [|c a IH].
  - simpl. destruct (startswith [] sep) eqn:E; [|discriminate].
    intros _. destruct sep; [|discriminate]. now destruct b.
  - cbn [partition app].
    destruct (startswith (c :: a) sep) eqn:E.
    + intros _. change (c :: a ++ b) with ((c :: a) ++ b).
      now rewrite (startswith_app_l _ b _ E).
    + intros H. destruct (startswith (c :: a ++ b) sep); [reflexivity|].
      destruct (partition sep a) as [[x y]|]; [|discriminate].
      specialize (IH eq_refl).
      now destruct (partition sep (a ++ b)) as [[x' y']|].
Qed.

Lemma period_space_app_l a b :
  period_space (a ++ b) = false -> period_space a = false.
Proof.
  induction a as [|c a IH]; [reflexivity|]. cbn [period_space app].
  intros H. apply orb_false_iff in H as [H1 H2].
  rewrite (IH H2), orb_false_r.
  destruct (Ascii.eqb c "."); [|reflexivity]. cbn [andb] in *.
  destruct a; [reflexivity|exact H1].
Qed.

Lemma rstrip_prefix s : exists tail, s = rstrip s ++ tail.
Proof.
  unfold rstrip. induction s as [|c t [tail IH]]; [now exists []|].
  cbn [rstrip_with]. destruct (rstrip_with is_space t) as [|x r].
  - destruct (is_space c).
    + now exists (c :: t).
    + exists t. reflexivity.
  - exists tail. simpl. f_equal. exact IH.
Qed.

Lemma strip_plain s : plain_start s = true -> strip s = rstrip s.
Proof.
  destruct s as [|c t]; [reflexivity|]. cbn [plain_start].
  intros H. apply andb_true_iff in H as [_ H]. apply negb_true_iff in H.
  unfold strip, rstrip. cbn [rstrip_with].
  destruct (rstrip_with is_space t); rewrite ?H; unfold lstrip; simpl;
    now rewrite H.
Qed.

Lemma rstrip_plain s : plain_start s = true -> plain_start (rstrip s) = true.
Proof.
  destruct s as [|c t]; [reflexivity|]. cbn [plain_start].
  intros H. pose proof H as H'. apply andb_true_iff in H' as [_ H'].
  apply negb_true_iff in H'. unfold rstrip. cbn [rstrip_with].
  destruct (rstrip_with is_space t); rewrite ?H'; exact H.
Qed.

(** The content left by the cleaning. *)
Lemma clean_content_body token ws body :
  forallb is_space ws = true ->
  clean_content (token ++ ws ++ body) (Some token) = strip body.
Proof.
  intros Hws. destruct (truthy token) eqn:Ht.
  - rewrite clean_content_spec by exact Ht.
    rewrite startswith_app, drop_app_length. now apply strip_app_spaces.
  - destruct token; [|discriminate]. cbn [clean_content truthy app].
    now apply strip_app_spaces.
Qed.

Lemma split_on_none seps line :
  forallb (fun sep => negb (contains sep line)) seps = true ->
  split_on seps line = None.
Proof.
  induction seps as [|sep seps IH]; [reflexivity|]. cbn [forallb split_on].
  intros H. apply andb_true_iff in H as [H1 H2].
  apply negb_true_iff in H1. rewrite H1. now apply IH.
Qed.

Lemma rmatch_grp {R} ic input r s caps (k : str -> list str -> option R) :
  rmatch ic input (Grp r) s caps k
  = rmatch ic input r s caps
      (fun t caps' => k t (caps' ++ [take (length s - length t) s])).
Proof. reflexivity. Qed.

Lemma after_token_fails input t caps g :
  space_head t = false ->
  rmatch true input (Plus Space >> g) t caps accept = None.
Proof.
  intros H. rewrite rmatch_seq. destruct t as [|z u]; [reflexivity|].
  rewrite rmatch_plus_cons, ic_space. cbn [space_head] in H. now rewrite H.
Qed.

Lemma period_fails {R} input t caps (k : str -> list str -> option R) :
  (forall u caps', space_head u = false -> k u caps' = None) ->
  period_space t = false ->
  rmatch true input (One (Lit ".")) t caps k = None.
Proof.
  intros Hk Ht. destruct t as [|y u]; [reflexivity|].
  rewrite rmatch_one, ic_period. cbn [period_space] in Ht.
  apply orb_false_iff in Ht as [Ht _].
  destruct (Ascii.eqb y "."); [|reflexivity]. now apply Hk.
Qed.

Lemma period_space_tail c t : period_space (c :: t) = false -> period_space t = false.
Proof. cbn [period_space]. intros H. now apply orb_false_iff in H as [_ ?]. Qed.

Lemma with_content_fails tok line :
  (forall k : str -> list str -> option Match,
     (forall u caps', space_head u = false -> k u caps' = None) ->
     rmatch true line tok line [] k = None) ->
  re_match true (with_content tok) line = None.
Proof.
  intros H. unfold re_match, with_content.
  rewrite rmatch_seq, rmatch_bol, rmatch_seq, rmatch_grp.
  apply H. intros u caps' Hu.
  now apply (after_token_fails line u _ (Grp (Plus Any))).
Qed.

Lemma digits_token_fails line r :
  plain_start line = true ->
  re_match true (with_content (Plus Digit >> r)) line = None.
Proof.
  intros Hp. apply with_content_fails. intros k _. rewrite rmatch_seq.
  destruct line as [|x t]; [reflexivity|].
  apply rmatch_plus_fail. rewrite ic_digit. cbn [plain_start] in Hp.
  apply andb_true_iff in Hp as [Hp _]. now apply negb_true_iff in Hp.
Qed.

Lemma letter_token_fails line K :
  period_space line = false ->
  re_match true (with_content (One K >> One (Lit "."))) line = None.
Proof.
  intros Hp. apply with_content_fails. intros k Hk. rewrite rmatch_seq.
  destruct line as [|x t]; [reflexivity|].
  rewrite rmatch_one. destruct (class_has true K x); [|reflexivity].
  apply period_fails; [exact Hk|]. eapply period_space_tail; exact Hp.
Qed.

Lemma roman_token_fails line K :
  period_space line = false ->
  re_match true (with_content (Plus K >> One (Lit "."))) line = None.
Proof.
  intros Hp. apply with_content_fails. intros k Hk. rewrite rmatch_seq.
  destruct line as [|x t]; [reflexivity|].
  rewrite rmatch_plus_cons. destruct (class_has true K x); [|reflexivity].
  apply (star_greedy_none (fun u => period_space u = false)).
  - intros u Hu. now apply period_fails.
  - intros c u. apply period_space_tail.
  - eapply period_space_tail; exact Hp.
Qed.

(** Nothing is extracted from a line that starts with neither a digit nor
    whitespace and has no separator and no period before whitespace. *)
Lemma extract_plain line :
  plain_start line = true -> has_separator line = false ->
  period_space line = false ->
  extract_numbering_from_line line = (None, None).
Proof.
  intros Hs Hsep Hp. unfold extract_numbering_from_line.
  rewrite split_on_none.
  2:{ unfold has_separator in Hsep. apply forallb_forall. intros sep Hin.
      apply negb_true_iff. destruct (contains sep line) eqn:E; [|reflexivity].
      assert (existsb (fun sep => contains sep line) separators = true)
        by (apply existsb_exists; eauto).
      congruence. }
  unfold patterns. cbn [match_patterns].
  rewrite !digits_token_fails by exact Hs.
  rewrite !letter_token_fails by exact Hp.
  now rewrite !roman_token_fails by exact Hp.
Qed.

Lemma has_separator_app_l a b :
  has_separator (a ++ b) = false -> has_separator a = false.
Proof.
  unfold has_separator. intros H.
  destruct (existsb (fun sep => contains sep a) separators) eqn:E;
    [|reflexivity].
  apply existsb_exists in E as (sep & Hin & Hc).
  assert (existsb (fun sep => contains sep (a ++ b)) separators = true).
  { apply existsb_exists. exists sep. split; [exact Hin|].
    now apply contains_app_l. }
  congruence.
Qed.

Lemma cleaned_extract token ws body :
  forallb is_space ws = true -> plain_start body = true ->
  has_separator body = false -> period_space body = false ->
  extract_numbering_from_line
    (clean_content (token ++ ws ++ body) (Some token)) = (None, None).
Proof.
  intros Hws Hs Hsep Hp. rewrite clean_content_body by exact Hws.
  rewrite strip_plain by exact Hs.
  destruct (rstrip_prefix body) as [tail Hb].
  apply extract_plain.
  - now apply rstrip_plain.
  - apply (has_separator_app_l _ tail). now rewrite <- Hb.
  - apply (period_space_app_l _ tail). now rewrite <- Hb.
Qed.

(** * The claims on tokens and extraction *)

(** C2: what the code does on the roman numerals of one letter.  In
    [determine_level_from_numbering] the test for a lowercase letter and a
    period stands before the test for a roman numeral, so that "i.", "v."
    and "x." get level 4 and the last branch, the one for "i., ii.", is
    reached by numerals of two letters or more only.  The level table of
    the analyzers has the same order, and, each of its patterns ending in
    whitespace, it gives no level at all to the token alone. *)
Theorem C2_one_letter_roman :
  determine_level_from_numbering (py "i.") = Some 4%Z
  /\ determine_level_from_numbering (py "v.") = Some 4%Z
  /\ determine_level_from_numbering (py "x.") = Some 4%Z
  /\ determine_level_from_numbering (py "ii.") = Some 5%Z
  /\ EnhancedListAnalyzer._infer_level_from_numbering (py "i. ") = Some 4%Z
  /\ EnhancedListAnalyzer._infer_level_from_numbering (py "ii. ") = Some 5%Z
  /\ EnhancedListAnalyzer._infer_level_from_numbering (py "i.") = None.
Proof. repeat split. Qed.

(** The words of the specification for [looksLikeNumbering]: the characters
    that are not alphanumeric are removed, and what is left is made of
    digits, of uppercase letters, of lowercase letters, of roman-numeral
    letters in either case, of digits then letters, or of letters then
    digits. *)
Definition is_alnum (c : ascii) : bool := is_word c && negb (Ascii.eqb c "_").

Definition spec_looks_like_numbering (s : str) : bool :=
  let w := List.filter is_alnum s in
  all_of is_digit w || all_of is_upper w || all_of is_lower w
  || all_of is_roman w
  || two_runs is_digit is_letter w || two_runs is_letter is_digit w.

(** C6: what the code does on "1_" and on "aB".  The substitution that
    is to remove the punctuation keeps the underscore, a word character, so
    that "1_" is not reduced to "1" and is refused; and every pattern, also
    the one for uppercase letters alone and the one for lowercase letters
    alone, is tried without regard to case, so that the mixed-case "aB" is
    accepted. *)
Theorem C6_underscore_and_mixed_case :
  looks_like_numbering (py "1_") = false
  /\ spec_looks_like_numbering (py "1_") = true
  /\ looks_like_numbering (py "aB") = true
  /\ spec_looks_like_numbering (py "aB") = false.
Proof. repeat split. Qed.

Definition excavate_word : WordParagraph :=
  {| Range_Text := py "(a) Excavate to depth";
     ListString := []; ListLevelNumber := None |}.

Definition excavate_block : EnhancedBlock :=
  {| index := 0; text := py "(a) Excavate to depth";
     cleaned_content := py "(a) Excavate to depth";
     level := Some 0%Z; num_fmt := None; list_id := Some 1;
     numbering_pattern := Some (py "a)"); is_list_item := true;
     is_continuation := false |}.

(** C8: what the code does on "(a) Excavate to depth".  The group of the
    pattern leaves the opening parenthesis out, so the inferred number is
    "a)"; it is no prefix of the text, which stays as it is; and no level
    pattern matches, so the level is the default 0. *)
Theorem C8_parenthesized_letter :
  deduce_numbering_from_text (py "(a) Excavate to depth") = Some (py "a)")
  /\ clean_content_from_numbering (py "(a) Excavate to depth") (py "a)")
     = py "(a) Excavate to depth"
  /\ analyze_enhanced_structure
       (sample_paragraphs (extract_numbered_paragraphs [excavate_word]))
     = Some [excavate_block]
  /\ extract_numbering_from_line (py "(a) Excavate to depth")
     = (Some (py "(a"), Some (py "Excavate to depth")).
Proof. repeat split. Qed.

(** * Further properties of the code *)

(** ** Tokens by their form *)

(** The chain of [determine_level_from_numbering] as an ordered table: the
    flag [re.IGNORECASE], the pattern and the level of each entry. *)
Definition pattern_table : list (bool * regex * Z) :=
  [ (false, Bol >> Plus Digit >> One (Lit ".") >> One (Lit "0") >> Eol, 0%Z)
  ; (false, Bol >> Plus Digit >> One (Lit ".") >> Plus Digit >> Eol, 1%Z)
  ; (false, Bol >> One (Range "A" "Z") >> One (Lit ".") >> Eol, 2%Z)
  ; (false, Bol >> Plus Digit >> One (Lit ".") >> Eol, 3%Z)
  ; (false, Bol >> One (Range "a" "z") >> One (Lit ".") >> Eol, 4%Z)
  ; (true, Bol >> Plus (OneOf (py "ivxlcdm")) >> One (Lit ".") >> Eol, 5%Z)
  ]%re.

(** The first entry of the table that matches, or [None]. *)
Fixpoint classify_token (table : list (bool * regex * Z)) (token : str)
  : option Z :=
  match table with
  | [] => None
  | (ic, r, lv) :: rest =>
      if matches ic r token then Some lv else classify_token rest token
  end.

(** X24: [determine_level_from_numbering] is the first-match lookup in its
    ordered table, and decides by the form of the token alone: digits
    followed by ".0" give level 0, digits, a period and digits other than
    the single "0" level 1, an uppercase letter and a period level 2, digits
    and a period level 3, a lowercase letter and a period level 4, and two
    or more roman letters, in either case, followed by a period level 5. *)
Theorem level_from_numbering_by_form (N M : str) (C c r1 r2 : ascii)
        (R : str) :
  all_of is_digit N = true -> all_of is_digit M = true -> M <> py "0" ->
  is_upper C = true -> is_lower c = true ->
  forallb is_roman (r1 :: r2 :: R) = true ->
  (forall token,
     determine_level_from_numbering token = classify_token pattern_table token)
  /\ determine_level_from_numbering (N ++ py ".0") = Some 0%Z
  /\ determine_level_from_numbering (N ++ py "." ++ M) = Some 1%Z
  /\ determine_level_from_numbering [C; "."%char] = Some 2%Z
  /\ determine_level_from_numbering (N ++ py ".") = Some 3%Z
  /\ determine_level_from_numbering [c; "."%char] = Some 4%Z
  /\ determine_level_from_numbering ((r1 :: r2 :: R) ++ py ".") = Some 5%Z.
Proof.
  intros HN HM Hne HC Hc HR.
  split; [reflexivity|].
  split; [now apply level_major|].
  split; [now apply level_minor|].
  split; [now apply level_upper|].
  split; [now apply level_plain|].
  split; [now apply level_lower|now apply level_roman].
Qed.

Lemma level_from_numbering_by_form_witness :
  determine_level_from_numbering (py "47.0") = Some 0%Z
  /\ determine_level_from_numbering (py "47.01") = Some 1%Z
  /\ determine_level_from_numbering (py "B.") = Some 2%Z
  /\ determine_level_from_numbering (py "47.") = Some 3%Z
  /\ determine_level_from_numbering (py "b.") = Some 4%Z
  /\ determine_level_from_numbering (py "iii.") = Some 5%Z.
Proof.
  assert (Hne : py "01" <> py "0") by discriminate.
  exact (proj2 (level_from_numbering_by_form (py "47") (py "01") "B" "b"
                  "i" "i" (py "i")
                  eq_refl eq_refl Hne eq_refl eq_refl eq_refl)).
Defined.

(** X25: on a text of characters with code points below 256,
    [looks_like_numbering] is true exactly when the text without its
    non-word characters (letters, digits and the underscore stay) is made
    of digits, of the letters A-Z and a-z in any mix of case, of digits
    then such letters, or of such letters then digits. *)
Theorem looks_like_numbering_by_shape s :
  looks_like_numbering s = numbering_shape (List.filter is_word s).
Proof.
  unfold looks_like_numbering. rewrite re_sub_not_word.
  pose proof (filter_word_no_newline s) as Hw.
  set (w := List.filter is_word s) in *.
  unfold looks_like_patterns. cbn [existsb].
  rewrite (matches_run true Digit is_digit) by (exact ic_digit || exact Hw).
  rewrite (matches_run true (Range "A" "Z") is_letter)
    by (exact ic_upper_range || exact Hw).
  rewrite (matches_run true (Range "a" "z") is_letter)
    by (exact ic_lower_range || exact Hw).
  rewrite (matches_run true (OneOf roman) is_roman)
    by (reflexivity || exact Hw).
  rewrite (matches_two_runs true Digit (Range "A" "Z") is_digit is_letter)
    by (exact ic_digit || exact ic_upper_range || exact digit_not_letter
        || exact Hw).
  rewrite (matches_two_runs true (Range "A" "Z") Digit is_letter is_digit)
    by (exact ic_digit || exact ic_upper_range || exact letter_not_digit
        || exact Hw).
  unfold numbering_shape.
  pose proof (all_of_weaken is_roman is_letter w ic_roman_letter) as Hr.
  destruct (all_of is_digit w), (all_of is_letter w), (all_of is_roman w),
    (two_runs is_digit is_letter w), (two_runs is_letter is_digit w);
    try reflexivity; now discriminate Hr.
Qed.

(** ** What a match consumes *)

(** [denotes ic r w gs]: the pattern [r] can consume the word [w], closing
    the groups [gs] on the way. *)
Fixpoint denotes (ic : bool) (r : regex) (w : str) (gs : list str) : Prop :=
  match r with
  | Bol | Eol => w = [] /\ gs = []
  | One k => (exists c, w = [c] /\ class_has ic k c = true) /\ gs = []
  | Opt k =>
      (w = [] \/ exists c, w = [c] /\ class_has ic k c = true) /\ gs = []
  | Star k => forallb (class_has ic k) w = true /\ gs = []
  | Plus k => all_of (class_has ic k) w = true /\ gs = []
  | Rep n k => (length w = n /\ forallb (class_has ic k) w = true) /\ gs = []
  | Seq r1 r2 =>
      exists w1 w2 g1 g2,
        w = w1 ++ w2 /\ gs = g1 ++ g2
        /\ denotes ic r1 w1 g1 /\ denotes ic r2 w2 g2
  | Alt r1 r2 => denotes ic r1 w gs \/ denotes ic r2 w gs
  | Grp r1 => exists g, denotes ic r1 w g /\ gs = g ++ [w]
  end.

Section Soundness.
Context {R : Type}.

Lemma star_greedy_sound f s (k : str -> option R) v :
  star_greedy f s k = Some v ->
  exists w t, s = w ++ t /\ forallb f w = true /\ k t = Some v.
Proof.
  induction s as [|c u IH]; simpl.
  - intros H. now exists [], [].
  - destruct (f c) eqn:E.
    + destruct (star_greedy f u k) as [r|] eqn:Es.
      * intros [= ->]. destruct (IH eq_refl) as (w & t & -> & Hw & Hk).
        exists (c :: w), t. simpl. now rewrite E, Hw.
      * intros H. now exists [], (c :: u).
    + intros H. now exists [], (c :: u).
Qed.

Lemma rep_sound n f s (k : str -> option R) v :
  rep n f s k = Some v ->
  exists w t, s = w ++ t /\ length w = n /\ forallb f w = true /\ k t = Some v.
Proof.
  revert s. induction n as [|n IH]; intros s; simpl.
  - intros H. now exists [], s.
  - destruct s as [|c u]; [discriminate|].
    destruct (f c) eqn:E; [|discriminate]. intros H.
    destruct (IH u H) as (w & t & -> & Hl & Hw & Hk).
    exists (c :: w), t. simpl. rewrite E, Hw, Hl. auto.
Qed.

(** The matcher is sound: a match consumes a word that the pattern
    denotes, and goes on with what is left of the subject. *)
Lemma rmatch_denotes ic input r :
  forall s caps (k : str -> list str -> option R) v,
    rmatch ic input r s caps k = Some v ->
    exists w t gs,
      s = w ++ t /\ denotes ic r w gs /\ k t (caps ++ gs) = Some v.
Proof.
  induction r as [| |c|c|c|c|n c|r1 IH1 r2 IH2|r1 IH1 r2 IH2|r1 IH1];
    intros s caps k v; cbn [rmatch denotes].
  - destruct (Nat.eqb _ _); [|discriminate]. intros H.
    exists [], s, []. now rewrite (app_nil_r caps).
  - intros H. exists [], s, []. rewrite (app_nil_r caps).
    destruct s as [|c [|c' u]]; try discriminate; [easy|].
    destruct (Ascii.eqb c newline); [easy|discriminate].
  - destruct s as [|x t]; [discriminate|].
    destruct (class_has ic c x) eqn:E; [|discriminate]. intros H.
    exists [x], t, []. rewrite (app_nil_r caps). eauto 6.
  - destruct s as [|x t].
    + intros H. exists [], [], []. rewrite (app_nil_r caps).
      split; [reflexivity|]. split; [|exact H]. split; [now left|reflexivity].
    + destruct (class_has ic c x) eqn:E.
      * destruct (k t caps) as [r|] eqn:Ek.
        -- intros [= ->]. exists [x], t, []. rewrite (app_nil_r caps).
           split; [reflexivity|]. split; [|exact Ek].
           split; [right; eauto|reflexivity].
        -- intros H. exists [], (x :: t), []. rewrite (app_nil_r caps).
           split; [reflexivity|]. split; [|exact H].
           split; [now left|reflexivity].
      * intros H. exists [], (x :: t), []. rewrite (app_nil_r caps).
        split; [reflexivity|]. split; [|exact H].
        split; [now left|reflexivity].
  - intros H. apply star_greedy_sound in H as (w & t & -> & Hw & Hk).
    exists w, t, []. now rewrite (app_nil_r caps).
  - destruct s as [|x u]; [discriminate|].
    destruct (class_has ic c x) eqn:E; [|discriminate]. intros H.
    apply star_greedy_sound in H as (w & t & -> & Hw & Hk).
    exists (x :: w), t, []. rewrite (app_nil_r caps). unfold all_of. simpl.
    now rewrite E, Hw.
  - intros H. apply rep_sound in H as (w & t & -> & Hl & Hw & Hk).
    exists w, t, []. now rewrite (app_nil_r caps).
  - intros H. apply IH1 in H as (w1 & t1 & g1 & -> & H1 & H).
    apply IH2 in H as (w2 & t & g2 & -> & H2 & H).
    exists (w1 ++ w2), t, (g1 ++ g2). rewrite <- !app_assoc.
    split; [reflexivity|]. split; [|now rewrite <- app_assoc in H].
    exists w1, w2, g1, g2. auto.
  - destruct (rmatch ic input r1 s caps k) as [r|] eqn:E1.
    + intros [= ->]. apply IH1 in E1 as (w & t & gs & -> & H1 & H).
      exists w, t, gs. auto.
    + intros H. apply IH2 in H as (w & t & gs & -> & H2 & H).
      exists w, t, gs. auto.
  - intros H. apply IH1 in H as (w & t & g & -> & H1 & H).
    exists w, t, (g ++ [w]).
    split; [reflexivity|]. split; [eauto|].
    rewrite length_app in H.
    replace (length w + length t - length t) with (length w) in H by lia.
    rewrite take_app_length in H. now rewrite <- app_assoc in H.
Qed.
End Soundness.

(** ** The level table needs whitespace *)

Fixpoint ends_in_space (r : regex) : bool :=
  match r with
  | One Space => true
  | Seq _ r2 => ends_in_space r2
  | _ => false
  end.

Definition no_space (s : str) : bool :=
  forallb (fun c => negb (is_space c)) s.

Lemma rmatch_needs_space {R} input r :
  forall s caps (k : str -> list str -> option R),
    ends_in_space r = true -> no_space s = true ->
    rmatch false input r s caps k = None.
Proof.
  induction r as [| |c|c|c|c|n c|r1 IH1 r2 IH2|r1 IH1 r2 IH2|r1 IH1];
    intros s caps k He Hs; try discriminate.
  - destruct c; try discriminate. destruct s as [|x t]; [reflexivity|].
    rewrite rmatch_one. simpl in Hs. apply andb_true_iff in Hs as [Hx _].
    apply negb_true_iff in Hx.
    change (class_has false Space x) with (is_space x). now rewrite Hx.
  - rewrite rmatch_seq.
    destruct (rmatch false input r1 s caps _) as [v|] eqn:E; [|reflexivity].
    apply rmatch_denotes in E as (w & t & gs & -> & _ & E).
    rewrite IH2 in E; [discriminate|exact He|].
    unfold no_space in *. rewrite forallb_app in Hs.
    now apply andb_true_iff in Hs as [_ ?].
Qed.

Lemma infer_level_needs_space numbering :
  no_space numbering = true ->
  EnhancedListAnalyzer._infer_level_from_numbering numbering = None.
Proof.
  intros H. unfold EnhancedListAnalyzer._infer_level_from_numbering.
  unfold level_patterns. cbn [first_level]. unfold matches, re_match.
  now rewrite !rmatch_needs_space.
Qed.

(** ** Inferred numbers *)

(** The tokens of the first four patterns ... *)
Definition dotted_token (n : str) : Prop :=
  (exists N M, all_of is_digit N = true /\ all_of is_digit M = true
               /\ n = N ++ py "." ++ M)
  \/ (exists N, all_of is_digit N = true /\ n = N ++ py ".")
  \/ (exists c, is_letter c = true /\ n = [c; "."%char]).

(** ... and of the last three. *)
Definition paren_token (n : str) : Prop :=
  (exists N, all_of is_digit N = true /\ n = N ++ py ")")
  \/ (exists c, is_letter c = true /\ n = [c; ")"%char]).

Ltac break :=
  repeat match goal with
         | H : _ /\ _ |- _ => destruct H
         | H : exists _, _ |- _ => destruct H
         end.

Lemma first_group_cons r rs s :
  first_group (r :: rs) s
  = match re_match false r s with
    | Some m => group m 1
    | None => first_group rs s
    end.
Proof. reflexivity. Qed.

Lemma re_match_denotes ic r s m :
  re_match ic r s = Some m ->
  exists w, s = w ++ rest m /\ denotes ic r w (groups m).
Proof.
  unfold re_match. intros H.
  apply rmatch_denotes in H as (w & t & gs & -> & Hd & [= <-]).
  exists w. simpl. auto.
Qed.

Lemma upper_letter c : is_upper c = true -> is_letter c = true.
Proof. unfold is_letter. now intros ->. Qed.

Lemma lower_letter c : is_lower c = true -> is_letter c = true.
Proof. unfold is_letter. intros ->. apply orb_true_r. Qed.

Ltac lits :=
  repeat match goal with
         | H : class_has false (Lit ?c) ?x = true |- _ =>
             apply (proj1 (Ascii.eqb_eq x c)) in H; subst x
         | H : class_has false Digit ?x = true |- _ =>
             change (is_digit x = true) in H
         | H : class_has false (Range "A" "Z") ?x = true |- _ =>
             apply upper_letter in H
         | H : class_has false (Range "a" "z") ?x = true |- _ =>
             apply lower_letter in H
         | H : all_of (class_has false Digit) ?x = true |- _ =>
             change (all_of is_digit x = true) in H
         end.

Lemma deduce_sound text n :
  deduce_numbering_from_text text = Some n ->
  (dotted_token n /\ exists rest, strip text = n ++ rest)
  \/ (paren_token n /\ exists rest, strip text = py "(" ++ n ++ rest).
Proof.
  unfold deduce_numbering_from_text.
  destruct (negb (truthy text) || negb (truthy (strip text))); [discriminate|].
  generalize (strip text) as s. intros s. unfold numbering_patterns.
  repeat (rewrite first_group_cons;
          destruct (re_match false _ s) as [m|] eqn:E;
          [apply re_match_denotes in E as (w & -> & Hd); destruct m as [gs t];
           cbn [denotes groups rest] in *; break; subst; lits;
           cbn [app group lookup Nat.sub list_lookup]; rewrite ?app_nil_r;
           intros [= <-]|clear E]); [..|discriminate].
  - left. split; [left; eauto 8|]. eexists; rewrite <- ?app_assoc; reflexivity.
  - left. split; [right; left; eauto|]. eexists; rewrite <- ?app_assoc; reflexivity.
  - left. split; [right; right; eauto|]. simpl. eauto.
  - left. split; [right; right; eauto|]. simpl. eauto.
  - right. split; [left; eauto|]. simpl. eexists; rewrite <- ?app_assoc; reflexivity.
  - right. split; [right; eauto|]. simpl. eauto.
  - right. split; [right; eauto|]. simpl. eauto.
Qed.

Lemma digit_not_space c : is_digit c = true -> is_space c = false.
Proof. ascii_cases c; vm_compute; congruence. Qed.

Lemma letter_not_space c : is_letter c = true -> is_space c = false.
Proof. ascii_cases c; vm_compute; congruence. Qed.

Lemma digits_no_space N : forallb is_digit N = true -> no_space N = true.
Proof.
  unfold no_space. induction N as [|c t IH]; [reflexivity|]. simpl.
  intros H. apply andb_true_iff in H as [Hc Ht].
  now rewrite (digit_not_space c Hc), IH.
Qed.

Lemma all_digits_no_space N : all_of is_digit N = true -> no_space N = true.
Proof.
  unfold all_of. intros H. apply andb_true_iff in H as [_ H].
  now apply digits_no_space.
Qed.

Lemma no_space_app a b : no_space (a ++ b) = no_space a && no_space b.
Proof. apply forallb_app. Qed.

(** The first character of a token is a digit or a letter. *)
Definition token_head (n : str) : bool :=
  match n with c :: _ => is_digit c || is_letter c | [] => false end.

Lemma token_head_app N rest :
  all_of is_digit N = true -> token_head (N ++ rest) = true.
Proof.
  intros H. apply all_of_cons in H as (c & t & -> & Hc & _). simpl.
  now rewrite Hc.
Qed.

Lemma dotted_token_facts n :
  dotted_token n -> token_head n = true /\ no_space n = true.
Proof.
  intros [(N & M & HN & HM & ->)|[(N & HN & ->)|(c & Hc & ->)]].
  - split; [now apply token_head_app|].
    rewrite !no_space_app, (all_digits_no_space N HN),
      (all_digits_no_space M HM). reflexivity.
  - split; [now apply token_head_app|].
    rewrite !no_space_app, (all_digits_no_space N HN). reflexivity.
  - simpl. rewrite Hc, (letter_not_space c Hc), orb_true_r. auto.
Qed.

Lemma paren_token_facts n :
  paren_token n -> token_head n = true /\ no_space n = true.
Proof.
  intros [(N & HN & ->)|(c & Hc & ->)].
  - split; [now apply token_head_app|].
    rewrite !no_space_app, (all_digits_no_space N HN). reflexivity.
  - simpl. rewrite Hc, (letter_not_space c Hc), orb_true_r. auto.
Qed.

Lemma token_head_truthy n : token_head n = true -> truthy n = true.
Proof. now destruct n. Qed.

Lemma token_head_not_paren n rest :
  token_head n = true -> startswith (py "(" ++ rest) n = false.
Proof.
  destruct n as [|c t]; [discriminate|]. simpl.
  ascii_cases c; vm_compute; congruence.
Qed.

Lemma drop_while_prefix f s :
  exists a, s = a ++ drop_while f s /\ forallb f a = true.
Proof.
  induction s as [|c t (a & IH & Ha)]; simpl.
  - now exists [].
  - destruct (f c) eqn:E.
    + exists (c :: a). simpl. rewrite E, Ha. split; [now f_equal|reflexivity].
    + now exists [].
Qed.

Lemma deduce_truthy text n :
  deduce_numbering_from_text text = Some n -> truthy text = true.
Proof.
  unfold deduce_numbering_from_text. now destruct text.
Qed.

Lemma deduce_token text n :
  deduce_numbering_from_text text = Some n ->
  token_head n = true /\ no_space n = true.
Proof.
  intros H. apply deduce_sound in H as [[Hn _]|[Hn _]].
  - now apply dotted_token_facts.
  - now apply paren_token_facts.
Qed.

(** X1: a deduced number is never empty, holds no whitespace and stands at
    the start of the trimmed text, directly or behind an opening parenthesis
    that is not part of it. *)
Theorem inferred_number_in_text text n :
  deduce_numbering_from_text text = Some n ->
  truthy n = true /\ no_space n = true
  /\ exists rest, strip text = n ++ rest \/ strip text = py "(" ++ n ++ rest.
Proof.
  intros H. destruct (deduce_token text n H) as [Hh Hs].
  split; [now apply token_head_truthy|]. split; [exact Hs|].
  apply deduce_sound in H as [[_ [rest Hr]]|[_ [rest Hr]]]; eauto.
Qed.

Lemma inferred_number_in_text_witness :
  deduce_numbering_from_text (py "  (12) Backfill") = Some (py "12)")
  /\ truthy (py "12)") = true /\ no_space (py "12)") = true
  /\ exists rest, strip (py "  (12) Backfill") = py "12)" ++ rest
                  \/ strip (py "  (12) Backfill") = py "(" ++ py "12)" ++ rest.
Proof.
  split; [reflexivity|].
  apply (inferred_number_in_text (py "  (12) Backfill")). reflexivity.
Defined.

(** X2: when the trimmed text opens with a parenthesis, the deduced number
    is not a prefix of it and the cleaning gives the trimmed text back, the
    numbering still in it. *)
Theorem parenthesized_number_stays text n :
  deduce_numbering_from_text text = Some n ->
  startswith (strip text) (py "(") = true ->
  (exists rest, strip text = py "(" ++ n ++ rest)
  /\ clean_content_from_numbering text n = strip text.
Proof.
  intros H Hp. pose proof (deduce_truthy _ _ H) as Ht.
  apply deduce_sound in H as [[Hn [rest Hr]]|[Hn [rest Hr]]].
  - apply dotted_token_facts in Hn as [Hh _]. rewrite Hr in Hp.
    destruct n as [|c t]; [discriminate|]. simpl in Hp, Hh.
    apply andb_true_iff in Hp as [Hc _]. apply Ascii.eqb_eq in Hc. subst c.
    discriminate.
  - apply paren_token_facts in Hn as [Hh _]. split; [eauto|].
    unfold clean_content_from_numbering.
    rewrite Ht, (token_head_truthy n Hh). cbn [negb orb].
    now rewrite Hr, token_head_not_paren.
Qed.

Lemma parenthesized_number_stays_witness :
  (exists rest, strip (py "(B) Scope ") = py "(" ++ py "B)" ++ rest)
  /\ clean_content_from_numbering (py "(B) Scope ") (py "B)")
     = strip (py "(B) Scope ").
Proof.
  apply (parenthesized_number_stays (py "(B) Scope ") (py "B)"));
    reflexivity.
Defined.

(** X3: otherwise the trimmed text is the deduced number, a run of
    whitespace and the cleaned content, in this order. *)
Theorem inferred_number_split text n :
  deduce_numbering_from_text text = Some n ->
  startswith (strip text) (py "(") = false ->
  exists ws,
    forallb is_space ws = true
    /\ strip text = n ++ ws ++ clean_content_from_numbering text n.
Proof.
  intros H Hp. pose proof (deduce_truthy _ _ H) as Ht.
  apply deduce_sound in H as [[Hn [rest Hr]]|[Hn [rest Hr]]].
  - apply dotted_token_facts in Hn as [Hh _].
    unfold clean_content_from_numbering.
    rewrite Ht, (token_head_truthy n Hh). cbn [negb orb].
    rewrite Hr, startswith_app, drop_app_length.
    destruct (drop_while_prefix is_space rest) as (ws & Hws & Hsp).
    exists ws. split; [exact Hsp|]. unfold lstrip. now rewrite <- Hws.
  - rewrite Hr in Hp. discriminate.
Qed.

Lemma inferred_number_split_witness :
  exists ws,
    forallb is_space ws = true
    /\ strip (py " 3.   Clamps ")
       = py "3." ++ ws ++ clean_content_from_numbering (py " 3.   Clamps ")
                            (py "3.").
Proof.
  apply (inferred_number_split (py " 3.   Clamps ") (py "3.")); reflexivity.
Defined.

(** ** The level table on a token and the whitespace after it *)

Definition is_ivx (c : ascii) : bool := mem c (py "ivx").

Lemma ivx_facts c :
  is_ivx c = true ->
  is_digit c = false /\ is_upper c = false /\ is_lower c = true
  /\ Ascii.eqb c "." = false.
Proof. ascii_cases c; vm_compute; intuition congruence. Qed.

Lemma space_facts c :
  is_space c = true ->
  is_digit c = false /\ Ascii.eqb c "." = false /\ Ascii.eqb c "0" = false.
Proof. ascii_cases c; vm_compute; intuition congruence. Qed.

Lemma period_then input r c t :
  is_digit c = true ->
  rmatch false input (One (Lit ".") >> r) (c :: t) [] accept = None.
Proof. intros Hc. cbn. now rewrite (digit_not_period c Hc). Qed.

Section LevelTable.
Import EnhancedListAnalyzer.

Lemma infer_level_major N w rest :
  all_of is_digit N = true -> is_space w = true ->
  _infer_level_from_numbering (N ++ py ".0" ++ w :: rest) = Some 0%Z.
Proof.
  intros HN Hw. unfold _infer_level_from_numbering, level_patterns.
  cbn [first_level].
  rewrite matches_digits; [|exact HN|reflexivity|intros; now apply period_then].
  cbn. change (class_has false Space w) with (is_space w). now rewrite Hw.
Qed.

Lemma infer_level_minor N d1 d2 w rest :
  all_of is_digit N = true -> is_digit d1 = true -> is_digit d2 = true ->
  is_space w = true ->
  _infer_level_from_numbering (N ++ py "." ++ d1 :: d2 :: w :: rest)
  = Some 1%Z.
Proof.
  intros HN H1 H2 Hw. unfold _infer_level_from_numbering, level_patterns.
  cbn [first_level].
  rewrite !matches_digits by
    (try exact HN; try reflexivity; intros; now apply period_then).
  cbn. change (class_has false Space) with is_space.
  change (class_has false Digit) with is_digit.
  rewrite H1, H2, Hw, (digit_not_space d2 H2).
  now destruct (Ascii.eqb d1 "0").
Qed.

Lemma infer_level_plain N w rest :
  all_of is_digit N = true -> is_space w = true ->
  _infer_level_from_numbering (N ++ py "." ++ w :: rest) = Some 3%Z.
Proof.
  intros HN Hw. destruct (space_facts w Hw) as (Hd & Hp & H0).
  unfold _infer_level_from_numbering, level_patterns.
  cbn [first_level].
  rewrite !matches_digits by
    (try exact HN; try reflexivity; intros; now apply period_then).
  rewrite matches_upper_on_digits by exact HN.
  cbn. change (class_has false Space) with is_space.
  change (class_has false Digit) with is_digit.
  now rewrite H0, Hd, Hw.
Qed.

Lemma infer_level_one_digit N d w rest :
  all_of is_digit N = true -> is_digit d = true -> d <> "0"%char ->
  is_space w = true ->
  _infer_level_from_numbering (N ++ py "." ++ d :: w :: rest) = None.
Proof.
  intros HN H1 Hne Hw. destruct (space_facts w Hw) as (Hd & Hp & H0).
  unfold _infer_level_from_numbering, level_patterns.
  cbn [first_level].
  rewrite !matches_digits by
    (try exact HN; try reflexivity; intros; now apply period_then).
  rewrite matches_upper_on_digits by exact HN.
  apply all_of_cons in HN as (c & t & -> & Hc & _). cbn [app].
  rewrite !matches_anchored.
  rewrite (rmatch_seq _ _ (One (Range "a" "z"))), rmatch_one.
  change (class_has false (Range "a" "z") c) with (is_lower c).
  assert (Hl : is_lower c = false).
  { destruct (is_lower c) eqn:E; [|reflexivity].
    apply lower_not_digit in E. congruence. }
  rewrite Hl.
  rewrite (rmatch_seq _ _ (Plus (OneOf (py "ivx")))), rmatch_plus_fail.
  2:{ change (class_has false (OneOf (py "ivx")) c) with (is_ivx c).
      destruct (is_ivx c) eqn:E; [|reflexivity].
      apply ivx_facts in E as (E & _). congruence. }
  cbn. change (class_has false Space) with is_space.
  change (class_has false Digit) with is_digit.
  rewrite H1, Hd, (digit_not_space d H1).
  destruct (Ascii.eqb_spec d "0"); [contradiction|reflexivity].
Qed.

Lemma infer_level_upper c w rest :
  is_upper c = true -> is_space w = true ->
  _infer_level_from_numbering (c :: "."%char :: w :: rest) = Some 2%Z.
Proof.
  intros Hc Hw. unfold _infer_level_from_numbering, level_patterns.
  cbn [first_level].
  rewrite !matches_not_digit by now apply upper_not_digit.
  rewrite matches_anchored. cbn [rmatch class_has class_plain].
  change (in_range (code "A") (code "Z") c) with (is_upper c).
  now rewrite Hc, Hw.
Qed.

Lemma infer_level_lower c w rest :
  is_lower c = true -> is_space w = true ->
  _infer_level_from_numbering (c :: "."%char :: w :: rest) = Some 4%Z.
Proof.
  intros Hc Hw. unfold _infer_level_from_numbering, level_patterns.
  cbn [first_level].
  rewrite !matches_not_digit by now apply lower_not_digit.
  rewrite !matches_anchored. cbn [rmatch class_has class_plain].
  change (in_range (code "A") (code "Z") c) with (is_upper c).
  change (in_range (code "a") (code "z") c) with (is_lower c).
  now rewrite (lower_not_upper c Hc), Hc, Hw.
Qed.

Lemma infer_level_roman r1 r2 R w rest :
  forallb is_ivx (r1 :: r2 :: R) = true -> is_space w = true ->
  _infer_level_from_numbering ((r1 :: r2 :: R) ++ py "." ++ w :: rest)
  = Some 5%Z.
Proof.
  intros HR Hw. pose proof HR as HR'. simpl in HR'.
  apply andb_true_iff in HR' as [H1 HR']. apply andb_true_iff in HR' as [H2 _].
  destruct (ivx_facts r1 H1) as (D1 & U1 & L1 & P1).
  destruct (ivx_facts r2 H2) as (D2 & U2 & L2 & P2).
  unfold _infer_level_from_numbering, level_patterns.
  cbn [first_level].
  assert (Hrom : matches false
            (Bol >> Plus (OneOf (py "ivx")) >> One (Lit ".") >> One Space)
            ((r1 :: r2 :: R) ++ py "." ++ w :: rest) = true).
  { rewrite matches_anchored, rmatch_seq.
    rewrite rmatch_plus_run.
    - cbn. change (class_has false Space w) with (is_space w). now rewrite Hw.
    - exact HR.
    - intros c t Hc. rewrite rmatch_seq, rmatch_one.
      change (class_has false (Lit ".") c) with (Ascii.eqb c ".").
      change (class_has false (OneOf (py "ivx")) c) with (is_ivx c) in Hc.
      apply ivx_facts in Hc as (_ & _ & _ & Hc). now rewrite Hc.
    - reflexivity. }
  rewrite Hrom. cbn [app].
  rewrite !matches_not_digit by exact D1.
  rewrite !matches_one_period_fail by exact P2.
  reflexivity.
Qed.

End LevelTable.

(** ** The level of a block, exactly *)

Lemma assign_level_idem b b' :
  assign_level b = Some b' -> assign_level b' = Some b'.
Proof.
  unfold assign_level. destruct (numbering_pattern b) as [n|] eqn:En;
    [|discriminate].
  destruct (first_level false level_patterns n) as [lv|] eqn:Ef.
  - intros [= <-]. cbn [numbering_pattern set_level]. now rewrite En, Ef.
  - destruct (level b) eqn:El; intros [= <-].
    + now rewrite En, Ef, El.
    + cbn [numbering_pattern set_level level]. now rewrite En, Ef.
Qed.

(** [leveled b b']: [b'] is [b], before or after its level was assigned. *)
Definition leveled (b b' : EnhancedBlock) : Prop :=
  b' = b \/ assign_level b = Some b'.

Lemma leveled_trans b1 b2 b3 : leveled b1 b2 -> leveled b2 b3 -> leveled b1 b3.
Proof.
  intros [->|H1] [->|H2]; unfold leveled; auto.
  right. apply assign_level_idem in H1 as H1'. congruence.
Qed.

Lemma leveled_numbered b b' :
  leveled b b' -> numbering_pattern b <> None -> numbering_pattern b' <> None.
Proof.
  intros [->|H]; [easy|]. apply assign_level_same in H.
  destruct H as (_ & _ & _ & _ & -> & _). easy.
Qed.

Lemma leveled_fixed b b' :
  assign_level b = Some b -> leveled b b' -> assign_level b' = Some b'.
Proof. intros H [->|H']; congruence. Qed.

(** The loop of [assign_levels] gives each grouped block the level of
    [assign_level], once, and touches no other block. *)
Lemma assign_levels_exact groups : forall blocks,
  (forall i, in_groups i groups ->
             exists b, blocks !! i = Some b /\ numbering_pattern b <> None) ->
  exists blocks',
    assign_levels groups blocks = Some blocks'
    /\ pointwise leveled blocks blocks'
    /\ (forall i, in_groups i groups ->
                  exists b', blocks' !! i = Some b'
                             /\ assign_level b' = Some b')
    /\ (forall i, ~ in_groups i groups -> blocks' !! i = blocks !! i).
Proof.
  induction groups as [|g rest IH]; intros blocks Hin.
  - exists blocks. split; [reflexivity|].
    split; [apply pointwise_refl; now left|].
    split; [|reflexivity].
    intros i (g & Hg & _). now apply elem_of_nil in Hg.
  - cbn [assign_levels].
    assert (Hg : forall i, i ∈ g ->
                   exists b, blocks !! i = Some b
                             /\ numbering_pattern b <> None).
    { intros i Hi. apply Hin. exists g. split; [left|assumption]. }
    destruct (for_each_ok assign_level
                (fun b => numbering_pattern b <> None)
                (fun b' => assign_level b' = Some b') leveled
                assign_level_total (fun b b' H => or_intror H)
                assign_level_idem (fun b => or_introl eq_refl)
                leveled_trans leveled_numbered g blocks Hg)
      as (blocks1 & Hfe & Hp & HT & Hout).
    rewrite Hfe.
    destruct (IH blocks1) as (blocks' & Ha & Hp' & HT' & Hout').
    { intros i (g' & Hg' & Hi). destruct (Hin i) as (b & Hb & Hn).
      - exists g'. split; [now right|assumption].
      - destruct Hp as [_ Hp]. destruct (Hp i b Hb) as (b' & Hb' & HS).
        exists b'. split; [assumption|]. eapply leveled_numbered; eassumption. }
    exists blocks'. split; [exact Ha|].
    split; [eapply pointwise_trans; eauto using leveled_trans|]. split.
    + intros i (g' & Hg' & Hi).
      apply elem_of_cons in Hg' as [->|Hg'].
      * destruct (HT i Hi) as (b1 & Hb1 & HL).
        destruct Hp' as [_ Hp']. destruct (Hp' i b1 Hb1) as (b' & Hb' & HS).
        exists b'. split; [assumption|]. eapply leveled_fixed; eassumption.
      * apply HT'. exists g'. split; assumption.
    + intros i Hni. rewrite Hout'.
      * apply Hout. intros Hi. apply Hni. exists g. split; [left|assumption].
      * intros (g' & Hg' & Hi). apply Hni. exists g'.
        split; [now right|assumption].
Qed.

(** The level that the analysis gives to a paragraph. *)
Definition final_level (para : Paragraph) : option Z :=
  match py_or (p_list_number para) (p_inferred_number para) with
  | Some numbering =>
      if truthy numbering then
        match first_level false level_patterns numbering with
        | Some lv => Some lv
        | None => Some (default 0%Z (p_level para))
        end
      else p_level para
  | None => p_level para
  end.

Lemma assign_level_level b b' n :
  assign_level b = Some b' -> numbering_pattern b = Some n ->
  level b' = match first_level false level_patterns n with
             | Some lv => Some lv
             | None => Some (default 0%Z (level b))
             end.
Proof.
  unfold assign_level. intros H Hn. rewrite Hn in H.
  destruct (first_level false level_patterns n).
  - now injection H as <-.
  - destruct (level b) eqn:E; injection H as <-; [now rewrite E|reflexivity].
Qed.

Lemma analysis_level_exact paragraphs blocks i para b :
  analyze_enhanced_structure paragraphs = Some blocks ->
  paragraphs !! i = Some para -> blocks !! i = Some b ->
  level b = final_level para.
Proof.
  unfold analyze_enhanced_structure. intros Han Hpara Hb.
  pose proof (scan_blocks paragraphs) as Hbs.
  pose proof (scan_groups paragraphs) as Hgr.
  set (groups := close_groups (scan paragraphs)) in *.
  set (bs0 := enhanced_blocks (scan paragraphs)) in *.
  assert (Hb0 : bs0 !! i = Some (enhanced_block i para)).
  { rewrite Hbs, list_lookup_imap, Hpara. reflexivity. }
  destruct (assign_list_ids_ok groups 1 bs0) as (bs1 & Hids & [Hlen1 Hp1]).
  { intros j Hj. apply Hgr in Hj as (b' & Hb' & _). eauto. }
  rewrite Hids in Han.
  assert (Hnum : forall j, in_groups j groups ->
            exists b1, bs1 !! j = Some b1 /\ numbering_pattern b1 <> None).
  { intros j Hj. apply Hgr in Hj as (b' & Hb' & Hli).
    destruct (Hp1 j b' Hb') as (b1 & Hb1 & HS & _).
    exists b1. split; [assumption|].
    destruct HS as (_ & _ & _ & _ & -> & _).
    rewrite Hbs, list_lookup_imap in Hb'.
    destruct (paragraphs !! j) as [para'|]; [|discriminate].
    injection Hb' as <-. now apply list_item_numbered. }
  destruct (assign_levels_exact groups bs1 Hnum)
    as (bs2 & Hlv & [Hlen2 Hp2] & HT & Hout).
  assert (bs2 = blocks) by congruence. subst bs2.
  destruct (Hp1 i _ Hb0) as (b1 & Hb1 & HS1 & HL1).
  destruct HS1 as (_ & _ & _ & _ & Hn1 & Hli1 & _).
  cbn [enhanced_block numbering_pattern is_list_item level] in Hn1, Hli1, HL1.
  unfold final_level.
  destruct (py_or (p_list_number para) (p_inferred_number para))
    as [n|] eqn:En.
  - cbn [truthy_opt] in Hli1. destruct (truthy n) eqn:Et.
    + assert (Hi : in_groups i groups).
      { apply Hgr. exists (enhanced_block i para). split; [exact Hb0|].
        cbn [enhanced_block is_list_item]. now rewrite En. }
      destruct (HT i Hi) as (b2 & Hb2 & Hfix).
      assert (b2 = b) by congruence. subst b2.
      destruct (Hp2 i b1 Hb1) as (b2 & Hb2' & HL).
      assert (b2 = b) by congruence. subst b2.
      assert (Ha : assign_level b1 = Some b).
      { destruct HL as [->|HL]; assumption. }
      rewrite (assign_level_level b1 b n Ha Hn1). now rewrite HL1.
    + rewrite Hout in Hb.
      * assert (b = b1) by congruence. subst b. exact HL1.
      * intros Hi. apply Hgr in Hi as (b' & Hb' & Hli).
        assert (b' = enhanced_block i para) by congruence. subst b'.
        cbn [enhanced_block is_list_item] in Hli. rewrite En in Hli.
        cbn [truthy_opt] in Hli. congruence.
  - rewrite Hout in Hb.
    + assert (b = b1) by congruence. subst b. exact HL1.
    + intros Hi. apply Hgr in Hi as (b' & Hb' & Hli).
      assert (b' = enhanced_block i para) by congruence. subst b'.
      cbn [enhanced_block is_list_item] in Hli. rewrite En in Hli.
      discriminate.
Qed.

(** ** What the analysis gives when nothing matches *)

Definition backfill_word : WordParagraph :=
  {| Range_Text := py "1.5 Backfill"; ListString := [];
     ListLevelNumber := None |}.

Definition backfill_block : EnhancedBlock :=
  {| index := 0; text := py "1.5 Backfill"; cleaned_content := py "Backfill";
     level := Some 0%Z; num_fmt := Some (py "decimal"); list_id := Some 1;
     numbering_pattern := Some (py "1.5"); is_list_item := true;
     is_continuation := false |}.

(** C5, as stated, fails: the number "1.5" found in the text matches no
    pattern of the level table, alone or with the text after it, and the
    block does not come out without a level: it has the default level 0. *)
Lemma C5_unmatched_token_level_zero :
  analyze_enhanced_structure
    (sample_paragraphs (extract_numbered_paragraphs [backfill_word]))
  = Some [backfill_block]
  /\ numbering_pattern backfill_block = Some (py "1.5")
  /\ first_level false level_patterns (py "1.5") = None
  /\ first_level false level_patterns (py "1.5 Backfill") = None
  /\ level backfill_block = Some 0%Z.
Proof. repeat split. Qed.

(** C5, amended: the analysis never raises and gives one block for each
    paragraph.  A paragraph with no list number and no inferred number gives
    a block with no numbering token and no format, that is no list item,
    has the level of the paragraph and the trimmed text as content.  A list
    item whose token matches no format pattern has no format; one whose
    token matches no level pattern keeps the level of the paragraph, and
    gets level 0 when the paragraph has none.  For a blank text the detector
    infers nothing, so that the block is no list item, has the empty
    content and the level of the paragraph. *)
Theorem C5_total_no_match paragraphs :
  exists blocks,
    analyze_enhanced_structure paragraphs = Some blocks
    /\ length blocks = length paragraphs
    /\ forall i para, paragraphs !! i = Some para ->
         exists b, blocks !! i = Some b
           /\ (truthy (p_list_number para) = false ->
               p_inferred_number para = None ->
               numbering_pattern b = None /\ num_fmt b = None
               /\ is_list_item b = false /\ level b = p_level para
               /\ cleaned_content b = strip (p_text para))
           /\ (forall token,
                 numbering_pattern b = Some token -> truthy token = true ->
                 is_list_item b = true
                 /\ (detect_numbering_format (Some token) = None ->
                     num_fmt b = None)
                 /\ (first_level false level_patterns token = None ->
                     level b = Some (default 0%Z (p_level para))))
           /\ (truthy (p_list_number para) = false ->
               strip (p_text para) = [] ->
               p_inferred_number para
               = deduce_numbering_from_text (p_text para) ->
               is_list_item b = false /\ cleaned_content b = []
               /\ level b = p_level para).
Proof.
  destruct (analyze_blocks paragraphs) as (blocks & Ha & Hlen & H).
  exists blocks. split; [exact Ha|]. split; [exact Hlen|].
  intros i para Hp. destruct (H i para Hp) as (b & Hb & HS & _ & HF).
  exists b. split; [exact Hb|].
  pose proof (analysis_level_exact _ _ _ _ _ Ha Hp Hb) as Hlv.
  destruct HS as (_ & _ & Hc & Hf & Hn & Hli & _).
  cbn [enhanced_block numbering_pattern cleaned_content num_fmt is_list_item]
    in Hc, Hf, Hn, Hli.
  assert (Hnone : truthy (p_list_number para) = false ->
                  p_inferred_number para = None ->
                  numbering_pattern b = None /\ num_fmt b = None
                  /\ is_list_item b = false /\ level b = p_level para
                  /\ cleaned_content b = strip (p_text para)).
  { intros Hl Hi. unfold py_or in *. rewrite Hl, Hi in *.
    cbn [truthy_opt] in Hli. auto 6. }
  split; [exact Hnone|]. split.
  - intros token Hn' Ht. rewrite Hn' in Hn. rewrite <- Hn in *.
    cbn [truthy_opt] in Hli. rewrite Ht in Hli.
    split; [exact Hli|]. split.
    + intros Hd. now rewrite Hf.
    + intros Hfl. rewrite Hlv. unfold final_level.
      now rewrite <- Hn, Ht, Hfl.
  - intros Hl Hblank Hded.
    rewrite (deduce_blank _ Hblank) in Hded.
    destruct (Hnone Hl Hded) as (_ & _ & Hli' & Hlv' & Hc').
    split; [exact Hli'|]. split; [|exact Hlv']. now rewrite Hc', Hblank.
Qed.

Section Consolidation.
Import PyStr Re HybridDetector.

(** ** Consolidation into content blocks *)

(** The texts held by a block: its content, then its continuations. *)
Definition block_texts (b : ContentBlock) : list str :=
  content b :: continuation_blocks b.

(** The texts held by the state of the loop. *)
Definition pending_texts (st : Consolidation) : list str :=
  match current_block st with
  | Some b => content b :: continuation_texts st
  | None => []
  end.

Definition consolidation_ok (st : Consolidation) : Prop :=
  match current_block st with
  | Some b => continuation_blocks b = []
              /\ cb_index b = length (content_blocks st)
  | None => True
  end.

Definition has_text (para : NumberedParagraph) : bool :=
  truthy (strip (text para)).

Lemma block_texts_with b texts :
  continuation_blocks b = [] ->
  block_texts (with_continuations b texts) = content b :: texts.
Proof.
  intros H. unfold block_texts. destruct texts; simpl; [now rewrite H|easy].
Qed.

Lemma flush_texts st :
  consolidation_ok st ->
  concat (map block_texts (flush st))
  = concat (map block_texts (content_blocks st)) ++ pending_texts st.
Proof.
  unfold consolidation_ok, flush, pending_texts.
  destruct (current_block st) as [b|]; intros H.
  - destruct H as [H _]. rewrite map_app, concat_app. cbn [map concat].
    now rewrite block_texts_with, app_nil_r.
  - now rewrite app_nil_r.
Qed.

Lemma consolidate_step_ok st para :
  consolidation_ok st -> consolidation_ok (consolidate_step st para).
Proof.
  unfold consolidate_step, consolidation_ok.
  destruct (negb (truthy (strip (text para)))); [easy|].
  destruct (truthy_opt _); [easy|].
  destruct (current_block st) eqn:E; simpl; auto.
Qed.

Lemma consolidate_step_texts st para :
  consolidation_ok st ->
  concat (map block_texts (content_blocks (consolidate_step st para)))
    ++ pending_texts (consolidate_step st para)
  = (concat (map block_texts (content_blocks st)) ++ pending_texts st)
      ++ (if has_text para then [text para] else []).
Proof.
  intros Hok. unfold consolidate_step, has_text.
  destruct (truthy (strip (text para))); cbn [negb];
    [|now rewrite app_nil_r].
  destruct (truthy_opt _).
  - cbn [content_blocks]. rewrite (flush_texts st Hok). reflexivity.
  - unfold pending_texts.
    destruct (current_block st) as [b|] eqn:E; simpl; rewrite ?E.
    + now rewrite <- !app_assoc.
    + now rewrite app_nil_r.
Qed.

Lemma fold_consolidate paragraphs : forall st,
  consolidation_ok st ->
  let st' := fold_left consolidate_step paragraphs st in
  consolidation_ok st'
  /\ concat (map block_texts (content_blocks st')) ++ pending_texts st'
     = (concat (map block_texts (content_blocks st)) ++ pending_texts st)
         ++ map text (List.filter has_text paragraphs).
Proof.
  induction paragraphs as [|para ps IH]; intros st Hok; simpl.
  - split; [exact Hok|]. now rewrite app_nil_r.
  - destruct (IH (consolidate_step st para)) as [Hok' Ht].
    { now apply consolidate_step_ok. }
    split; [exact Hok'|]. rewrite Ht, consolidate_step_texts by exact Hok.
    rewrite <- app_assoc. f_equal. now destruct (has_text para).
Qed.

(** X12: nothing is lost and nothing is moved: the contents and the
    continuations of the blocks, read in order, are the texts of the
    paragraphs that are not blank. *)
Theorem consolidate_keeps_texts paragraphs :
  concat (map block_texts (consolidate_content_blocks paragraphs))
  = map text (List.filter has_text paragraphs).
Proof.
  unfold consolidate_content_blocks.
  set (st0 := {| content_blocks := []; current_block := None;
                 continuation_texts := [] |}).
  destruct (fold_consolidate paragraphs st0) as [Hok Ht]; [exact I|].
  rewrite flush_texts by exact Hok. exact Ht.
Qed.

(** *** The shape of the blocks *)

Definition numbered (b : ContentBlock) : Prop :=
  (numbering_type b = py "true" \/ numbering_type b = py "inferred")
  /\ truthy_opt (numbering b) = true.

Definition unnumbered (b : ContentBlock) : Prop :=
  numbering_type b = py "none" /\ numbering b = Some [] /\ cb_level b = None.

(** Block [k] has index [k]; it carries a numbering, or it is the first
    block. *)
Definition block_ok (k : nat) (b : ContentBlock) : Prop :=
  cb_index b = k /\ (numbered b \/ (k = 0 /\ unnumbered b)).

Definition blocks_ok (blocks : list ContentBlock) : Prop :=
  forall k b, blocks !! k = Some b -> block_ok k b.

Definition shape_ok (st : Consolidation) : Prop :=
  blocks_ok (content_blocks st)
  /\ match current_block st with
     | Some b => block_ok (length (content_blocks st)) b
     | None => content_blocks st = []
     end.

Lemma block_ok_with k b texts :
  block_ok k b -> block_ok k (with_continuations b texts).
Proof. destruct texts; [easy|]. unfold block_ok, numbered, unnumbered. easy. Qed.

Lemma blocks_ok_snoc blocks b :
  blocks_ok blocks -> block_ok (length blocks) b -> blocks_ok (blocks ++ [b]).
Proof.
  intros H Hb k b' Hk. apply lookup_app_Some in Hk as [Hk|[Hge Hk]].
  - now apply H.
  - apply list_lookup_singleton_Some in Hk as [Hi ->].
    replace k with (length blocks) by lia. exact Hb.
Qed.

Lemma flush_ok st : shape_ok st -> blocks_ok (flush st).
Proof.
  unfold shape_ok, flush. intros [H Hc].
  destruct (current_block st) as [b|]; [|exact H].
  apply blocks_ok_snoc; [exact H|]. now apply block_ok_with.
Qed.

Lemma numbering_truthy para :
  truthy_opt (py_or (list_number para) (inferred_number para)) = true ->
  truthy_opt (if truthy (list_number para) then Some (list_number para)
              else inferred_number para) = true.
Proof.
  unfold py_or. destruct (truthy (list_number para)) eqn:E; [|easy].
  intros _. exact E.
Qed.

Lemma consolidate_step_shape st para :
  shape_ok st -> shape_ok (consolidate_step st para).
Proof.
  intros Hs. unfold consolidate_step.
  destruct (negb (truthy (strip (text para)))); [exact Hs|].
  destruct (truthy_opt (py_or _ _)) eqn:En.
  - split; cbn [content_blocks current_block]; [now apply flush_ok|].
    split; [reflexivity|]. left. split.
    + cbn [numbering_type]. destruct (truthy (list_number para)); auto.
    + cbn [numbering]. now apply numbering_truthy.
  - destruct Hs as [Hb Hc].
    destruct (current_block st) as [b|] eqn:E.
    + split; [exact Hb|]. cbn [content_blocks current_block]. exact Hc.
    + split; [exact Hb|]. cbn [content_blocks current_block]. rewrite Hc.
      split; [reflexivity|]. right. split; [reflexivity|].
      unfold unnumbered. auto.
Qed.

Lemma fold_shape paragraphs : forall st,
  shape_ok st -> shape_ok (fold_left consolidate_step paragraphs st).
Proof.
  induction paragraphs as [|para ps IH]; intros st H; simpl; [exact H|].
  apply IH. now apply consolidate_step_shape.
Qed.

(** X13: the block at position [k] has index [k]; only the first block can be
    without numbering (type "none"), every later block has a non-empty
    numbering of type "true" or "inferred". *)
Theorem consolidate_shape paragraphs k b :
  consolidate_content_blocks paragraphs !! k = Some b ->
  cb_index b = k
  /\ (((numbering_type b = py "true" \/ numbering_type b = py "inferred")
       /\ truthy_opt (numbering b) = true)
      \/ (k = 0 /\ numbering_type b = py "none" /\ numbering b = Some []
          /\ cb_level b = None)).
Proof.
  unfold consolidate_content_blocks. intros H.
  assert (H0 : shape_ok {| content_blocks := []; current_block := None;
                           continuation_texts := [] |}).
  { split; [|reflexivity]. intros j b0 Hj. simpl in Hj. now rewrite lookup_nil in Hj. }
  exact (flush_ok _ (fold_shape paragraphs _ H0) k b H).
Qed.

End Consolidation.

(** ** [determine_level] on the cleaned token *)

Lemma star_greedy_found f s (k : str -> option Match) :
  found (star_greedy f s k)
  = match s with
    | c :: t => (f c && found (star_greedy f t k)) || found (k s)
    | [] => found (k s)
    end.
Proof.
  destruct s as [|c t]; [reflexivity|]. cbn [star_greedy].
  destruct (f c); [|reflexivity]. cbn [andb].
  now destruct (star_greedy f t k).
Qed.

(** The last character of [w] is the digit zero. *)
Definition ends_zero (w : str) : bool :=
  match last w with Some c => Ascii.eqb c "0" | None => false end.

Lemma zero_digit c : Ascii.eqb c "0" = true -> is_digit c = true.
Proof. intros H. apply Ascii.eqb_eq in H. now subst. Qed.

Lemma no_newline_cons c t :
  no_newline (c :: t) = true ->
  negb (Ascii.eqb c newline) = true /\ no_newline t = true.
Proof. unfold no_newline. simpl. apply andb_true_iff. Qed.

(** [0$] after the digits. *)
Lemma zero_to_end input t :
  no_newline t = true ->
  found (rmatch false input (One (Lit "0") >> Eol) t [] accept)
  = match t with [c] => Ascii.eqb c "0" | _ => false end.
Proof.
  intros Hn. destruct t as [|c u]; [reflexivity|].
  rewrite rmatch_seq, rmatch_one.
  change (class_has false (Lit "0") c) with (Ascii.eqb c "0").
  destruct (Ascii.eqb c "0"); [|now destruct u].
  destruct u as [|x u]; [reflexivity|].
  apply no_newline_cons in Hn as [_ Hn]. apply no_newline_cons in Hn as [Hx _].
  now rewrite eol_none.
Qed.

Lemma digits_then_zero input t :
  no_newline t = true ->
  found (star_greedy is_digit t
           (fun t' => rmatch false input (One (Lit "0") >> Eol) t' [] accept))
  = forallb is_digit t && ends_zero t.
Proof.
  induction t as [|c u IH]; intros Hn; [reflexivity|].
  rewrite star_greedy_found, zero_to_end by exact Hn.
  apply no_newline_cons in Hn as [_ Hn]. rewrite (IH Hn).
  unfold ends_zero. cbn [forallb]. destruct u as [|x u].
  - cbn [last forallb andb]. rewrite andb_false_r, andb_true_r. cbn [orb].
    destruct (Ascii.eqb c "0") eqn:E; [|now rewrite andb_false_r].
    now rewrite (zero_digit c E).
  - rewrite orb_false_r. change (last (c :: x :: u)) with (last (x :: u)).
    now rewrite andb_assoc.
Qed.

(** [^\d+0$] *)
Lemma matches_digits_zero w :
  no_newline w = true ->
  matches false (Bol >> Plus Digit >> One (Lit "0") >> Eol) w
  = all_of is_digit w && (2 <=? length w)%nat && ends_zero w.
Proof.
  intros Hn. rewrite matches_anchored, rmatch_seq.
  destruct w as [|c t]; [reflexivity|].
  rewrite rmatch_plus_cons. change (class_has false Digit) with is_digit.
  apply no_newline_cons in Hn as [_ Hn].
  unfold all_of. cbn [truthy forallb andb].
  destruct (is_digit c); [|reflexivity]. cbn [andb].
  rewrite (digits_then_zero _ t Hn).
  destruct t as [|x u]; [now rewrite andb_false_r|].
  cbn [length Nat.leb]. rewrite andb_true_r. reflexivity.
Qed.

Lemma plus_to_end ic input K f w :
  (forall c, class_has ic K c = f c) ->
  no_newline w = true ->
  found (rmatch ic input (Plus K >> Eol) w [] accept) = all_of f w.
Proof.
  intros Hf Hn. rewrite rmatch_seq. destruct w as [|c t]; [reflexivity|].
  rewrite rmatch_plus_cons, Hf. unfold all_of. cbn [truthy forallb andb].
  destruct (f c); [|reflexivity]. cbn [andb].
  apply run_to_end; [exact Hf|]. now apply no_newline_cons in Hn as [_ ?].
Qed.

Lemma digits_then_digits input t :
  no_newline t = true ->
  found (star_greedy is_digit t
           (fun t' => rmatch false input (Plus Digit >> Eol) t' [] accept))
  = all_of is_digit t.
Proof.
  induction t as [|c u IH]; intros Hn; [reflexivity|].
  rewrite star_greedy_found.
  rewrite (plus_to_end false input Digit is_digit) by (easy || exact Hn).
  apply no_newline_cons in Hn as [_ Hn]. rewrite (IH Hn).
  unfold all_of. cbn [truthy forallb andb].
  destruct (is_digit c); [|reflexivity]. cbn [andb].
  destruct u; [reflexivity|]. cbn [truthy andb]. apply orb_diag.
Qed.

(** [^\d+\d+$] *)
Lemma matches_digits_digits w :
  no_newline w = true ->
  matches false (Bol >> Plus Digit >> Plus Digit >> Eol) w
  = all_of is_digit w && (2 <=? length w)%nat.
Proof.
  intros Hn. rewrite matches_anchored, rmatch_seq.
  destruct w as [|c t]; [reflexivity|].
  rewrite rmatch_plus_cons. change (class_has false Digit) with is_digit.
  apply no_newline_cons in Hn as [_ Hn].
  unfold all_of. cbn [truthy forallb andb].
  destruct (is_digit c); [|reflexivity]. cbn [andb].
  rewrite (digits_then_digits _ t Hn). unfold all_of.
  destruct t as [|x u]; [reflexivity|].
  cbn [truthy andb length Nat.leb]. now rewrite andb_true_r.
Qed.

(** [determine_level] without the regular expressions, on the token
    stripped of its non-word characters. *)
Definition level_of_clean (w : str) : option Z :=
  if all_of is_digit w && (2 <=? length w)%nat && ends_zero w then Some 0%Z
  else if all_of is_digit w && (2 <=? length w)%nat then Some 1%Z
  else if all_of is_upper w then Some 2%Z
  else if all_of is_digit w then Some 3%Z
  else if all_of is_lower w then Some 4%Z
  else if all_of is_roman w then Some 5%Z
  else None.

Lemma determine_level_clean numbering :
  determine_level numbering = level_of_clean (List.filter is_word numbering).
Proof.
  unfold determine_level, level_of_clean. rewrite re_sub_not_word.
  pose proof (filter_word_no_newline numbering) as Hn.
  generalize dependent (List.filter is_word numbering). intros w Hn.
  rewrite matches_digits_zero, matches_digits_digits by exact Hn.
  rewrite (matches_run false (Range "A" "Z") is_upper) by (easy || exact Hn).
  rewrite (matches_run false Digit is_digit) by (easy || exact Hn).
  rewrite (matches_run false (Range "a" "z") is_lower) by (easy || exact Hn).
  rewrite (matches_run true (OneOf roman) is_roman) by (easy || exact Hn).
  reflexivity.
Qed.

Lemma all_of_disjoint (f g : ascii -> bool) w :
  (forall c, f c = true -> g c = false) ->
  all_of f w = true -> all_of g w = false.
Proof.
  intros H Hw. apply all_of_cons in Hw as (c & t & -> & Hc & _).
  unfold all_of. cbn [truthy forallb andb]. now rewrite (H c Hc).
Qed.

Lemma upper_not_lower c : is_upper c = true -> is_lower c = false.
Proof. ascii_cases c; vm_compute; congruence. Qed.

Lemma roman_letter c : is_roman c = true -> is_letter c = true.
Proof. apply ic_roman_letter. Qed.

(** X17: on a token of characters with code points below 256,
    [determine_level] reads the word characters only.  A run of two or more
    digits gets level 0 when it ends in 0 and level 1 otherwise, a single
    digit level 3; the letters A-Z give level 2 and the letters a-z
    level 4, whatever the letters; level 5 is left for roman letters in
    mixed case; any other token has no level. *)
Theorem determine_level_by_form numbering :
  let w := List.filter is_word numbering in
  (all_of is_digit w = true ->
   determine_level numbering
   = Some (if (length w <? 2)%nat then 3 else if ends_zero w then 0 else 1)%Z)
  /\ (all_of is_upper w = true -> determine_level numbering = Some 2%Z)
  /\ (all_of is_lower w = true -> determine_level numbering = Some 4%Z)
  /\ (all_of is_roman w = true -> all_of is_upper w = false ->
      all_of is_lower w = false -> determine_level numbering = Some 5%Z)
  /\ (all_of is_digit w = false -> all_of is_upper w = false ->
      all_of is_lower w = false -> all_of is_roman w = false ->
      determine_level numbering = None).
Proof.
  intros w. rewrite determine_level_clean. fold w. unfold level_of_clean.
  assert (Hdu : all_of is_digit w = true -> all_of is_upper w = false).
  { apply all_of_disjoint. intros c Hc.
    destruct (is_upper c) eqn:E; [|reflexivity].
    apply upper_not_digit in E. congruence. }
  assert (Hud : all_of is_upper w = true -> all_of is_digit w = false)
    by (apply all_of_disjoint, upper_not_digit).
  assert (Hld : all_of is_lower w = true -> all_of is_digit w = false)
    by (apply all_of_disjoint, lower_not_digit).
  assert (Hlu : all_of is_lower w = true -> all_of is_upper w = false)
    by (apply all_of_disjoint, lower_not_upper).
  assert (Hrd : all_of is_roman w = true -> all_of is_digit w = false)
    by (apply all_of_disjoint, roman_not_digit).
  repeat split.
  - intros H. rewrite H, (Hdu H), Nat.ltb_antisym. cbn [andb].
    destruct (2 <=? length w)%nat; cbn [negb andb]; [|reflexivity].
    now destruct (ends_zero w).
  - intros H. now rewrite H, (Hud H).
  - intros H. now rewrite H, (Hld H), (Hlu H).
  - intros H Hu Hl. now rewrite H, Hu, Hl, (Hrd H).
  - intros Hd Hu Hl Hr. now rewrite Hd, Hu, Hl, Hr.
Qed.

(** X18: a token that gets a level from [determine_level] passes
    [looks_like_numbering]. *)
Theorem leveled_token_looks_like_numbering numbering :
  determine_level numbering <> None -> looks_like_numbering numbering = true.
Proof.
  rewrite determine_level_clean. unfold looks_like_numbering.
  rewrite re_sub_not_word.
  pose proof (filter_word_no_newline numbering) as Hn.
  generalize dependent (List.filter is_word numbering). intros w Hn.
  unfold looks_like_patterns. cbn [existsb].
  rewrite (matches_run true Digit is_digit) by (apply ic_digit || exact Hn).
  rewrite (matches_run true (Range "A" "Z") is_letter)
    by (apply ic_upper_range || exact Hn).
  unfold level_of_clean.
  destruct (all_of is_digit w) eqn:Ed; [reflexivity|]. cbn [andb orb].
  assert (Hl : forall f, (forall c, f c = true -> is_letter c = true) ->
                 all_of f w = true -> all_of is_letter w = true)
    by (intros f Hf; now apply all_of_weaken).
  destruct (all_of is_upper w) eqn:Eu.
  { now rewrite (Hl is_upper upper_letter Eu). }
  destruct (all_of is_lower w) eqn:El.
  { now rewrite (Hl is_lower lower_letter El). }
  destruct (all_of is_roman w) eqn:Er.
  { now rewrite (Hl is_roman roman_letter Er). }
  intros H. now elim H.
Qed.

Lemma leveled_token_looks_like_numbering_witness :
  looks_like_numbering (py "(iv)") = true.
Proof.
  apply (leveled_token_looks_like_numbering (py "(iv)")). discriminate.
Defined.

(** ** Extraction from a line *)

Lemma startswith_drop s sep :
  startswith s sep = true -> s = sep ++ drop (length sep) s.
Proof.
  revert s. induction sep as [|x sep IH]; intros s; [reflexivity|].
  destruct s as [|c s]; [discriminate|]. simpl. intros H.
  apply andb_true_iff in H as [Hc H]. apply Ascii.eqb_eq in Hc. subst x.
  f_equal. now apply IH.
Qed.

(** [partition] cuts at an occurrence of the separator. *)
Lemma partition_sound sep s a b :
  partition sep s = Some (a, b) -> s = a ++ sep ++ b.
Proof.
  revert a. induction s as [|c t IH]; intros a; cbn [partition].
  - destruct (startswith [] sep) eqn:E; [|discriminate].
    intros [= <- <-]. now apply startswith_drop.
  - destruct (startswith (c :: t) sep) eqn:E.
    + intros [= <- <-]. now apply startswith_drop.
    + destruct (partition sep t) as [[a' b']|]; [|discriminate].
      intros [= <- <-]. simpl. f_equal. now apply IH.
Qed.

Lemma split_on_sound seps line numbering content :
  split_on seps line = Some (numbering, content) ->
  exists sep a b,
    sep ∈ seps /\ line = a ++ sep ++ b
    /\ numbering = strip a /\ content = strip b
    /\ looks_like_numbering numbering = true.
Proof.
  induction seps as [|sep seps IH]; [discriminate|]. cbn [split_on].
  assert (Hrec : split_on seps line = Some (numbering, content) ->
                 exists sep' a b,
                   sep' ∈ sep :: seps /\ line = a ++ sep' ++ b
                   /\ numbering = strip a /\ content = strip b
                   /\ looks_like_numbering numbering = true).
  { intros H. destruct (IH H) as (s' & a & b & Hin & Hrest).
    exists s', a, b. split; [now right|exact Hrest]. }
  destruct (contains sep line); [|exact Hrec].
  unfold split1. destruct (partition sep line) as [[a b]|] eqn:Ep;
    [|exact Hrec].
  destruct (looks_like_numbering (strip a)) eqn:El; [|exact Hrec].
  intros [= <- <-]. exists sep, a, b.
  split; [left|]. split; [now apply partition_sound|]. auto.
Qed.

Lemma match_patterns_cons r rs line :
  match_patterns (r :: rs) line
  = match re_match true r line with
    | Some m => Some (group m 1, group m 2)
    | None => match_patterns rs line
    end.
Proof. reflexivity. Qed.

(** A match of [^(token)\s+(.+)]: the two groups, with whitespace between
    them, open the line. *)
Lemma with_content_sound tok line m :
  (forall w g, denotes true tok w g -> g = []) ->
  re_match true (with_content tok) line = Some m ->
  exists numbering ws content,
    groups m = [numbering; content]
    /\ line = numbering ++ ws ++ content ++ rest m
    /\ all_of is_space ws = true /\ truthy content = true.
Proof.
  intros Htok H. apply re_match_denotes in H as (w & Hl & Hd).
  unfold with_content in Hd. cbn [denotes] in Hd.
  destruct Hd as (w1 & w2 & g1 & g2 & -> & Hg & [-> ->] & Hd).
  destruct Hd as (w3 & w4 & g3 & g4 & -> & -> & (g & Ht & ->) & Hd).
  destruct Hd as (w5 & w6 & g5 & g6 & -> & -> & [Hs ->] & (g' & [Ha ->] & ->)).
  rewrite (Htok w3 g Ht) in Hg. exists w3, w5, w6.
  split; [exact Hg|]. split; [now rewrite Hl, <- !app_assoc|].
  split.
  - unfold all_of in *. apply andb_true_iff in Hs as [Hs1 Hs2].
    rewrite Hs1. cbn [andb]. apply forallb_forall. intros c Hc.
    rewrite <- ic_space. revert c Hc. now apply forallb_forall.
  - unfold all_of in Ha. now apply andb_true_iff in Ha as [? _].
Qed.

Ltac no_groups :=
  let w := fresh "w" in let g := fresh "g" in let H := fresh "H" in
  intros w g H; cbn [denotes] in H; break; subst; reflexivity.

(** X19: [extract_numbering_from_line] gives both parts or none.  When it
    gives them, either the line is cut at one of the separators, the two
    sides trimmed and the left one numbering-like; or the line opens with
    the numbering, whitespace and the content. *)
Theorem extract_numbering_splits_line line :
  extract_numbering_from_line line = (None, None)
  \/ exists numbering content,
       extract_numbering_from_line line = (Some numbering, Some content)
       /\ ((exists sep a b,
              sep ∈ separators /\ line = a ++ sep ++ b
              /\ numbering = strip a /\ content = strip b
              /\ looks_like_numbering numbering = true)
           \/ (exists ws tail,
                 all_of is_space ws = true /\ truthy content = true
                 /\ line = numbering ++ ws ++ content ++ tail)).
Proof.
  unfold extract_numbering_from_line.
  destruct (split_on separators line) as [[n c]|] eqn:Es.
  { right. exists n, c. split; [reflexivity|]. left.
    now apply split_on_sound. }
  unfold patterns.
  repeat (rewrite match_patterns_cons;
          destruct (re_match true _ line) as [m|] eqn:E;
          [apply with_content_sound in E as (n & ws & c & Hg & Hl & Hw & Hc);
           [|no_groups];
           right; exists n, c; unfold group; rewrite Hg;
           split; [reflexivity|]; right; exists ws, (rest m); auto|clear E]).
  now left.
Qed.

(** ** Extraction from a cleaned content, exactly *)


















Section Contextual.
Import PyStr Re HybridDetector.

(** ** Contextual levels (flexible_list_analyzer.py) *)

Import FlexibleListAnalyzer.

(** The level that one entry of the stack gives. *)
Definition level_after (numbering prev_numbering : str) (prev_level : Z) : Z :=
  if negb (truthy numbering) || negb (truthy prev_numbering) then 0%Z
  else if _is_sublevel_pattern numbering prev_numbering
  then (prev_level + 1)%Z
  else if _is_sibling_pattern numbering prev_numbering then prev_level
  else Z.max 0 (prev_level - 1).

(** The loop over the reversed stack returns at its first entry. *)
Lemma infer_from_stack_first numbering prev_numbering prev_level rest current :
  infer_from_stack numbering ((prev_numbering, prev_level) :: rest) current
  = level_after numbering prev_numbering prev_level.
Proof.
  cbn [infer_from_stack]. unfold level_after, _analyze_numbering_relationship.
  destruct (negb (truthy numbering) || negb (truthy prev_numbering));
    [reflexivity|].
  destruct (_is_sublevel_pattern numbering prev_numbering); [reflexivity|].
  unfold _is_parent_pattern.
  destruct (_is_sibling_pattern numbering prev_numbering) eqn:E;
    [reflexivity|].
  unfold _is_sibling_pattern in E. rewrite E. reflexivity.
Qed.

Lemma infer_level_last block context stack prev_numbering prev_level :
  numbering_stack context = stack ++ [(prev_numbering, prev_level)] ->
  _infer_level_from_context block context
  = level_after (EnhancedListAnalyzer.or_empty (numbering_pattern block))
      prev_numbering prev_level.
Proof.
  intros H. unfold _infer_level_from_context. rewrite H.
  destruct (stack ++ [(prev_numbering, prev_level)]) eqn:E.
  - now destruct stack.
  - rewrite <- E, rev_app_distr. apply infer_from_stack_first.
Qed.

Lemma level_after_range numbering prev_numbering prev_level :
  (0 <= prev_level)%Z ->
  (0 <= level_after numbering prev_numbering prev_level)%Z
  /\ (prev_level - 1 <= level_after numbering prev_numbering prev_level
      \/ level_after numbering prev_numbering prev_level = 0)%Z
  /\ (level_after numbering prev_numbering prev_level <= prev_level + 1)%Z.
Proof.
  intros H. unfold level_after.
  repeat match goal with |- context [if ?c then _ else _] => destruct c end;
    lia.
Qed.

Lemma level_after_bounds numbering prev_numbering prev_level :
  truthy numbering = true -> truthy prev_numbering = true ->
  (0 <= prev_level)%Z ->
  (Z.max 0 (prev_level - 1) <= level_after numbering prev_numbering prev_level
   <= prev_level + 1)%Z.
Proof.
  intros H1 H2 H. unfold level_after. rewrite H1, H2. cbn [negb orb].
  repeat match goal with |- context [if ?c then _ else _] => destruct c end;
    lia.
Qed.

(** The levels along the blocks: a list item that follows a block which is
    no list item is at level 0, and a list item that follows a list item is
    at most one level away from it. *)
Fixpoint levels_chain (prev : option Z) (out : list FlexibleBlock) : Prop :=
  match out with
  | [] => True
  | b :: rest =>
      if is_list_item b then
        exists l, level b = Some l
                  /\ match prev with
                     | None => l = 0%Z
                     | Some l' => (Z.max 0 (l' - 1) <= l <= l' + 1)%Z
                     end
                  /\ levels_chain (Some l) rest
      else levels_chain None rest
  end.

Definition context_ok (context : ListContext) (prev : option Z) : Prop :=
  match prev with
  | None => numbering_stack context = []
  | Some l' =>
      (0 <= l')%Z
      /\ exists stack p, numbering_stack context = stack ++ [(p, l')]
                         /\ truthy p = true
  end.

(** A list item is a block with a numbering string, as in the blocks of
    [_create_flexible_blocks]. *)
Definition numbered_items (blocks : list FlexibleBlock) : Prop :=
  Forall (fun b => is_list_item b = truthy_opt (numbering_pattern b)) blocks.

Lemma assign_from_chain blocks : forall context prev,
  numbered_items blocks -> context_ok context prev ->
  levels_chain prev (assign_from context blocks).
Proof.
  induction blocks as [|b rest IH]; intros context prev Hn Hc; [exact I|].
  apply Forall_cons in Hn as [Hb Hn]. cbn [assign_from].
  unfold assign_step. destruct (is_list_item b) eqn:Eb; cbn [negb].
  - destruct (numbering_pattern b) as [n|] eqn:En; [|discriminate].
    cbn [truthy_opt] in Hb. rewrite <- Hb. cbn [levels_chain is_list_item set_level].
    rewrite Eb. eexists. split; [reflexivity|].
    assert (Hl : match prev with
                 | None => _infer_level_from_context b context = 0%Z
                 | Some l' =>
                     (Z.max 0 (l' - 1) <= _infer_level_from_context b context
                      <= l' + 1)%Z
                 end).
    { destruct prev as [l'|]; cbn [context_ok] in Hc.
      - destruct Hc as (H0 & stack & p & Hs & Hp).
        rewrite (infer_level_last b context stack p l' Hs), En.
        now apply level_after_bounds.
      - unfold _infer_level_from_context. now rewrite Hc. }
    split; [exact Hl|]. apply IH; [exact Hn|]. cbn [context_ok numbering_stack].
    split; [destruct prev; lia|]. eauto.
  - cbn [levels_chain]. rewrite Eb. apply IH; [exact Hn|reflexivity].
Qed.

Lemma chain_lookup out : forall prev i b,
  levels_chain prev out -> out !! i = Some b -> is_list_item b = true ->
  exists l,
    level b = Some l
    /\ match i with
       | 0 => match prev with
              | None => l = 0%Z
              | Some l' => (Z.max 0 (l' - 1) <= l <= l' + 1)%Z
              end
       | S j =>
           exists b', out !! j = Some b'
             /\ if is_list_item b'
                then exists l', level b' = Some l'
                                /\ (Z.max 0 (l' - 1) <= l <= l' + 1)%Z
                else l = 0%Z
       end.
Proof.
  induction out as [|b0 rest IH]; intros prev i b Hc Hi Hb; [discriminate|].
  cbn [levels_chain] in Hc. destruct i as [|[|j]].
  - injection Hi as ->. rewrite Hb in Hc. destruct Hc as (l & Hl & Hp & _).
    eauto.
  - cbn in Hi. destruct (is_list_item b0) eqn:E0.
    + destruct Hc as (l0 & Hl0 & _ & Hc).
      destruct (IH (Some l0) 0 b Hc Hi Hb) as (l & Hl & Hp).
      exists l. split; [exact Hl|]. exists b0. split; [reflexivity|].
      rewrite E0. eauto.
    + destruct (IH None 0 b Hc Hi Hb) as (l & Hl & Hp).
      exists l. split; [exact Hl|]. exists b0. split; [reflexivity|].
      now rewrite E0.
  - assert (Hc' : exists prev', levels_chain prev' rest).
    { destruct (is_list_item b0); [|eauto].
      destruct Hc as (l0 & _ & _ & Hc). eauto. }
    destruct Hc' as (prev' & Hc').
    exact (IH prev' (S j) b Hc' Hi Hb).
Qed.

Lemma created_numbered paragraphs :
  numbered_items (_create_flexible_blocks paragraphs).
Proof.
  unfold numbered_items, _create_flexible_blocks. apply Forall_map.
  apply Forall_forall. intros para _. reflexivity.
Qed.

(** X21: in the blocks of the flexible analysis every list item has a level,
    never negative; the first block and a list item after a block that is
    no list item are at level 0; a list item after a list item is at most
    one level away from it. *)
Theorem contextual_levels paragraphs i b :
  let out := _assign_levels_contextually (_create_flexible_blocks paragraphs) in
  out !! i = Some b -> is_list_item b = true ->
  exists l,
    level b = Some l /\ (0 <= l)%Z
    /\ match i with
       | 0 => l = 0%Z
       | S j =>
           exists b', out !! j = Some b'
             /\ if is_list_item b'
                then exists l', level b' = Some l'
                                /\ (l' - 1 <= l <= l' + 1)%Z
                else l = 0%Z
       end.
Proof.
  intros out Hi Hb.
  assert (Hc : levels_chain None out).
  { apply assign_from_chain; [apply created_numbered|reflexivity]. }
  destruct (chain_lookup out None i b Hc Hi Hb) as (l & Hl & Hp).
  exists l. split; [exact Hl|]. destruct i as [|j].
  - split; [lia|exact Hp].
  - destruct Hp as (b' & Hb' & Hp). destruct (is_list_item b') eqn:E.
    + destruct Hp as (l' & Hl' & Hp). split; [lia|].
      exists b'. split; [exact Hb'|]. rewrite E. exists l'. split; [exact Hl'|lia].
    + split; [lia|]. exists b'. split; [exact Hb'|]. now rewrite E.
Qed.

(** *** A run of two-level decimals *)

Definition two_level (n : str) : Prop :=
  exists N M, all_of is_digit N = true /\ all_of is_digit M = true
              /\ n = N ++ py "." ++ M.

Lemma star_greedy_accept f s caps :
  found (star_greedy f s (fun t => accept t caps)) = true.
Proof. now rewrite (star_greedy_last f s _ (Build_Match caps (drop_while f s))). Qed.

Lemma matches_decimal N rest :
  all_of is_digit N = true ->
  matches false decimal_pattern (N ++ py "." ++ rest) = true.
Proof.
  intros HN. unfold decimal_pattern.
  rewrite matches_digits; [reflexivity|exact HN|reflexivity|].
  intros c t Hc. cbn. now rewrite (digit_not_period c Hc).
Qed.

Lemma matches_two_level N M :
  all_of is_digit N = true -> all_of is_digit M = true ->
  matches false (Bol >> Plus Digit >> One (Lit ".") >> Plus Digit)
    (N ++ py "." ++ M) = true.
Proof.
  intros HN HM.
  rewrite matches_digits; [|exact HN|reflexivity|].
  2:{ intros c t Hc. cbn. now rewrite (digit_not_period c Hc). }
  rewrite after_period.
  apply all_of_cons in HM as (m & M0 & -> & Hm & _).
  rewrite rmatch_plus_cons. change (class_has false Digit) with is_digit.
  rewrite Hm. apply star_greedy_accept.
Qed.

Lemma sublevel_two_level current previous :
  two_level current -> two_level previous ->
  _is_sublevel_pattern current previous = true.
Proof.
  intros (N & M & HN & HM & ->) (N' & M' & HN' & HM' & ->).
  unfold _is_sublevel_pattern, sublevel_patterns. cbn [existsb fst snd].
  now rewrite matches_decimal, matches_two_level.
Qed.

Lemma two_level_truthy n : two_level n -> truthy n = true.
Proof.
  intros (N & M & HN & _ & ->).
  apply all_of_cons in HN as (c & t & -> & _). reflexivity.
Qed.

Lemma level_after_two_level current previous lv :
  two_level current -> two_level previous ->
  level_after current previous lv = (lv + 1)%Z.
Proof.
  intros Hc Hp. unfold level_after.
  rewrite (two_level_truthy _ Hc), (two_level_truthy _ Hp).
  now rewrite sublevel_two_level.
Qed.

Definition decimal_context (context : ListContext) (k : nat) : Prop :=
  match k with
  | 0 => numbering_stack context = []
  | S j =>
      exists stack p, numbering_stack context = stack ++ [(p, Z.of_nat j)]
                      /\ two_level p
  end.

Lemma assign_from_decimal paragraphs : forall context k i b,
  Forall (fun para => two_level (p_list_number para)) paragraphs ->
  decimal_context context k ->
  assign_from context (_create_flexible_blocks paragraphs) !! i = Some b ->
  level b = Some (Z.of_nat (k + i)).
Proof.
  induction paragraphs as [|para ps IH]; intros context k i b Hall Hc Hi;
    [discriminate|].
  apply Forall_cons in Hall as [Hp Hall].
  pose proof (two_level_truthy _ Hp) as Ht.
  cbn [_create_flexible_blocks map assign_from] in Hi.
  unfold assign_step in Hi.
  cbn [flexible_block is_list_item numbering_pattern num_fmt] in Hi.
  unfold py_or in Hi. rewrite Ht in Hi. cbn [truthy_opt negb] in Hi.
  rewrite Ht in Hi.
  set (block := flexible_block para) in *.
  assert (Hl : _infer_level_from_context block context = Z.of_nat k).
  { destruct k as [|j]; cbn [decimal_context] in Hc.
    - unfold _infer_level_from_context. now rewrite Hc.
    - destruct Hc as (stack & p & Hs & Hp').
      rewrite (infer_level_last block context stack p _ Hs).
      subst block. cbn [flexible_block numbering_pattern]. unfold py_or.
      rewrite Ht. cbn [EnhancedListAnalyzer.or_empty].
      rewrite level_after_two_level by assumption. lia. }
  destruct i as [|i].
  - injection Hi as <-. cbn [set_level level]. rewrite Hl. f_equal. lia.
  - cbn [lookup list_lookup] in Hi.
    replace (k + S i) with (S k + i) by lia.
    eapply IH; [exact Hall| |exact Hi].
    cbn [decimal_context numbering_stack]. rewrite Hl. eauto.
Qed.

(** X22: each numbering of the form N.M counts as a sublevel of the N.M
    before it, so a run of such paragraphs is nested one level deeper at
    every step: the paragraph at position [i] gets level [i]. *)
Theorem decimal_run_nests paragraphs i b :
  Forall (fun para => two_level (p_list_number para)) paragraphs ->
  _assign_levels_contextually (_create_flexible_blocks paragraphs) !! i
    = Some b ->
  level b = Some (Z.of_nat i).
Proof.
  intros Hall Hi.
  exact (assign_from_decimal paragraphs empty_context 0 i b Hall eq_refl Hi).
Qed.

(** X20: the level inferred for a list item is read off the last entry of
    the numbering stack alone: older entries and the current level of the
    context are never used, and the result is one of four values. *)
Theorem infer_level_reads_last_entry block context context' stack stack'
        prev_numbering prev_level :
  numbering_stack context = stack ++ [(prev_numbering, prev_level)] ->
  numbering_stack context' = stack' ++ [(prev_numbering, prev_level)] ->
  _infer_level_from_context block context
  = _infer_level_from_context block context'
  /\ (_infer_level_from_context block context = (prev_level + 1)%Z
      \/ _infer_level_from_context block context = prev_level
      \/ _infer_level_from_context block context = Z.max 0 (prev_level - 1)
      \/ _infer_level_from_context block context = 0%Z).
Proof.
  intros H H'.
  rewrite (infer_level_last block context stack _ _ H).
  rewrite (infer_level_last block context' stack' _ _ H').
  split; [reflexivity|]. unfold level_after.
  repeat match goal with |- context [if ?c then _ else _] => destruct c end;
    auto.
Qed.

Lemma infer_level_reads_last_entry_witness :
  let block := flexible_block
                 {| p_index := 1; p_list_number := py "a."; p_inferred_number := None;
                    p_text := py "a. Pipe"; p_combined := py "a. Pipe";
                    p_level := None; p_deduction_method := None |} in
  let context := {| current_level := 7;
                    numbering_stack := [(py "A.", 4%Z); (py "1.", 2%Z)];
                    format_stack := [] |} in
  let context' := {| current_level := 0;
                     numbering_stack := [(py "1.", 2%Z)];
                     format_stack := [] |} in
  _infer_level_from_context block context
  = _infer_level_from_context block context'
  /\ (_infer_level_from_context block context = (2 + 1)%Z
      \/ _infer_level_from_context block context = 2%Z
      \/ _infer_level_from_context block context = Z.max 0 (2 - 1)
      \/ _infer_level_from_context block context = 0%Z).
Proof.
  intros block context context'.
  apply (infer_level_reads_last_entry block context context'
           [(py "A.", 4%Z)] [] (py "1.") 2); reflexivity.
Defined.

(** *** Groups *)

Import EnhancedPipeline.

Lemma assign_from_items blocks : forall context,
  Forall2 (fun b' b => is_list_item b' = is_list_item b)
    (assign_from context blocks) blocks.
Proof.
  induction blocks as [|b rest IH]; intros context; [constructor|].
  cbn [assign_from]. destruct (assign_step context b) as [context' b'] eqn:E.
  constructor; [|apply IH].
  unfold assign_step in E. destruct (is_list_item b) eqn:Eb; cbn [negb] in E.
  - destruct (numbering_pattern b) as [n|]; [destruct (truthy n)|];
      injection E as _ <-; exact Eb.
  - now injection E as _ <-.
Qed.

Lemma contextual_simulation out : forall blocks i (stF : ContextGrouping)
    (stE : Grouping) prev,
  Forall2 (fun f e => is_list_item f = EnhancedListAnalyzer.is_list_item e)
    out blocks ->
  levels_chain prev out ->
  FlexibleListAnalyzer.list_groups stF = EnhancedPipeline.list_groups stE ->
  FlexibleListAnalyzer.current_group stF = EnhancedPipeline.current_group stE ->
  group_level stF = prev ->
  (FlexibleListAnalyzer.current_group stF = [] -> prev = None) ->
  FlexibleListAnalyzer.list_groups (contextual_loop i out stF)
  = EnhancedPipeline.list_groups (group_loop i blocks stE)
  /\ FlexibleListAnalyzer.current_group (contextual_loop i out stF)
     = EnhancedPipeline.current_group (group_loop i blocks stE).
Proof.
  induction out as [|f out IH]; intros blocks i stF stE prev Hall Hc Hg Hcg Hl Hn.
  - apply Forall2_nil_inv_l in Hall. subst blocks. auto.
  - apply Forall2_cons_inv_l in Hall as (e & blocks' & Hfe & Hall & ->).
    cbn [contextual_loop group_loop]. cbn [levels_chain] in Hc.
    unfold contextual_step, group_step. rewrite <- Hfe.
    destruct (is_list_item f) eqn:Ef.
    + destruct Hc as (l & Hlv & Hb & Hc). rewrite Hlv, Hl.
      assert (Hfit : match prev with
                     | None => true
                     | Some current => (Z.abs (l - current) <=? 1)%Z
                     end = true).
      { destruct prev as [l'|]; [|reflexivity]. apply Z.leb_le. lia. }
      rewrite Hfit. apply (IH blocks' (S i) _ _ (Some l)); cbn; auto.
      * now rewrite Hcg.
      * intros H. now destruct (FlexibleListAnalyzer.current_group stF).
    + rewrite <- Hcg.
      destruct (FlexibleListAnalyzer.current_group stF) as [|x g] eqn:Eg.
      * rewrite <- Eg in Hcg.
        apply (IH blocks' (S i) _ _ None); auto.
        rewrite Hl. apply Hn. reflexivity.
      * apply (IH blocks' (S i) _ _ None); cbn; auto. now rewrite Hg.
Qed.

Lemma assign_from_created paragraphs : forall context,
  Forall2 (fun f e => is_list_item f = EnhancedListAnalyzer.is_list_item e)
    (assign_from context (_create_flexible_blocks paragraphs))
    (EnhancedListAnalyzer._enhance_blocks paragraphs).
Proof.
  induction paragraphs as [|para ps IH]; intros context; [constructor|].
  pose proof (assign_from_items (_create_flexible_blocks (para :: ps)) context)
    as H.
  cbn [_create_flexible_blocks map] in H.
  apply Forall2_cons_inv_r in H as (f & out & Hf & _ & Ho).
  cbn [_create_flexible_blocks EnhancedListAnalyzer._enhance_blocks map].
  rewrite Ho. constructor; [exact Hf|].
  cbn [assign_from] in Ho.
  destruct (assign_step context (flexible_block para)) as [context' b'].
  injection Ho as _ <-. apply IH.
Qed.

(** X23: after the contextual level assignment two list items in a row are
    never more than one level apart, so the "level change too big" branch of
    [_group_lists_contextually] is never taken: its groups are the runs of
    contiguous list items, the groups of [_group_lists]. *)
Theorem contextual_groups_are_runs paragraphs :
  _group_lists_contextually
    (_assign_levels_contextually (_create_flexible_blocks paragraphs))
  = _group_lists (EnhancedListAnalyzer._enhance_blocks paragraphs).
Proof.
  unfold _group_lists_contextually, _group_lists, _assign_levels_contextually.
  destruct (contextual_simulation
              (assign_from empty_context (_create_flexible_blocks paragraphs))
              (EnhancedListAnalyzer._enhance_blocks paragraphs) 0
              {| FlexibleListAnalyzer.list_groups := [];
                 FlexibleListAnalyzer.current_group := [];
                 group_level := None |}
              {| EnhancedPipeline.list_groups := [];
                 EnhancedPipeline.current_group := [] |} None)
    as [Hg Hc]; try reflexivity.
  - apply assign_from_created.
  - apply assign_from_chain; [apply created_numbered|reflexivity].
  - now rewrite Hg, Hc.
Qed.

End Contextual.

Section Runs.
Import PyStr Re HybridDetector.

(** ** Runs of list items and their identifiers *)

(** The identifiers that a counter gives to the runs of [true] in a list of
    flags: [k] runs were met so far, and [inrun] tells whether the last
    flag was [true]. *)
Fixpoint run_ids (k : nat) (inrun : bool) (flags : list bool)
  : list (option nat) :=
  match flags with
  | [] => []
  | true :: rest =>
      let k' := if inrun then k else S k in
      Some k' :: run_ids k' true rest
  | false :: rest => None :: run_ids k false rest
  end.

(** Position [j] is in the group number [m] (from 0). *)
Definition member (groups : list (list nat)) (m j : nat) : Prop :=
  exists g, groups !! m = Some g /\ j ∈ g.

Definition close (groups : list (list nat)) (current : list nat)
  : list (list nat) :=
  match current with
  | _ :: _ => groups ++ [current]
  | [] => groups
  end.

(** The grouping loop on the flags alone. *)
Fixpoint runs_loop (i : nat) (flags : list bool) (groups : list (list nat))
         (current : list nat) : list (list nat) :=
  match flags with
  | [] => close groups current
  | true :: rest => runs_loop (S i) rest groups (current ++ [i])
  | false :: rest => runs_loop (S i) rest (close groups current) []
  end.

Definition runs (flags : list bool) : list (list nat) :=
  runs_loop 0 flags [] [].

Lemma member_close_snoc groups current i m j :
  member (close groups (current ++ [i])) m j
  <-> member (close groups current) m j \/ (j = i /\ m = length groups).
Proof.
  unfold member, close.
  destruct (current ++ [i]) as [|x y] eqn:E; [now destruct current|].
  rewrite <- E. clear E x y. split.
  - intros (g & Hg & Hj). apply lookup_app_Some in Hg as [Hg|[Hge Hg]].
    + left. exists g. split; [|exact Hj].
      destruct current; [exact Hg|]. apply lookup_app_Some. now left.
    + apply list_lookup_singleton_Some in Hg as [Hm <-].
      apply elem_of_app in Hj as [Hj|Hj].
      * left. exists current. split; [|exact Hj].
        destruct current as [|c cs]; [now apply elem_of_nil in Hj|].
        apply lookup_app_Some. right. split; [lia|].
        replace (m - length groups) with 0 by lia. reflexivity.
      * apply list_elem_of_singleton in Hj. right. split; [exact Hj|lia].
  - intros [(g & Hg & Hj)|[-> ->]].
    + destruct current as [|c cs].
      * exists g. split; [|exact Hj]. apply lookup_app_Some. now left.
      * apply lookup_app_Some in Hg as [Hg|[Hge Hg]].
        -- exists g. split; [|exact Hj]. apply lookup_app_Some. now left.
        -- apply list_lookup_singleton_Some in Hg as [Hm <-].
           exists ((c :: cs) ++ [i]). split.
           ++ apply lookup_app_Some. right. split; [lia|].
              replace (m - length groups) with 0 by lia. reflexivity.
           ++ apply elem_of_app. now left.
    + exists (current ++ [i]). split.
      * apply lookup_app_Some. right. split; [lia|].
        now rewrite Nat.sub_diag.
      * apply elem_of_app. right. now apply list_elem_of_singleton.
Qed.

Definition nonempty (current : list nat) : bool :=
  match current with [] => false | _ :: _ => true end.

Lemma close_length groups current :
  length (close groups current)
  = if nonempty current then S (length groups) else length groups.
Proof.
  destruct current; [reflexivity|]. unfold close. cbn [nonempty].
  rewrite length_app. simpl. lia.
Qed.

(** The groups of the loop are the runs that the counter numbers. *)
Lemma runs_loop_ids flags : forall i groups current m j,
  member (runs_loop i flags groups current) m j
  <-> member (close groups current) m j
      \/ exists t,
           j = i + t
           /\ run_ids (length (close groups current)) (nonempty current) flags
                !! t = Some (Some (S m)).
Proof.
  induction flags as [|f rest IH]; intros i groups current m j.
  - cbn [runs_loop run_ids]. split; [now left|].
    intros [H|(t & _ & H)]; [exact H|]. now rewrite lookup_nil in H.
  - destruct f; cbn [runs_loop run_ids].
    + rewrite IH, member_close_snoc. rewrite !close_length.
      assert (Hne : nonempty (current ++ [i]) = true) by now destruct current.
      rewrite Hne.
      assert (Hk : (if nonempty current
                    then if nonempty current then S (length groups)
                         else length groups
                    else S (if nonempty current then S (length groups)
                            else length groups))
                   = S (length groups)) by now destruct (nonempty current).
      rewrite Hk. split.
      * intros [[H|[-> ->]]|(t & -> & H)].
        -- now left.
        -- right. exists 0. split; [lia|]. reflexivity.
        -- right. exists (S t). split; [lia|]. exact H.
      * intros [H|(t & -> & H)]; [now left; left|].
        destruct t as [|t].
        -- injection H as H. left. right. split; lia.
        -- right. exists t. split; [lia|]. exact H.
    + rewrite IH. cbn [close nonempty].
      rewrite close_length. split.
      * intros [H|(t & -> & H)]; [now left|].
        right. exists (S t). split; [lia|]. exact H.
      * intros [H|(t & -> & H)]; [now left|].
        destruct t as [|t]; [discriminate|].
        right. exists t. split; [lia|]. exact H.
Qed.

Lemma runs_ids flags m j :
  member (runs flags) m j <-> run_ids 0 false flags !! j = Some (Some (S m)).
Proof.
  unfold runs. rewrite runs_loop_ids. cbn [close nonempty length]. split.
  - intros [(g & Hg & _)|(t & -> & H)]; [now rewrite lookup_nil in Hg|exact H].
  - intros H. right. exists j. auto.
Qed.

Lemma run_ids_length flags : forall k inrun,
  length (run_ids k inrun flags) = length flags.
Proof.
  induction flags as [|[|] rest IH]; intros k inrun; simpl; auto.
Qed.

Lemma run_ids_flag flags : forall k inrun j,
  (exists id, run_ids k inrun flags !! j = Some (Some id))
  <-> flags !! j = Some true.
Proof.
  induction flags as [|f rest IH]; intros k inrun j.
  - simpl. rewrite !lookup_nil. split; [intros [? ?]|]; discriminate.
  - destruct f; cbn [run_ids]; destruct j as [|j]; cbn [lookup list_lookup].
    + split; eauto.
    + apply IH.
    + split; [intros [? ?]|]; discriminate.
    + apply IH.
Qed.

(** *** The groups of the two analyzers *)

Definition item (para : Paragraph) : bool :=
  truthy_opt (py_or (p_list_number para) (p_inferred_number para)).

Import SimpleEnhancedAnalyzer.

Lemma scan_runs paragraphs : forall st,
  close_groups (fold_left scan_step paragraphs st)
  = runs_loop (length (enhanced_blocks st)) (map item paragraphs)
      (SimpleEnhancedAnalyzer.list_groups st)
      (SimpleEnhancedAnalyzer.current_group st).
Proof.
  induction paragraphs as [|para ps IH]; intros st.
  - reflexivity.
  - cbn [fold_left map runs_loop]. rewrite IH. unfold scan_step.
    change (is_list_item (enhanced_block (length (enhanced_blocks st)) para))
      with (item para).
    destruct (item para).
    + cbn [enhanced_blocks SimpleEnhancedAnalyzer.list_groups
             SimpleEnhancedAnalyzer.current_group].
      rewrite length_app. simpl. now rewrite Nat.add_1_r.
    + destruct (SimpleEnhancedAnalyzer.current_group st) eqn:E;
        cbn [enhanced_blocks SimpleEnhancedAnalyzer.list_groups
               SimpleEnhancedAnalyzer.current_group close];
        rewrite length_app; simpl; now rewrite Nat.add_1_r.
Qed.

(** The list groups of [analyze_enhanced_structure] are the runs of list
    items. *)
Lemma simple_groups paragraphs :
  close_groups (scan paragraphs) = runs (map item paragraphs).
Proof. unfold scan. now rewrite scan_runs. Qed.

Import EnhancedPipeline.

Lemma group_loop_runs blocks : forall i st,
  close (EnhancedPipeline.list_groups (group_loop i blocks st))
    (EnhancedPipeline.current_group (group_loop i blocks st))
  = runs_loop i (map EnhancedListAnalyzer.is_list_item blocks)
      (EnhancedPipeline.list_groups st) (EnhancedPipeline.current_group st).
Proof.
  induction blocks as [|b rest IH]; intros i st; [reflexivity|].
  cbn [group_loop map runs_loop]. rewrite IH. unfold group_step.
  destruct (EnhancedListAnalyzer.is_list_item b); [reflexivity|].
  destruct (EnhancedPipeline.current_group st) eqn:E; [|reflexivity].
  now rewrite E.
Qed.

Lemma enhanced_groups blocks :
  _group_lists blocks = runs (map EnhancedListAnalyzer.is_list_item blocks).
Proof. unfold _group_lists. apply (group_loop_runs blocks 0). Qed.

Lemma enhance_items paragraphs :
  map EnhancedListAnalyzer.is_list_item
    (EnhancedListAnalyzer._enhance_blocks paragraphs)
  = map item paragraphs.
Proof.
  unfold EnhancedListAnalyzer._enhance_blocks. rewrite map_map. reflexivity.
Qed.

Lemma run_ids_positive flags : forall k inrun j id,
  (inrun = true -> 0 < k) ->
  run_ids k inrun flags !! j = Some (Some id) -> 0 < id.
Proof.
  induction flags as [|f rest IH]; intros k inrun j id Hk; [discriminate|].
  destruct f; cbn [run_ids]; destruct j as [|j]; cbn [lookup list_lookup].
  - intros [= <-]. destruct inrun; [auto|lia].
  - apply IH. intros _. destruct inrun; [auto|lia].
  - discriminate.
  - apply IH. discriminate.
Qed.

Lemma member_cons g rest m j :
  member (g :: rest) m j
  <-> match m with 0 => j ∈ g | S m' => member rest m' j end.
Proof.
  unfold member. destruct m as [|m']; cbn [lookup list_lookup]; [|reflexivity].
  split; [now intros (g' & [= <-] & H)|eauto].
Qed.

(** *** The list identifiers of [analyze_enhanced_structure] *)

Lemma set_list_id_fixed gid (b : SimpleEnhancedAnalyzer.EnhancedBlock) :
  SimpleEnhancedAnalyzer.list_id b = Some gid ->
  SimpleEnhancedAnalyzer.set_list_id gid b = b.
Proof. destruct b. simpl. now intros ->. Qed.

Lemma for_each_list_id gid group blocks :
  (forall i, i ∈ group -> exists b, blocks !! i = Some b) ->
  exists blocks',
    for_each (fun b => Some (SimpleEnhancedAnalyzer.set_list_id gid b))
      group blocks = Some blocks'
    /\ length blocks' = length blocks
    /\ forall j b, blocks !! j = Some b ->
         blocks' !! j
         = Some (if bool_decide (j ∈ group)
                 then SimpleEnhancedAnalyzer.set_list_id gid b else b).
Proof.
  intros Hin.
  destruct (for_each_ok
              (fun b => Some (SimpleEnhancedAnalyzer.set_list_id gid b))
              (fun _ => True)
              (fun b' => SimpleEnhancedAnalyzer.list_id b' = Some gid)
              (fun b b' => b' = b
                           \/ b' = SimpleEnhancedAnalyzer.set_list_id gid b))
    with (group := group) (blocks := blocks)
    as (blocks' & Hfe & [Hlen Hp] & HT & Hout).
  - eauto.
  - intros b b' [= <-]. now right.
  - now intros b b' [= <-].
  - now left.
  - intros b1 b2 b3 [-> | ->] [-> | ->]; auto.
  - auto.
  - intros i Hi. destruct (Hin i Hi) as (b & Hb). eauto.
  - exists blocks'. split; [exact Hfe|]. split; [exact Hlen|].
    intros j b Hb. destruct (bool_decide_reflect (j ∈ group)) as [Hj|Hj].
    + destruct (HT j Hj) as (b' & Hb' & Hid). rewrite Hb'. f_equal.
      destruct (Hp j b Hb) as (b'' & Hb'' & [-> | ->]);
        rewrite Hb' in Hb''; injection Hb'' as <-; [|reflexivity].
      symmetry. now apply set_list_id_fixed.
    + now rewrite (Hout j Hj).
Qed.

Lemma assign_list_ids_exact groups : forall gid blocks,
  (forall m j, member groups m j -> exists b, blocks !! j = Some b) ->
  (forall m m' j, member groups m j -> member groups m' j -> m = m') ->
  exists blocks',
    assign_list_ids gid groups blocks = Some blocks'
    /\ length blocks' = length blocks
    /\ forall j b, blocks !! j = Some b ->
         exists b', blocks' !! j = Some b'
           /\ (forall m, member groups m j ->
                         b' = SimpleEnhancedAnalyzer.set_list_id (gid + m) b)
           /\ ((forall m, ~ member groups m j) -> b' = b).
Proof.
  induction groups as [|g rest IH]; intros gid blocks Hin Huniq.
  - exists blocks. split; [reflexivity|]. split; [reflexivity|].
    intros j b Hb. exists b. split; [exact Hb|]. split; [|reflexivity].
    intros m (g & Hg & _). now rewrite lookup_nil in Hg.
  - cbn [assign_list_ids].
    destruct (for_each_list_id gid g blocks) as (blocks1 & Hfe & Hlen1 & H1).
    { intros i Hi. apply (Hin 0). now apply member_cons. }
    rewrite Hfe.
    destruct (IH (S gid) blocks1) as (blocks' & Ha & Hlen & H').
    { intros m j Hm. destruct (Hin (S m) j) as (b & Hb);
        [now apply member_cons|].
      rewrite (H1 j b Hb). eauto. }
    { intros m m' j Hm Hm'.
      assert (S m = S m') by
        (apply (Huniq _ _ j); now apply member_cons).
      lia. }
    exists blocks'. split; [exact Ha|]. split; [congruence|].
    intros j b Hb. specialize (H1 j b Hb).
    destruct (H' j _ H1) as (b' & Hb' & Hm & Hn).
    exists b'. split; [exact Hb'|]. split.
    + intros [|m] Hmem.
      * apply member_cons in Hmem. rewrite bool_decide_true in Hn by exact Hmem.
        rewrite Nat.add_0_r. apply Hn. intros m' Hm'.
        assert (0 = S m') by
          (apply (Huniq _ _ j); now apply member_cons).
        lia.
      * assert (Hg : j ∉ g).
        { intros Hj. assert (0 = S m) by
            (apply (Huniq _ _ j); [now apply member_cons|exact Hmem]).
          lia. }
        rewrite bool_decide_false in Hm by exact Hg.
        replace (gid + S m) with (S gid + m) by lia.
        apply Hm. now apply member_cons in Hmem.
    + intros Hnone.
      assert (Hg : j ∉ g).
      { intros Hj. apply (Hnone 0). now apply member_cons. }
      rewrite bool_decide_false in Hn by exact Hg.
      apply Hn. intros m Hmem. apply (Hnone (S m)). now apply member_cons.
Qed.

Lemma leveled_list_id b b' :
  leveled b b' ->
  SimpleEnhancedAnalyzer.list_id b' = SimpleEnhancedAnalyzer.list_id b.
Proof.
  intros [->|H]; [reflexivity|]. unfold assign_level in H.
  destruct (SimpleEnhancedAnalyzer.numbering_pattern b); [|discriminate].
  destruct (first_level _ _ _); [now injection H as <-|].
  destruct (SimpleEnhancedAnalyzer.level b); now injection H as <-.
Qed.

Lemma map_item_lookup paragraphs j :
  map item paragraphs !! j = Some true
  <-> exists para, paragraphs !! j = Some para /\ item para = true.
Proof.
  rewrite list_lookup_fmap. destruct (paragraphs !! j) as [para|]; simpl.
  - split; [intros [= H]; eauto|]. now intros (p & [= <-] & ->).
  - split; [discriminate|]. now intros (p & H & _).
Qed.

(** The list identifier of each block of [analyze_enhanced_structure] is
    the number of its run of list items, counted from 1. *)
Lemma simple_list_ids paragraphs blocks j b :
  analyze_enhanced_structure paragraphs = Some blocks ->
  blocks !! j = Some b ->
  run_ids 0 false (map item paragraphs) !! j
  = Some (SimpleEnhancedAnalyzer.list_id b).
Proof.
  unfold analyze_enhanced_structure. rewrite simple_groups.
  set (flags := map item paragraphs). set (groups := runs flags).
  pose proof (scan_blocks paragraphs) as Hbs.
  set (bs0 := enhanced_blocks (scan paragraphs)) in *.
  intros Han Hb.
  assert (Hmem : forall m i, member groups m i ->
            exists para, paragraphs !! i = Some para /\ item para = true).
  { intros m i Hm. apply runs_ids in Hm. apply map_item_lookup.
    apply (run_ids_flag flags 0 false). eauto. }
  destruct (assign_list_ids_exact groups 1 bs0) as (bs1 & Hids & Hlen1 & H1).
  { intros m i Hm. destruct (Hmem m i Hm) as (para & Hp & _).
    rewrite Hbs, list_lookup_imap, Hp. simpl. eauto. }
  { intros m m' i Hm Hm'. apply runs_ids in Hm, Hm'. congruence. }
  rewrite Hids in Han.
  destruct (assign_levels_exact groups bs1) as (bs2 & Hlv & [Hlen2 Hp2] & _).
  { intros i (g & Hg & Hi).
    apply list_elem_of_lookup in Hg as (m & Hg).
    destruct (Hmem m i) as (para & Hp & Hit); [exists g; auto|].
    assert (Hb0 : bs0 !! i = Some (enhanced_block i para))
      by (rewrite Hbs, list_lookup_imap, Hp; reflexivity).
    destruct (H1 i _ Hb0) as (b1 & Hb1 & Hset & _).
    exists b1. split; [exact Hb1|].
    rewrite (Hset m) by (exists g; auto).
    cbn [SimpleEnhancedAnalyzer.set_list_id
           SimpleEnhancedAnalyzer.numbering_pattern enhanced_block].
    unfold item in Hit. destruct (py_or _ _); [easy|discriminate]. }
  assert (bs2 = blocks) by congruence. subst bs2.
  assert (Hj : j < length paragraphs).
  { apply lookup_lt_Some in Hb. rewrite Hlen2, Hlen1, Hbs in Hb.
    now rewrite length_imap in Hb. }
  destruct (lookup_lt_is_Some_2 paragraphs j Hj) as (para & Hpara).
  assert (Hb0 : bs0 !! j = Some (enhanced_block j para))
    by (rewrite Hbs, list_lookup_imap, Hpara; reflexivity).
  destruct (H1 j _ Hb0) as (b1 & Hb1 & Hset & Hnot).
  destruct (Hp2 j b1 Hb1) as (b2 & Hb2 & HL).
  assert (b2 = b) by congruence. subst b2.
  rewrite (leveled_list_id _ _ HL).
  destruct (run_ids 0 false flags !! j) as [[id|]|] eqn:Er.
  - assert (Hpos : 0 < id) by
      (eapply run_ids_positive; [|exact Er]; discriminate).
    destruct id as [|m]; [lia|].
    apply runs_ids in Er. rewrite (Hset m Er). reflexivity.
  - rewrite Hnot; [reflexivity|].
    intros m Hm. apply runs_ids in Hm. fold flags in Hm. congruence.
  - apply lookup_ge_None in Er. unfold flags in Er.
    rewrite run_ids_length, length_map in Er. lia.
Qed.

(** *** The pipeline of enhanced_list_analyzer.py *)

Import EnhancedListAnalyzer.

(** The level that [_analyze_group_levels] gives to one block. *)
Definition level_in_group (block : EnhancedBlock) : Z :=
  match _infer_level_from_numbering (or_empty (numbering_pattern block)) with
  | Some l => l
  | None => or_zero (level block)
  end.

Lemma or_zero_default x : or_zero x = default 0%Z x.
Proof.
  destruct x as [v|]; [|reflexivity]. simpl.
  destruct (Z.eqb_spec v 0); congruence.
Qed.

Lemma assign_group_lookup (blocks : list EnhancedBlock) group bs :
  forall asg j,
  Forall2 (fun i b => blocks !! i = Some b) group bs ->
  assign_group asg group (_analyze_group_levels bs) !! j
  = if bool_decide (j ∈ group) then level_in_group <$> blocks !! j
    else asg !! j.
Proof.
  intros asg j H. revert asg.
  induction H as [|i b group bs Hi H IH]; intros asg.
  - reflexivity.
  - unfold assign_group, _analyze_group_levels in *.
    cbn [map zip zip_with fold_left fst snd]. rewrite IH.
    destruct (bool_decide_reflect (j ∈ group)) as [Hj|Hj].
    + rewrite bool_decide_true; [reflexivity|now right].
    + destruct (decide (j = i)) as [->|Hne].
      * rewrite lookup_insert_eq, bool_decide_true by left.
        now rewrite Hi.
      * rewrite lookup_insert_ne by congruence.
        rewrite bool_decide_false; [reflexivity|].
        intros Hc. apply elem_of_cons in Hc as [?|?]; contradiction.
Qed.

(** [_assign_levels] raises nothing when the groups hold positions of the
    list, and maps each position of a group to the level of its block. *)
Lemma assign_groups_ok (blocks : list EnhancedBlock) groups : forall asg,
  (forall m j, member groups m j -> is_Some (blocks !! j)) ->
  exists asg',
    assign_groups blocks groups asg = Some asg'
    /\ forall j,
         (forall m, member groups m j ->
                    asg' !! j = level_in_group <$> blocks !! j)
         /\ ((forall m, ~ member groups m j) -> asg' !! j = asg !! j).
Proof.
  induction groups as [|g rest IH]; intros asg Hin.
  - exists asg. split; [reflexivity|]. intros j. split; [|reflexivity].
    intros m (g & Hg & _). now rewrite lookup_nil in Hg.
  - cbn [assign_groups]. unfold blocks_of.
    destruct (mapM (fun i => blocks !! i) g) as [bs|] eqn:Em.
    2:{ exfalso. assert (Hs : is_Some (mapM (fun i => blocks !! i) g)).
        { apply mapM_is_Some. apply Forall_forall. intros i Hi.
          apply (Hin 0). now apply member_cons. }
        rewrite Em in Hs. now destruct Hs. }
    apply mapM_Some in Em.
    destruct (IH (assign_group asg g (_analyze_group_levels bs)))
      as (asg' & Ha & H').
    { intros m j Hm. apply (Hin (S m)). now apply member_cons. }
    exists asg'. split; [exact Ha|]. intros j.
    destruct (H' j) as [Hm Hn].
    pose proof (assign_group_lookup blocks g bs asg j Em) as Hg.
    split.
    + intros m Hmem.
      assert (Hcase : (exists m', member rest m' j)
                      \/ (forall m', ~ member rest m' j) /\ j ∈ g).
      { destruct m as [|m']; apply member_cons in Hmem; [|eauto].
        destruct (decide (Exists (fun g' => j ∈ g') rest)) as [He|He].
        - left. apply Exists_exists in He as (g' & Hg' & Hj).
          apply list_elem_of_lookup in Hg' as (m' & Hg').
          exists m', g'. auto.
        - right. split; [|exact Hmem]. intros m' (g' & Hg' & Hj).
          apply He. apply Exists_exists. exists g'. split; [|exact Hj].
          eapply list_elem_of_lookup_2; eassumption. }
      destruct Hcase as [(m' & Hm')|[Hnone Hj]]; [now apply (Hm m')|].
      rewrite (Hn Hnone), Hg. now rewrite bool_decide_true.
    + intros Hnone. rewrite Hn.
      * rewrite Hg, bool_decide_false; [reflexivity|].
        intros Hj. apply (Hnone 0). now apply member_cons.
      * intros m Hmem. apply (Hnone (S m)). now apply member_cons.
Qed.

(** What the loop of [_finalize_analysis] makes of block [t]. *)
Lemma finalize_lookup asg blocks : forall i st t b,
  blocks !! t = Some b ->
  exists b',
    finalize_loop asg i st blocks !! t = Some b'
    /\ run_ids (list_id_counter st) (nonempty (current_list_blocks st))
         (map is_list_item blocks) !! t = Some (if is_list_item b
                                                then list_id b' else None)
    /\ (if is_list_item b
        then level b' = (match asg !! (i + t) with
                         | Some lv => Some lv
                         | None => level b
                         end)
             /\ text b' = text b /\ cleaned_content b' = cleaned_content b
             /\ numbering_pattern b' = numbering_pattern b
             /\ is_list_item b' = true
        else b' = b).
Proof.
  induction blocks as [|b0 rest IH]; intros i st t b Hb; [discriminate|].
  cbn [finalize_loop map]. unfold finalize_step.
  destruct t as [|t].
  - injection Hb as ->. destruct (is_list_item b) eqn:Eb.
    + cbn [run_ids lookup list_lookup]. eexists. split; [reflexivity|].
      rewrite Nat.add_0_r.
      destruct (current_list_blocks st), (asg !! i);
        cbn [nonempty list_id level set_level set_list_id text
               cleaned_content numbering_pattern is_list_item];
        repeat split; auto.
    + cbn [run_ids lookup list_lookup]. eauto.
  - cbn [lookup list_lookup] in Hb.
    destruct (is_list_item b0) eqn:E0; cbn [run_ids lookup list_lookup].
    + set (st' := {| list_id_counter := _; current_list_blocks := _ |}).
      destruct (IH (S i) st' t b Hb) as (b' & Hl & Hr & Hf).
      exists b'. split; [exact Hl|]. split.
      * assert (Hne : nonempty (current_list_blocks st') = true)
          by (subst st'; cbn; now destruct (current_list_blocks st)).
        rewrite Hne in Hr.
        replace (if nonempty (current_list_blocks st)
                 then list_id_counter st else S (list_id_counter st))
          with (list_id_counter st')
          by (subst st'; cbn; now destruct (current_list_blocks st)).
        exact Hr.
      * replace (i + S t) with (S i + t) by lia. exact Hf.
    + set (st' := {| list_id_counter := _; current_list_blocks := _ |}).
      destruct (IH (S i) st' t b Hb) as (b' & Hl & Hr & Hf).
      exists b'. split; [exact Hl|]. split; [exact Hr|].
      replace (i + S t) with (S i + t) by lia. exact Hf.
Qed.

Lemma finalize_length asg blocks : forall i st,
  length (finalize_loop asg i st blocks) = length blocks.
Proof.
  induction blocks as [|b rest IH]; intros i st; [reflexivity|].
  cbn [finalize_loop]. destruct (finalize_step asg st i b). simpl.
  now rewrite IH.
Qed.

Lemma enhance_lookup paragraphs j para :
  paragraphs !! j = Some para ->
  _enhance_blocks paragraphs !! j = Some (enhance_block para).
Proof.
  intros H. unfold _enhance_blocks. now rewrite list_lookup_fmap, H.
Qed.

Lemma level_in_group_final para :
  item para = true ->
  Some (level_in_group (enhance_block para)) = final_level para.
Proof.
  unfold item, final_level, level_in_group.
  cbn [enhance_block numbering_pattern level].
  destruct (py_or (p_list_number para) (p_inferred_number para)) as [n|];
    [|discriminate].
  cbn [truthy_opt or_empty]. intros ->.
  unfold _infer_level_from_numbering.
  destruct (first_level false level_patterns n); [reflexivity|].
  now rewrite or_zero_default.
Qed.

Lemma plain_level_final para :
  item para = false -> p_level para = final_level para.
Proof.
  unfold item, final_level.
  destruct (py_or (p_list_number para) (p_inferred_number para)) as [n|];
    [|reflexivity].
  cbn [truthy_opt]. now intros ->.
Qed.

(** The pipeline of [analyze_document] raises nothing and gives one block
    for each paragraph: its level is [final_level], its list identifier the
    number of its run. *)
Lemma enhanced_analysis paragraphs :
  exists blocks,
    analyze paragraphs = Some blocks
    /\ length blocks = length paragraphs
    /\ forall j para, paragraphs !! j = Some para ->
         exists b, blocks !! j = Some b
           /\ level b = final_level para
           /\ run_ids 0 false (map item paragraphs) !! j = Some (list_id b)
           /\ text b = p_text para
           /\ cleaned_content b
              = _clean_content (p_text para) (p_list_number para)
                  (p_inferred_number para)
           /\ numbering_pattern b
              = py_or (p_list_number para) (p_inferred_number para)
           /\ is_list_item b = item para.
Proof.
  unfold analyze, _assign_levels. rewrite enhanced_groups, enhance_items.
  set (flags := map item paragraphs).
  set (blocks0 := _enhance_blocks paragraphs).
  assert (Hmem : forall m j, member (runs flags) m j ->
            exists para, paragraphs !! j = Some para /\ item para = true).
  { intros m j Hm. apply runs_ids in Hm. apply map_item_lookup.
    apply (run_ids_flag flags 0 false). eauto. }
  destruct (assign_groups_ok blocks0 (runs flags) ∅) as (asg & Ha & Hasg).
  { intros m j Hm. destruct (Hmem m j Hm) as (para & Hp & _).
    unfold blocks0. rewrite (enhance_lookup _ _ _ Hp). eauto. }
  rewrite Ha. eexists. split; [reflexivity|].
  unfold _finalize_analysis. split.
  { rewrite finalize_length. apply length_map. }
  intros j para Hp. pose proof (enhance_lookup _ _ _ Hp) as Hb0.
  fold blocks0 in Hb0.
  destruct (finalize_lookup asg blocks0 0
              {| list_id_counter := 0; current_list_blocks := [] |}
              j _ Hb0) as (b & Hb & Hr & Hf).
  cbn [list_id_counter current_list_blocks nonempty] in Hr.
  unfold blocks0 in Hr. rewrite enhance_items in Hr. fold flags in Hr.
  change (is_list_item (enhance_block para)) with (item para) in *.
  exists b. split; [exact Hb|].
  destruct (item para) eqn:Eit.
  - destruct Hf as (Hl & Ht & Hc & Hn & Hi).
    assert (Hm : exists m, member (runs flags) m j).
    { destruct (list_id b) as [id|] eqn:Eid.
      - assert (0 < id) by
          (eapply run_ids_positive; [|exact Hr]; discriminate).
        destruct id as [|m]; [lia|]. exists m. now apply runs_ids.
      - assert (He : exists id, run_ids 0 false flags !! j = Some (Some id)).
        { apply run_ids_flag. apply map_item_lookup. eauto. }
        destruct He as (id & He). congruence. }
    destruct Hm as (m & Hm).
    destruct (Hasg j) as [Hin _]. cbn [Nat.add] in Hl.
    rewrite (Hin m Hm), Hb0 in Hl.
    cbn [fmap option_fmap option_map] in Hl. simpl in Hl.
    split; [rewrite Hl; now apply level_in_group_final|].
    split; [exact Hr|]. rewrite Ht, Hc, Hn, Hi. auto.
  - subst b. split; [now apply plain_level_final|].
    split; [exact Hr|]. cbn [enhance_block text cleaned_content
                              numbering_pattern is_list_item].
    auto.
Qed.

Lemma clean_content_agree text list_number inferred :
  SimpleEnhancedAnalyzer.clean_content text (py_or list_number inferred)
  = _clean_content text list_number inferred.
Proof.
  unfold SimpleEnhancedAnalyzer.clean_content, _clean_content, py_or.
  now destruct (truthy list_number) eqn:E; [rewrite E|].
Qed.

(** X10: the two analyzers agree.  On the same paragraphs neither raises,
    both give one block for each paragraph, and the blocks at the same
    position have the same level, the same list identifier, the same cleaned
    content, the same numbering and the same text: numbering the groups found
    first ([analyze_enhanced_structure]) and counting the runs on the way
    ([_finalize_analysis]) come to the same. *)
Theorem analyzers_agree paragraphs :
  exists simple enhanced,
    analyze_enhanced_structure paragraphs = Some simple
    /\ EnhancedPipeline.analyze paragraphs = Some enhanced
    /\ length simple = length paragraphs
    /\ length enhanced = length paragraphs
    /\ forall j bS bE,
         simple !! j = Some bS -> enhanced !! j = Some bE ->
         SimpleEnhancedAnalyzer.level bS = level bE
         /\ SimpleEnhancedAnalyzer.list_id bS = list_id bE
         /\ SimpleEnhancedAnalyzer.cleaned_content bS = cleaned_content bE
         /\ SimpleEnhancedAnalyzer.numbering_pattern bS = numbering_pattern bE
         /\ SimpleEnhancedAnalyzer.is_list_item bS = is_list_item bE
         /\ SimpleEnhancedAnalyzer.text bS = text bE.
Proof.
  destruct (analyze_blocks paragraphs) as (simple & HS & HlenS & HfS).
  destruct (enhanced_analysis paragraphs) as (enhanced & HE & HlenE & HfE).
  exists simple, enhanced. repeat (split; [assumption|]).
  intros j bS bE HbS HbE.
  assert (Hj : j < length paragraphs)
    by (apply lookup_lt_Some in HbS; lia).
  destruct (lookup_lt_is_Some_2 paragraphs j Hj) as (para & Hp).
  destruct (HfS j para Hp) as (b & Hb & Hsame & _).
  assert (b = bS) by congruence. subst b.
  destruct (HfE j para Hp) as (b & Hb' & Hl & Hid & Ht & Hc & Hn & Hi).
  assert (b = bE) by congruence. subst b.
  destruct Hsame as (_ & Ht' & Hc' & _ & Hn' & Hi' & _).
  cbn [enhanced_block SimpleEnhancedAnalyzer.text
         SimpleEnhancedAnalyzer.cleaned_content
         SimpleEnhancedAnalyzer.numbering_pattern
         SimpleEnhancedAnalyzer.is_list_item] in Ht', Hc', Hn', Hi'.
  rewrite (analysis_level_exact paragraphs simple j para bS HS Hp HbS), Hl.
  pose proof (simple_list_ids paragraphs simple j bS HS HbS) as HidS.
  rewrite Ht', Hc', Hn', Hi', Ht, Hc, Hn, Hi, clean_content_agree.
  repeat split. congruence.
Qed.

(** X9: the list identifiers of [analyze_enhanced_structure] number the runs
    of contiguous list items from 1: a block that is no list item has none, a
    list item that follows a list item has the identifier of that item, and
    a list item that opens a run has the next number. *)
Theorem list_ids_number_the_runs paragraphs :
  exists blocks,
    analyze_enhanced_structure paragraphs = Some blocks
    /\ map SimpleEnhancedAnalyzer.list_id blocks
       = run_ids 0 false (map item paragraphs).
Proof.
  destruct (analyze_blocks paragraphs) as (blocks & Ha & Hlen & _).
  exists blocks. split; [exact Ha|].
  apply list_eq. intros j. rewrite list_lookup_fmap.
  destruct (blocks !! j) as [b|] eqn:Hb; simpl.
  - symmetry. now apply (simple_list_ids paragraphs blocks).
  - symmetry. apply lookup_ge_None. apply lookup_ge_None in Hb.
    rewrite run_ids_length, length_map. lia.
Qed.

(** X11: [_assign_levels] raises nothing on the groups of [_group_lists], and
    the keys of the dictionary it returns are the positions of the list
    items, each with the level of the table for its numbering or, failing
    that, its own level or 0.  The test [i in level_assignments] of
    [_finalize_analysis] holds for every list item. *)
Theorem level_assignments_cover_list_items paragraphs :
  let blocks := _enhance_blocks paragraphs in
  exists level_assignments,
    _assign_levels blocks (_group_lists blocks) = Some level_assignments
    /\ forall j,
         level_assignments !! j
         = match blocks !! j with
           | Some b => if is_list_item b then Some (level_in_group b) else None
           | None => None
           end.
Proof.
  intros blocks. unfold _assign_levels. rewrite enhanced_groups.
  assert (Hitems : map is_list_item blocks = map item paragraphs)
    by apply enhance_items.
  rewrite Hitems. set (flags := map item paragraphs) in *.
  assert (Hflag : forall j, flags !! j = is_list_item <$> blocks !! j).
  { intros j. now rewrite <- Hitems, list_lookup_fmap. }
  destruct (assign_groups_ok blocks (runs flags) ∅) as (asg & Ha & Hasg).
  { intros m j Hm. apply runs_ids in Hm.
    assert (He : flags !! j = Some true)
      by (apply (run_ids_flag flags 0 false); eauto).
    rewrite Hflag in He. destruct (blocks !! j); [eauto|discriminate]. }
  exists asg. split; [exact Ha|]. intros j. destruct (Hasg j) as [Hin Hout].
  destruct (run_ids 0 false flags !! j) as [[id|]|] eqn:Er.
  - assert (0 < id) by (eapply run_ids_positive; [|exact Er]; discriminate).
    destruct id as [|m]; [lia|]. apply runs_ids in Er as Hm.
    rewrite (Hin m Hm).
    assert (He : flags !! j = Some true)
      by (apply (run_ids_flag flags 0 false); eauto).
    rewrite Hflag in He. destruct (blocks !! j) as [b|]; [|discriminate].
    simpl in He. injection He as ->. reflexivity.
  - rewrite Hout, lookup_empty.
    2:{ intros m Hm. apply runs_ids in Hm. congruence. }
    destruct (blocks !! j) as [b|] eqn:Eb; [|reflexivity].
    destruct (is_list_item b) eqn:Ei; [|reflexivity].
    assert (He : exists id, run_ids 0 false flags !! j = Some (Some id)).
    { apply run_ids_flag. rewrite Hflag, Eb. simpl. now rewrite Ei. }
    destruct He as (id & He). congruence.
  - rewrite Hout, lookup_empty.
    2:{ intros m Hm. apply runs_ids in Hm. congruence. }
    apply lookup_ge_None in Er. rewrite run_ids_length in Er.
    assert (Hn : flags !! j = None) by now apply lookup_ge_None.
    rewrite Hflag in Hn. now destruct (blocks !! j).
Qed.

End Runs.

Section Levels.
Import PyStr Re HybridDetector SimpleEnhancedAnalyzer.

(** X5: the patterns of the level table all end in [\s]: a numbering
    without whitespace matches none of them.  [_infer_level_from_numbering]
    gives nothing for it, and [assign_levels] leaves such a block with its
    own level, or with level 0 when it has none. *)
Theorem level_table_needs_whitespace numbering :
  no_space numbering = true ->
  EnhancedListAnalyzer._infer_level_from_numbering numbering = None
  /\ forall block,
       numbering_pattern block = Some numbering ->
       assign_level block
       = Some (match level block with
               | Some _ => block
               | None => set_level 0 block
               end).
Proof.
  intros H. pose proof (infer_level_needs_space numbering H) as Hn.
  split; [exact Hn|]. intros block Hb. unfold assign_level. rewrite Hb.
  unfold EnhancedListAnalyzer._infer_level_from_numbering in Hn. rewrite Hn.
  now destruct (level block).
Qed.

Lemma level_table_needs_whitespace_witness :
  EnhancedListAnalyzer._infer_level_from_numbering (py "1.01") = None
  /\ forall block,
       numbering_pattern block = Some (py "1.01") ->
       assign_level block
       = Some (match level block with
               | Some _ => block
               | None => set_level 0 block
               end).
Proof.
  apply (level_table_needs_whitespace (py "1.01")). reflexivity.
Defined.

(** X6: the level table on a numbering that is followed by a whitespace
    character [w] (and anything after it): N.0 gives level 0, N.dd with any
    two digits (so "1.01" as well as "1.34") level 1, a capital letter and a
    period level 2, N. level 3, a small letter and a period level 4 (also
    for i, v and x), two or more of the letters i, v, x and a period
    level 5; N.d with one digit other than 0 gives no level. *)
Theorem level_table_with_whitespace (N : str) (d1 d2 C c r1 r2 w : ascii)
        (R rest : str) :
  all_of is_digit N = true ->
  is_digit d1 = true -> is_digit d2 = true ->
  is_upper C = true -> is_lower c = true ->
  forallb is_ivx (r1 :: r2 :: R) = true ->
  is_space w = true ->
  let infer := EnhancedListAnalyzer._infer_level_from_numbering in
  infer (N ++ py ".0" ++ w :: rest) = Some 0%Z
  /\ infer (N ++ py "." ++ d1 :: d2 :: w :: rest) = Some 1%Z
  /\ infer (C :: "."%char :: w :: rest) = Some 2%Z
  /\ infer (N ++ py "." ++ w :: rest) = Some 3%Z
  /\ infer (c :: "."%char :: w :: rest) = Some 4%Z
  /\ infer ((r1 :: r2 :: R) ++ py "." ++ w :: rest) = Some 5%Z
  /\ (d1 <> "0"%char -> infer (N ++ py "." ++ d1 :: w :: rest) = None).
Proof.
  intros HN H1 H2 HC Hc HR Hw infer. subst infer.
  split; [now apply infer_level_major|].
  split; [now apply infer_level_minor|].
  split; [now apply infer_level_upper|].
  split; [now apply infer_level_plain|].
  split; [now apply infer_level_lower|].
  split; [now apply infer_level_roman|].
  intros Hne. now apply infer_level_one_digit.
Qed.

Lemma level_table_with_whitespace_witness :
  let infer := EnhancedListAnalyzer._infer_level_from_numbering in
  infer (py "12.0 General") = Some 0%Z
  /\ infer (py "12.34 General") = Some 1%Z
  /\ infer (py "B. General") = Some 2%Z
  /\ infer (py "12. General") = Some 3%Z
  /\ infer (py "i. General") = Some 4%Z
  /\ infer (py "xiv. General") = Some 5%Z
  /\ infer (py "1.01 General") = Some 1%Z
  /\ infer (py "12.3 General") = None.
Proof.
  pose proof (level_table_with_whitespace (py "12") "3" "4" "B" "i" "x" "i"
                " " (py "v") (py "General") eq_refl eq_refl eq_refl eq_refl
                eq_refl eq_refl eq_refl) as H.
  pose proof (level_table_with_whitespace (py "1") "0" "1" "B" "i" "x" "i"
                " " (py "v") (py "General") eq_refl eq_refl eq_refl eq_refl
                eq_refl eq_refl eq_refl) as H'.
  cbv zeta in H, H'. destruct H as (H0 & H1 & H2 & H3 & H4 & H5 & H6).
  destruct H' as (_ & H1' & _).
  assert (Hne : "3"%char <> "0"%char) by discriminate.
  exact (conj H0 (conj H1 (conj H2 (conj H3 (conj H4 (conj H5
           (conj H1' (H6 Hne)))))))).
Defined.

(** X7: the level of each block of [analyze_enhanced_structure].  A block
    that is no list item keeps the level of its paragraph.  A list item gets
    the level of the first pattern of the table that matches its numbering,
    even when the paragraph came with a level of its own; when no pattern
    matches it keeps its own level, and gets level 0 when it has none. *)
Theorem analysis_level_formula paragraphs :
  exists blocks,
    analyze_enhanced_structure paragraphs = Some blocks
    /\ forall j para b,
         paragraphs !! j = Some para -> blocks !! j = Some b ->
         let numbering :=
           py_or (p_list_number para) (p_inferred_number para) in
         (truthy_opt numbering = false -> level b = p_level para)
         /\ (forall n, numbering = Some n -> truthy n = true ->
               level b
               = Some (match first_level false level_patterns n with
                       | Some lv => lv
                       | None => default 0%Z (p_level para)
                       end)).
Proof.
  destruct (analyze_blocks paragraphs) as (blocks & Ha & _).
  exists blocks. split; [exact Ha|]. intros j para b Hp Hb numbering.
  rewrite (analysis_level_exact paragraphs blocks j para b Ha Hp Hb).
  unfold final_level. fold numbering. split.
  - destruct numbering as [n|]; [|reflexivity]. cbn [truthy_opt].
    now intros ->.
  - intros n -> ->. now destruct (first_level false level_patterns n).
Qed.

Lemma sample_lookup doc i para :
  sample_paragraphs (extract_numbered_paragraphs doc) !! i = Some para ->
  exists wp, doc !! i = Some wp
             /\ para = sample_entry (numbered_paragraph i wp).
Proof.
  unfold sample_paragraphs, extract_numbered_paragraphs.
  rewrite list_lookup_fmap. intros H.
  destruct (take 20 (imap numbered_paragraph doc) !! i) as [np|] eqn:E;
    [|discriminate].
  injection H as <-. apply lookup_take_Some in E as [E _].
  rewrite list_lookup_imap in E.
  destruct (doc !! i) as [wp|]; [|discriminate]. injection E as <-. eauto.
Qed.

Lemma numbered_paragraph_inferred idx wp n :
  inferred_number (numbered_paragraph idx wp) = Some n ->
  deduce_numbering_from_text (HybridDetector.text (numbered_paragraph idx wp))
  = Some n.
Proof.
  unfold numbered_paragraph.
  destruct (negb (truthy (ListString wp)) && truthy (strip _));
    [|discriminate].
  destruct (deduce_numbering_from_text _) as [inferred|] eqn:E;
    [|discriminate].
  destruct (truthy inferred); [|discriminate].
  cbn [inferred_number HybridDetector.text]. now intros [= <-].
Qed.

Lemma numbered_paragraph_fields idx wp :
  list_number (numbered_paragraph idx wp) = ListString wp
  /\ HybridDetector.level (numbered_paragraph idx wp) = ListLevelNumber wp.
Proof.
  unfold numbered_paragraph.
  destruct (negb (truthy (ListString wp)) && truthy (strip _)); [|auto].
  destruct (deduce_numbering_from_text _) as [inferred|]; [|auto].
  destruct (truthy inferred); auto.
Qed.

(** X8: from the Word paragraphs to the blocks.  A list item whose numbering
    was deduced from its text (Word gave no list string) never gets a level
    from the level table: it comes out with the level Word gave, or with
    level 0. *)
Theorem inferred_items_skip_level_table doc blocks i wp b :
  analysis doc = Some blocks ->
  doc !! i = Some wp -> blocks !! i = Some b ->
  truthy (ListString wp) = false -> is_list_item b = true ->
  level b = Some (default 0%Z (ListLevelNumber wp)).
Proof.
  unfold analysis. intros Ha Hwp Hb Hls Hli.
  set (paragraphs := sample_paragraphs (extract_numbered_paragraphs doc)) in *.
  destruct (analyze_blocks paragraphs) as (bs & Ha' & Hlen & Hf).
  assert (bs = blocks) by congruence. subst bs.
  assert (Hi : i < length paragraphs)
    by (apply lookup_lt_Some in Hb; lia).
  destruct (lookup_lt_is_Some_2 paragraphs i Hi) as (para & Hp).
  destruct (sample_lookup doc i para Hp) as (wp' & Hwp' & Hpara).
  assert (wp' = wp) by congruence. subst wp'.
  destruct (Hf i para Hp) as (b' & Hb' & Hsame & _).
  assert (b' = b) by congruence. subst b'.
  rewrite (analysis_level_exact paragraphs blocks i para b Ha Hp Hb).
  destruct Hsame as (_ & _ & _ & _ & _ & Hitem & _).
  cbn [enhanced_block is_list_item] in Hitem. rewrite Hli in Hitem.
  destruct (numbered_paragraph_fields i wp) as [Hln Hlv].
  unfold final_level. subst para.
  cbn [sample_entry p_list_number p_inferred_number p_level] in *.
  rewrite Hln, Hlv in *. unfold py_or in *. rewrite Hls in *.
  destruct (inferred_number (numbered_paragraph i wp)) as [n|] eqn:En;
    [|discriminate].
  cbn [truthy_opt] in Hitem. rewrite <- Hitem.
  apply numbered_paragraph_inferred in En.
  destruct (deduce_token _ _ En) as [_ Hns].
  pose proof (infer_level_needs_space n Hns) as Hnone.
  unfold EnhancedListAnalyzer._infer_level_from_numbering in Hnone.
  now rewrite Hnone.
Qed.

End Levels.

Section Cleaning.
Import PyStr Re HybridDetector SimpleEnhancedAnalyzer.

(** ** The two ways of cleaning a content *)

Lemma rstrip_app a b :
  rstrip (a ++ b) = match rstrip b with [] => rstrip a | r => a ++ r end.
Proof.
  unfold rstrip. induction a as [|c a IH]; cbn [app].
  - now destruct (rstrip_with is_space b).
  - cbn [rstrip_with]. rewrite IH.
    destruct (rstrip_with is_space b) as [|x r]; [reflexivity|].
    now destruct a.
Qed.

Lemma no_space_rstrip n : no_space n = true -> rstrip n = n.
Proof.
  unfold no_space, rstrip. induction n as [|c t IH]; [reflexivity|].
  cbn [forallb rstrip_with]. intros H. apply andb_true_iff in H as [Hc Ht].
  rewrite (IH Ht). apply negb_true_iff in Hc. rewrite Hc. now destruct t.
Qed.

Lemma strip_unindented text : lstrip text = text -> strip text = rstrip text.
Proof. intros H. unfold strip. now rewrite <- rstrip_lstrip, H. Qed.

(** On a text without leading whitespace the detector and the analyzer
    clean alike. *)
Lemma cleaners_agree_unindented text n :
  truthy text = true -> truthy n = true ->
  lstrip text = text -> rstrip n = n ->
  clean_content_from_numbering text n = clean_content text (Some n).
Proof.
  intros Ht Hn Hl Hr. rewrite clean_content_spec by exact Hn.
  unfold clean_content_from_numbering. rewrite Ht, Hn. cbn [negb orb].
  rewrite (strip_unindented text Hl).
  destruct (startswith text n) eqn:Es.
  - apply startswith_drop in Es.
    assert (Hx : exists r, text = n ++ r) by eauto.
    destruct Hx as [r ->]. clear Es. rewrite rstrip_app.
    assert (Hcut : match rstrip r with
                   | [] => rstrip n
                   | r' => n ++ r'
                   end = n ++ rstrip r).
    { destruct (rstrip r); [now rewrite Hr, app_nil_r|reflexivity]. }
    rewrite Hcut, startswith_app, !drop_app_length. reflexivity.
  - destruct (startswith (rstrip text) n) eqn:Es'; [|reflexivity].
    destruct (rstrip_prefix text) as [tail Htail].
    rewrite Htail in Es.
    now rewrite (startswith_app_l _ tail _ Es') in Es.
Qed.

Lemma lstrip_indented text :
  lstrip text <> text -> exists c t, text = c :: t /\ is_space c = true.
Proof.
  destruct text as [|c t]; [easy|]. unfold lstrip. cbn [drop_while].
  destruct (is_space c) eqn:E; [eauto|easy].
Qed.

Lemma token_head_not_space n c t :
  token_head n = true -> is_space c = true -> startswith (c :: t) n = false.
Proof.
  destruct n as [|x n]; [discriminate|]. cbn [token_head startswith].
  intros Hx Hc. destruct (Ascii.eqb_spec c x) as [->|]; [|reflexivity].
  apply orb_true_iff in Hx as [Hx|Hx].
  - apply digit_not_space in Hx. congruence.
  - apply letter_not_space in Hx. congruence.
Qed.

(** X4: the detector removes a deduced number from the trimmed text, the
    analyzers from the text as it is.  When the text has no leading
    whitespace the two cleaned contents are equal.  When it has, the
    analyzers remove nothing but the outer whitespace: the cleaned content
    is the trimmed text, which opens with the number, or, when the trimmed
    text opens with a parenthesis, with the parenthesis and then the
    number. *)
Theorem indented_text_keeps_number text n :
  deduce_numbering_from_text text = Some n ->
  (lstrip text = text ->
   clean_content text (Some n) = clean_content_from_numbering text n)
  /\ (lstrip text <> text ->
      clean_content text (Some n) = strip text
      /\ (startswith (strip text) (py "(") = false ->
          startswith (clean_content text (Some n)) n = true)
      /\ (startswith (strip text) (py "(") = true ->
          startswith (clean_content text (Some n)) (py "(" ++ n) = true)).
Proof.
  intros H. pose proof (deduce_truthy _ _ H) as Ht.
  destruct (deduce_token _ _ H) as [Hh Hs].
  pose proof (token_head_truthy n Hh) as Hn. split.
  - intros Hl. symmetry. apply cleaners_agree_unindented; auto.
    now apply no_space_rstrip.
  - intros Hl. destruct (lstrip_indented text Hl) as (c & t & -> & Hc).
    rewrite clean_content_spec by exact Hn.
    rewrite (token_head_not_space n c t Hh Hc). split; [reflexivity|].
    apply deduce_sound in H as [[Hd [rest Hr]]|[_ [rest Hr]]]; rewrite Hr.
    + split; intros Hp; [apply startswith_app|].
      exfalso. clear -Hh Hp. destruct n as [|c t]; [discriminate|].
      cbn [app startswith token_head] in Hh, Hp.
      apply andb_true_iff in Hp as [Hp _]. apply Ascii.eqb_eq in Hp.
      subst c. discriminate.
    + split; intros Hp; [discriminate|].
      rewrite app_assoc. apply startswith_app.
Qed.

Lemma indented_text_keeps_number_witness :
  (lstrip (py "  (2) Valves") = py "  (2) Valves" ->
   clean_content (py "  (2) Valves") (Some (py "2)"))
   = clean_content_from_numbering (py "  (2) Valves") (py "2)"))
  /\ (lstrip (py "  (2) Valves") <> py "  (2) Valves" ->
      clean_content (py "  (2) Valves") (Some (py "2)"))
      = strip (py "  (2) Valves")
      /\ (startswith (strip (py "  (2) Valves")) (py "(") = false ->
          startswith (clean_content (py "  (2) Valves") (Some (py "2)")))
            (py "2)") = true)
      /\ (startswith (strip (py "  (2) Valves")) (py "(") = true ->
          startswith (clean_content (py "  (2) Valves") (Some (py "2)")))
            (py "(" ++ py "2)") = true)).
Proof.
  apply (indented_text_keeps_number (py "  (2) Valves") (py "2)")).
  reflexivity.
Defined.

(** ** The counts of the reports *)

Import Reports.

Lemma numbered_paragraph_exclusive idx wp :
  truthy (list_number (numbered_paragraph idx wp))
  && truthy_opt (inferred_number (numbered_paragraph idx wp)) = false.
Proof.
  unfold numbered_paragraph.
  destruct (truthy (ListString wp)) eqn:E; cbn [negb andb].
  - cbn [list_number inferred_number truthy_opt]. apply andb_false_r.
  - destruct (truthy (strip _));
      [destruct (deduce_numbering_from_text _) as [inferred|];
       [destruct (truthy inferred)|]|];
      cbn [list_number]; now rewrite E.
Qed.

Lemma numbered_paragraph_blank idx wp :
  truthy (strip (HybridDetector.text (numbered_paragraph idx wp))) = false ->
  truthy_opt (inferred_number (numbered_paragraph idx wp)) = false.
Proof.
  unfold numbered_paragraph.
  destruct (negb (truthy (ListString wp))); cbn [andb]; [|reflexivity].
  destruct (truthy (strip (rstrip_marks (Range_Text wp)))) eqn:E;
    [|reflexivity].
  destruct (deduce_numbering_from_text _) as [inferred|];
    [destruct (truthy inferred)|]; cbn [HybridDetector.text]; congruence.
Qed.

Lemma counts_split (paragraphs : list NumberedParagraph) :
  Forall (fun p => truthy (list_number p)
                   && truthy_opt (inferred_number p) = false) paragraphs ->
  unnumbered_count paragraphs
  = count (fun p => negb (truthy (list_number p))
                    && negb (truthy_opt (inferred_number p))
                    && negb (truthy (strip (HybridDetector.text p))))
      paragraphs.
Proof.
  unfold unnumbered_count, numbered_count, inferred_count,
    continuation_count, count.
  induction 1 as [|p ps Hp _ IH]; [reflexivity|].
  cbn [List.filter length].
  destruct (truthy (list_number p)), (truthy_opt (inferred_number p)),
    (truthy (strip (HybridDetector.text p)));
    try discriminate; cbn [negb andb length]; lia.
Qed.

Lemma count_ext (f g : NumberedParagraph -> bool) paragraphs :
  Forall (fun p => f p = g p) paragraphs ->
  count f paragraphs = count g paragraphs.
Proof.
  unfold count. induction 1 as [|p ps Hp _ IH]; [reflexivity|].
  cbn [List.filter]. rewrite Hp. destruct (g p); cbn [length]; lia.
Qed.

(** X14: in the report of the detector every paragraph is counted once: it
    is numbered, or inferred, or a continuation, or unnumbered.  The count of
    the unnumbered paragraphs, the total less the three other counts, is the
    number of blank paragraphs without a list string; it is never
    negative. *)
Theorem unnumbered_are_blank doc :
  let paragraphs := extract_numbered_paragraphs doc in
  unnumbered_count paragraphs
  = count (fun p => negb (truthy (list_number p))
                    && negb (truthy (strip (HybridDetector.text p))))
      paragraphs
  /\ (0 <= unnumbered_count paragraphs)%Z.
Proof.
  intros paragraphs.
  assert (Hall : forall P : NumberedParagraph -> Prop,
            (forall idx wp, P (numbered_paragraph idx wp)) ->
            Forall P paragraphs).
  { intros P HP. apply Forall_forall. intros p Hp.
    apply list_elem_of_lookup in Hp as (i & Hi).
    unfold paragraphs, extract_numbered_paragraphs in Hi.
    rewrite list_lookup_imap in Hi.
    destruct (doc !! i); [|discriminate]. injection Hi as <-. apply HP. }
  rewrite counts_split by (apply Hall, numbered_paragraph_exclusive).
  split; [|apply Nat2Z.is_nonneg].
  apply count_ext. apply Hall. intros idx wp.
  destruct (truthy (strip (HybridDetector.text (numbered_paragraph idx wp))))
    eqn:E; cbn [negb]; [now rewrite !andb_false_r|].
  rewrite (numbered_paragraph_blank idx wp E). cbn [negb].
  now rewrite !andb_true_r.
Qed.

(** *** The level distribution *)

Definition at_level (l : Z) (block : EnhancedBlock) : bool :=
  is_list_item block && bool_decide (level block = Some l).

Lemma level_distribution_from blocks : forall (d : gmap Z nat) l,
  fold_left
    (fun distribution block =>
       if is_list_item block then
         match level block with
         | Some level =>
             <[level := default 0 (distribution !! level) + 1]> distribution
         | None => distribution
         end
       else distribution)
    blocks d !! l
  = match length (List.filter (at_level l) blocks) with
    | 0 => d !! l
    | S n => Some (default 0 (d !! l) + S n)
    end.
Proof.
  induction blocks as [|b rest IH]; intros d l; [reflexivity|].
  cbn [fold_left List.filter]. rewrite IH. unfold at_level at 2.
  destruct (is_list_item b); cbn [andb]; [|reflexivity].
  destruct (level b) as [lb|]; [|reflexivity].
  destruct (decide (lb = l)) as [->|Hne].
  - rewrite bool_decide_true by reflexivity. cbn [length].
    rewrite lookup_insert_eq.
    destruct (length (List.filter (at_level l) rest)); simpl; f_equal; lia.
  - rewrite bool_decide_false by congruence.
    now rewrite lookup_insert_ne by exact Hne.
Qed.

(** X16: the level distribution holds, for each level, the number of list
    items at this level; a level that no list item has is no key of the
    dictionary, and a block that is no list item is not counted, whatever
    its level. *)
Theorem level_distribution_counts blocks l :
  get_level_distribution blocks !! l
  = match length (List.filter (at_level l) blocks) with
    | 0 => None
    | S n => Some (S n)
    end.
Proof.
  unfold get_level_distribution. rewrite level_distribution_from.
  now rewrite lookup_empty.
Qed.

(** ** The sample of the report *)

Lemma preview_length s : length (preview s) <= 103.
Proof.
  unfold preview. destruct (Nat.ltb_spec 100 (length s)); [|lia].
  rewrite length_app, length_take. change (length (py "...")) with 3. lia.
Qed.

(** X15: the analysis works on the sample of the report: it gives a block for
    each of the first 20 paragraphs of the document and for no other, and the
    text of a block is the text of the paragraph cut after 100 characters
    (three periods are put after the cut). *)
Theorem analysis_sees_the_sample doc :
  exists blocks,
    analysis doc = Some blocks
    /\ length blocks = Nat.min 20 (length doc)
    /\ forall i b, blocks !! i = Some b ->
         exists wp, doc !! i = Some wp
           /\ text b = preview (rstrip_marks (Range_Text wp))
           /\ length (text b) <= 103.
Proof.
  unfold analysis.
  set (paragraphs := sample_paragraphs (extract_numbered_paragraphs doc)).
  destruct (analyze_blocks paragraphs) as (blocks & Ha & Hlen & Hf).
  exists blocks. split; [exact Ha|]. split.
  { rewrite Hlen. unfold paragraphs, sample_paragraphs,
      extract_numbered_paragraphs.
    now rewrite length_map, length_take, length_imap. }
  intros i b Hb.
  assert (Hi : i < length paragraphs) by (apply lookup_lt_Some in Hb; lia).
  destruct (lookup_lt_is_Some_2 paragraphs i Hi) as (para & Hp).
  destruct (sample_lookup doc i para Hp) as (wp & Hwp & ->).
  destruct (Hf i _ Hp) as (b' & Hb' & Hsame & _).
  assert (b' = b) by congruence. subst b'.
  destruct Hsame as (_ & Ht & _). exists wp. split; [exact Hwp|].
  assert (Htext : text b = preview (rstrip_marks (Range_Text wp))).
  { rewrite Ht. cbn [enhanced_block text sample_entry p_text].
    f_equal. unfold numbered_paragraph.
    destruct (negb (truthy (ListString wp)) && truthy (strip _));
      [|reflexivity].
    destruct (deduce_numbering_from_text _) as [inferred|]; [|reflexivity].
    now destruct (truthy inferred). }
  split; [exact Htext|]. rewrite Htext. apply preview_length.
Qed.

End Cleaning.

Section Instances.
Import PyStr Re HybridDetector SimpleEnhancedAnalyzer.

(** ** The theorems at work *)

Definition pipes_doc : list WordParagraph :=
  [word "Scope" "" None; word "Pipes" "1." (Some 1%Z);
   word "steel only" "" None].

Definition pipes_block : ContentBlock :=
  {| cb_index := 1; numbering := Some (py "1."); numbering_type := py "true";
     content := py "Pipes"; cb_level := Some 1%Z;
     continuation_blocks := [py "steel only"] |}.

Lemma consolidate_shape_witness :
  cb_index pipes_block = 1
  /\ (((numbering_type pipes_block = py "true"
        \/ numbering_type pipes_block = py "inferred")
       /\ truthy_opt (numbering pipes_block) = true)
      \/ (1 = 0 /\ numbering_type pipes_block = py "none"
          /\ numbering pipes_block = Some [] /\ cb_level pipes_block = None)).
Proof.
  apply (consolidate_shape (extract_numbered_paragraphs pipes_doc) 1
           pipes_block).
  reflexivity.
Defined.

Definition valves_doc : list WordParagraph :=
  [word "2. Valves" "" (Some 3%Z); word "Notes" "" None].

Definition valves_word : WordParagraph := word "2. Valves" "" (Some 3%Z).

Definition valves_block : EnhancedBlock :=
  {| index := 0; text := py "2. Valves"; cleaned_content := py "Valves";
     level := Some 3%Z; num_fmt := Some (py "decimal"); list_id := Some 1;
     numbering_pattern := Some (py "2."); is_list_item := true;
     is_continuation := false |}.

Definition notes_block : EnhancedBlock :=
  {| index := 1; text := py "Notes"; cleaned_content := py "Notes";
     level := None; num_fmt := None; list_id := None;
     numbering_pattern := None; is_list_item := false;
     is_continuation := false |}.

Lemma inferred_items_skip_level_table_witness :
  level valves_block = Some (default 0%Z (ListLevelNumber valves_word)).
Proof.
  apply (inferred_items_skip_level_table valves_doc
           [valves_block; notes_block] 0 valves_word valves_block);
    reflexivity.
Defined.

Import FlexibleListAnalyzer.

Definition listed (i : nat) (number t : string) : Paragraph :=
  {| p_index := i; p_list_number := py number; p_inferred_number := None;
     p_text := py t; p_combined := py t; p_level := None;
     p_deduction_method := None |}.

Definition steel_paragraphs : list Paragraph :=
  [listed 0 "1." "1. Pipes"; listed 1 "a." "a. Steel"].

Definition steel_block : FlexibleBlock :=
  {| index := 1; text := py "a. Steel"; cleaned_content := py "Steel";
     level := Some 1%Z; num_fmt := Some (py "lowerLetter"); list_id := None;
     numbering_pattern := Some (py "a."); inferred_number := None;
     is_list_item := true |}.

Lemma contextual_levels_witness :
  let out :=
    _assign_levels_contextually (_create_flexible_blocks steel_paragraphs) in
  exists l,
    level steel_block = Some l /\ (0 <= l)%Z
    /\ exists b', out !! 0 = Some b'
         /\ if is_list_item b'
            then exists l', level b' = Some l' /\ (l' - 1 <= l <= l' + 1)%Z
            else l = 0%Z.
Proof.
  apply (contextual_levels steel_paragraphs 1 steel_block); reflexivity.
Defined.

Definition decimal_paragraphs : list Paragraph :=
  [listed 0 "1.1" "1.1 Pipes"; listed 1 "1.2" "1.2 Valves";
   listed 2 "1.3" "1.3 Pumps"].

Definition pumps_block : FlexibleBlock :=
  {| index := 2; text := py "1.3 Pumps"; cleaned_content := py "Pumps";
     level := Some 2%Z; num_fmt := Some (py "decimal"); list_id := None;
     numbering_pattern := Some (py "1.3"); inferred_number := None;
     is_list_item := true |}.

Lemma decimal_run_nests_witness :
  level pumps_block = Some (Z.of_nat 2).
Proof.
  apply (decimal_run_nests decimal_paragraphs 2 pumps_block);
    [|reflexivity].
  repeat constructor.
  - exists (py "1"), (py "1"). repeat split.
  - exists (py "1"), (py "2"). repeat split.
  - exists (py "1"), (py "3"). repeat split.
Defined.

End Instances.
